(** * EM Copilot project generator: a shallow embedding of
      [generate_xcodeproj.py] and the properties of its descriptor renderer,
      identifier allocator and verification report. *)

From Stdlib Require Import List String Ascii NArith PeanoNat Lia Bool.
From Stdlib Require Import HexString DecimalString.
Import ListNotations.
Open Scope string_scope.

(* ------------------------------------------------------------------ *)
(** ** Python string helpers *)
(* ------------------------------------------------------------------ *)

Module PyStr.

(** The double-quote, tab and newline characters, by character code. *)
Definition q : string := String "034" EmptyString.
Definition tab : string := String "009" EmptyString.
Definition nl : string := String "010" EmptyString.

(** ["\t" * n] *)
Fixpoint tabs (n : nat) : string :=
  match n with
  | O => EmptyString
  | S k => tab ++ tabs k
  end.

(** [sep.join(parts)] *)
Fixpoint join (sep : string) (parts : list string) : string :=
  match parts with
  | [] => EmptyString
  | [p] => p
  | p :: rest => p ++ sep ++ join sep rest
  end.

(** [s[:n]] *)
Fixpoint take (n : nat) (s : string) : string :=
  match n, s with
  | S k, String c r => String c (take k r)
  | _, _ => EmptyString
  end.

(** [s[n:]] *)
Fixpoint drop (n : nat) (s : string) : string :=
  match n, s with
  | S k, String _ r => drop k r
  | _, _ => s
  end.

(** [s.endswith(suffix)] *)
Definition endswith (s suffix : string) : bool :=
  Nat.leb (String.length suffix) (String.length s)
  && String.eqb (drop (String.length s - String.length suffix) s) suffix.

(** [s.startswith(p)] *)
Definition startswith (s p : string) : bool := String.prefix p s.

(** [os.path.basename(path)] on POSIX: the text after the last slash. *)
Fixpoint basename_from (cur : string) (s : string) : string :=
  match s with
  | EmptyString => cur
  | String c r =>
      if Ascii.eqb c "/" then basename_from r r
      else basename_from cur r
  end.

Definition basename (path : string) : string := basename_from path path.

(** [c.upper()] for one character of an ASCII string. *)
Definition upper_char (c : ascii) : ascii :=
  let n := nat_of_ascii c in
  if Nat.leb 97 n && Nat.leb n 122 then ascii_of_nat (n - 32) else c.

(** [s.upper()] *)
Fixpoint upper (s : string) : string :=
  match s with
  | EmptyString => EmptyString
  | String c r => String (upper_char c) (upper r)
  end.

(** [str(n)] for a natural number. *)
Definition str_of_nat (n : nat) : string :=
  NilEmpty.string_of_uint (Nat.to_uint n).

(** [c * n] for a one-character string. *)
Fixpoint repeat_char (c : ascii) (n : nat) : string :=
  match n with
  | O => EmptyString
  | S k => String c (repeat_char c k)
  end.

(** ['%x' % n]: lower-case hexadecimal digits, no prefix. *)
Definition hex (n : N) : string :=
  match n with
  | N0 => "0"
  | Npos p => HexString.Raw.of_pos p EmptyString
  end.

(** ['%032x' % n]: [hex n] left-padded with zeros to at least [w] characters. *)
Definition hex_padded (w : nat) (n : N) : string :=
  let s := hex n in
  repeat_char "0" (w - String.length s) ++ s.

(** Every character of [s] satisfies [p]. *)
Fixpoint all_chars (p : ascii -> bool) (s : string) : bool :=
  match s with
  | EmptyString => true
  | String c r => p c && all_chars p r
  end.

Definition is_lower_hex (c : ascii) : bool :=
  let n := nat_of_ascii c in
  (Nat.leb 48 n && Nat.leb n 57) || (Nat.leb 97 n && Nat.leb n 102).

Definition is_upper_hex (c : ascii) : bool :=
  let n := nat_of_ascii c in
  (Nat.leb 48 n && Nat.leb n 57) || (Nat.leb 65 n && Nat.leb n 70).

End PyStr.

Import PyStr.

(* ------------------------------------------------------------------ *)
(** ** UUID helpers *)
(* ------------------------------------------------------------------ *)

(** [uuid.uuid4()]: the 128-bit integer read from [os.urandom(16)], with the
    variant bits set to RFC 4122 and the version nibble set to 4. *)
Definition uuid4_int (r : N) : N :=
  let i := N.ldiff r (N.shiftl 49152 48) in     (* int &= ~(0xc000 << 48) *)
  let i := N.lor i (N.shiftl 32768 48) in       (* int |= 0x8000 << 48    *)
  let i := N.ldiff i (N.shiftl 61440 64) in     (* int &= ~(0xf000 << 64) *)
  N.lor i (N.shiftl 4 76).                      (* int |= version << 76   *)

(** [UUID.hex]: ['%032x' % self.int] *)
Definition uuid_hex (i : N) : string := hex_padded 32 i.

(** [make_uuid()], as a function of the random integer drawn by [uuid4]:
    [uuid.uuid4().hex[:24].upper()] *)
Definition make_uuid (r : N) : string :=
  upper (take 24 (uuid_hex (uuid4_int r))).

Open Scope list_scope.

(* ------------------------------------------------------------------ *)
(** ** Exceptions and the result of fallible code *)
(* ------------------------------------------------------------------ *)

(** The exceptions a run can end on: a failed subscript [d[k]], and what
    the calls on the outside raise: [OSError] from the filesystem or a
    broken console, [UnicodeEncodeError] for a text the console or the file
    cannot encode, [ValueError] from a closed stream. *)
Inductive exn : Type :=
| KeyError (key : string)
| OSError (op path : string)
| UnicodeEncodeError (text : string)
| ValueError (message : string).

Inductive result (A : Type) : Type :=
| Ok (a : A)
| Raise (e : exn).

Arguments Ok {A} a.
Arguments Raise {A} e.

Definition rbind {A B : Type} (m : result A) (k : A -> result B) : result B :=
  match m with
  | Ok a => k a
  | Raise e => Raise e
  end.

Notation "'try' x := m 'in' k" := (rbind m (fun x => k))
  (at level 10, x name, m at level 100, k at level 200).

(** A [for] loop whose body appends lines and may raise: the first failing
    iteration aborts the loop. *)
Fixpoint for_each {A B : Type} (xs : list A) (body : A -> result (list B))
  : result (list B) :=
  match xs with
  | [] => Ok []
  | x :: rest =>
      try here := body x in
      try later := for_each rest body in
      Ok (here ++ later)
  end.

(* ------------------------------------------------------------------ *)
(** ** Python dictionaries with string keys *)
(* ------------------------------------------------------------------ *)

(** Insertion-ordered, as Python 3 dictionaries are: assigning to a key that
    is present replaces its value in place, a new key goes to the end. *)
Module Dict.

Definition t : Type := list (string * string).

Definition empty : t := [].

(** [d[k] = v] *)
Fixpoint set (d : t) (k v : string) : t :=
  match d with
  | [] => [(k, v)]
  | (k', v') :: rest =>
      if String.eqb k' k then (k', v) :: rest
      else (k', v') :: set rest k v
  end.

Fixpoint get (d : t) (k : string) : option string :=
  match d with
  | [] => None
  | (k', v') :: rest => if String.eqb k' k then Some v' else get rest k
  end.

(** [k in d] *)
Definition contains (d : t) (k : string) : bool :=
  match get d k with
  | Some _ => true
  | None => false
  end.

(** [d[k]] as an expression: raises [KeyError] when [k] is absent. *)
Definition lookup (d : t) (k : string) : result string :=
  match get d k with
  | Some v => Ok v
  | None => Raise (KeyError k)
  end.

(** [d.items()] *)
Definition items (d : t) : list (string * string) := d.

Definition keys (d : t) : list string := map fst d.

Definition values (d : t) : list string := map snd d.

End Dict.

(* ------------------------------------------------------------------ *)
(** ** Source file registry and project constants *)
(* ------------------------------------------------------------------ *)

(** The manifest as the script ships it. *)
Module Manifest.

Definition SOURCE_FILES : list string :=
  [ "EMCopilot/App/EMCopilotApp.swift";
    "EMCopilot/Models/DirectReport.swift";
    "EMCopilot/Models/GeneratedDocument.swift";
    "EMCopilot/Models/Program.swift";
    "EMCopilot/Models/OneOnOneSession.swift";
    "EMCopilot/Services/ClaudeService.swift";
    "EMCopilot/Services/Prompts.swift";
    "EMCopilot/Views/ContentView.swift";
    "EMCopilot/Views/Shared/MarkdownContentView.swift";
    "EMCopilot/Views/Onboarding/OnboardingView.swift";
    "EMCopilot/Views/Home/HomeView.swift";
    "EMCopilot/Views/DirectReports/DirectReportsView.swift";
    "EMCopilot/Views/DirectReports/AddDirectReportView.swift";
    "EMCopilot/Views/Generator/DocumentGeneratorView.swift";
    "EMCopilot/Views/Generator/GeneratedDocumentOutputView.swift";
    "EMCopilot/Views/Programs/ProgramManagerView.swift";
    "EMCopilot/Views/OneOnOne/OneOnOneHubView.swift";
    "EMCopilot/Views/OneOnOne/OneOnOneSessionView.swift";
    "EMCopilot/Views/OneOnOne/AddArtifactView.swift";
    "EMCopilot/Views/Settings/SettingsView.swift" ]%string.

Definition RESOURCE_FILES : list string :=
  [ "EMCopilot/Resources/Assets.xcassets" ]%string.

End Manifest.

Definition APP_NAME : string := "EMCopilot".
Definition BUNDLE_ID_BASE : string := "com.yourname.emcopilot".
Definition MACOS_DEPLOY : string := "14.0".
Definition IOS_DEPLOY : string := "17.0".
Definition SWIFT_VERSION : string := "5.10".
Definition ASSETS_XCASSETS : string := "EMCopilot/Resources/Assets.xcassets".

(** The module-level names [pbxproj] and [main] read: the manifest, the
    sixteen structural identifiers and the two per-file dictionaries. *)
Record Globals : Type := {
  SOURCE_FILES : list string;
  RESOURCE_FILES : list string;
  PROJECT_UUID : string;
  MAIN_GROUP_UUID : string;
  PRODUCTS_GROUP_UUID : string;
  TARGET_UUID : string;
  PRODUCT_REF_UUID : string;
  SOURCES_PHASE_UUID : string;
  RESOURCES_PHASE_UUID : string;
  FRAMEWORKS_PHASE_UUID : string;
  DEBUG_CONFIG_UUID : string;
  RELEASE_CONFIG_UUID : string;
  TARGET_DEBUG_CFG_UUID : string;
  TARGET_RELEASE_CFG_UUID : string;
  PROJECT_CFGLIST_UUID : string;
  TARGET_CFGLIST_UUID : string;
  SWIFTDATA_FW_REF_UUID : string;
  SWIFTDATA_BUILD_UUID : string;
  file_refs : Dict.t;     (* path -> fileRef UUID *)
  build_files : Dict.t    (* path -> buildFile UUID *)
}.

(** The identifiers of the fixed structural objects, in allocation order. *)
Definition structural_ids (g : Globals) : list string :=
  [ PROJECT_UUID g; MAIN_GROUP_UUID g; PRODUCTS_GROUP_UUID g; TARGET_UUID g;
    PRODUCT_REF_UUID g; SOURCES_PHASE_UUID g; RESOURCES_PHASE_UUID g;
    FRAMEWORKS_PHASE_UUID g; DEBUG_CONFIG_UUID g; RELEASE_CONFIG_UUID g;
    TARGET_DEBUG_CFG_UUID g; TARGET_RELEASE_CFG_UUID g;
    PROJECT_CFGLIST_UUID g; TARGET_CFGLIST_UUID g;
    SWIFTDATA_FW_REF_UUID g; SWIFTDATA_BUILD_UUID g ].

(** *** Module initialisation (lines 77-105)

    [rnd k] is the integer behind the [k]-th call of [make_uuid], counted
    from zero in program order. *)
Section ModuleInit.

Variable rnd : nat -> N.

Definition uuid_at (k : nat) : string := make_uuid (rnd k).

(** One of the two loops of lines 100-105, started with [k] identifiers
    already drawn:
    [for f in paths: file_refs[f] = make_uuid(); build_files[f] = make_uuid()] *)
Fixpoint assign_ids (paths : list string) (fr bf : Dict.t) (k : nat)
  : Dict.t * Dict.t * nat :=
  match paths with
  | [] => (fr, bf, k)
  | f :: rest =>
      assign_ids rest (Dict.set fr f (uuid_at k))
                      (Dict.set bf f (uuid_at (S k))) (S (S k))
  end.

Definition module_init (sources resources : list string) : Globals :=
  let '(fr, bf, k) := assign_ids sources Dict.empty Dict.empty 16 in
  let '(fr, bf, _) := assign_ids resources fr bf k in
  {| SOURCE_FILES := sources;
     RESOURCE_FILES := resources;
     PROJECT_UUID := uuid_at 0;
     MAIN_GROUP_UUID := uuid_at 1;
     PRODUCTS_GROUP_UUID := uuid_at 2;
     TARGET_UUID := uuid_at 3;
     PRODUCT_REF_UUID := uuid_at 4;
     SOURCES_PHASE_UUID := uuid_at 5;
     RESOURCES_PHASE_UUID := uuid_at 6;
     FRAMEWORKS_PHASE_UUID := uuid_at 7;
     DEBUG_CONFIG_UUID := uuid_at 8;
     RELEASE_CONFIG_UUID := uuid_at 9;
     TARGET_DEBUG_CFG_UUID := uuid_at 10;
     TARGET_RELEASE_CFG_UUID := uuid_at 11;
     PROJECT_CFGLIST_UUID := uuid_at 12;
     TARGET_CFGLIST_UUID := uuid_at 13;
     SWIFTDATA_FW_REF_UUID := uuid_at 14;
     SWIFTDATA_BUILD_UUID := uuid_at 15;
     file_refs := fr;
     build_files := bf |}.

(** How many identifiers a run draws for a manifest. *)
Definition ids_drawn (sources resources : list string) : nat :=
  16 + 2 * (List.length sources + List.length resources).

End ModuleInit.

(* ------------------------------------------------------------------ *)
(** ** The descriptor text *)
(* ------------------------------------------------------------------ *)

(** A rendered line is kept as the pieces of its f-string: literal text and
    interpolated identifiers.  An identifier at the head of an object
    ([\t\t<id> ... = {]) is a defining occurrence, any other is a
    cross-reference.  Concatenating the pieces gives the line of the script. *)
Inductive piece : Type :=
| Lit (text : string)
| DefId (uid : string)
| RefId (uid : string).

Definition line : Type := list piece.

Definition render_piece (p : piece) : string :=
  match p with
  | Lit s => s
  | DefId u => u
  | RefId u => u
  end.

Definition render_line (l : line) : string :=
  fold_right (fun p acc => (render_piece p ++ acc)%string) EmptyString l.

(** Lines 118-125: the fixed preamble. *)
Definition pbx_header : list line :=
  [ [Lit "// !$*UTF8*$!"];
    [Lit "{"];
    [Lit (tab ++ "archiveVersion = 1;")];
    [Lit (tab ++ "classes = {")];
    [Lit (tab ++ "};")];
    [Lit (tab ++ "objectVersion = 77;")];
    [Lit (tab ++ "objects = {")];
    [Lit EmptyString] ].

(** [# --- PBXBuildFile ---] (lines 127-133).  The loop reads
    [file_refs[path]] for every key of [build_files]. *)
Definition pbx_build_file_line (name uid fref : string) : line :=
  [Lit (tabs 2); DefId uid; Lit (" /* " ++ name ++ " in Sources */ = {isa = PBXBuildFile; fileRef = "); RefId fref; Lit (" /* " ++ name ++ " */; };")].

Definition pbx_PBXBuildFile (g : Globals) : result (list line) :=
  try entries := for_each (Dict.items (build_files g)) (fun '(path, uid) =>
      let name := basename path in
      try fref := Dict.lookup (file_refs g) path in
      Ok [ pbx_build_file_line name uid fref ]) in
  Ok ([ [Lit (nl ++ "/* Begin PBXBuildFile section */")] ]
      ++ entries
      ++ [ [Lit (tabs 2); DefId (SWIFTDATA_BUILD_UUID g); Lit " /* SwiftData.framework in Frameworks */ = {isa = PBXBuildFile; fileRef = "; RefId (SWIFTDATA_FW_REF_UUID g); Lit " /* SwiftData.framework */; };"];
        [Lit "/* End PBXBuildFile section */"] ]).

(** [# --- PBXFileReference ---] (lines 135-145).  The loop body is an
    [if]/[elif] on the extension with no [else] branch. *)
Definition pbx_file_reference (path uid : string) : list line :=
  let name := basename path in
  if endswith path ".swift" then
    [ [Lit (tabs 2); DefId uid; Lit (" /* " ++ name ++ " */ = {isa = PBXFileReference; lastKnownFileType = sourcecode.swift; name = " ++ name ++ "; path = " ++ path ++ "; sourceTree = " ++ q ++ "<group>" ++ q ++ "; };")] ]
  else if endswith path ".xcassets" then
    [ [Lit (tabs 2); DefId uid; Lit (" /* " ++ name ++ " */ = {isa = PBXFileReference; lastKnownFileType = folder.assetcatalog; name = " ++ name ++ "; path = " ++ path ++ "; sourceTree = " ++ q ++ "<group>" ++ q ++ "; };")] ]
  else [].

Definition pbx_PBXFileReference (g : Globals) : list line :=
  [ [Lit (nl ++ "/* Begin PBXFileReference section */")] ]
  ++ flat_map (fun '(path, uid) => pbx_file_reference path uid) (Dict.items (file_refs g))
  ++ [ [Lit (tabs 2); DefId (PRODUCT_REF_UUID g); Lit (" /* " ++ APP_NAME ++ ".app */ = {isa = PBXFileReference; explicitFileType = wrapper.application; includeInIndex = 0; path = " ++ APP_NAME ++ ".app; sourceTree = BUILT_PRODUCTS_DIR; };")];
    [Lit (tabs 2); DefId (SWIFTDATA_FW_REF_UUID g); Lit " /* SwiftData.framework */ = {isa = PBXFileReference; lastKnownFileType = wrapper.framework; name = SwiftData.framework; path = System/Library/Frameworks/SwiftData.framework; sourceTree = SDKROOT; };"];
    [Lit "/* End PBXFileReference section */"] ].

(** [# --- PBXFrameworksBuildPhase ---] (lines 147-157). *)
Definition pbx_PBXFrameworksBuildPhase (g : Globals) : list line :=
  [ [Lit (nl ++ "/* Begin PBXFrameworksBuildPhase section */")];
    [Lit (tabs 2); DefId (FRAMEWORKS_PHASE_UUID g); Lit " /* Frameworks */ = {"];
    [Lit (tabs 3 ++ "isa = PBXFrameworksBuildPhase;")];
    [Lit (tabs 3 ++ "buildActionMask = 2147483647;")];
    [Lit (tabs 3 ++ "files = (")];
    [Lit (tabs 4); RefId (SWIFTDATA_BUILD_UUID g); Lit " /* SwiftData.framework in Frameworks */,"];
    [Lit (tabs 3 ++ ");")];
    [Lit (tabs 3 ++ "runOnlyForDeploymentPostprocessing = 0;")];
    [Lit (tabs 2 ++ "};")];
    [Lit "/* End PBXFrameworksBuildPhase section */"] ].

(** [# --- PBXGroup ---] (lines 159-184): the main group, whose children are
    every key of [file_refs], the Products group and the framework; then the
    Products group. *)
Definition pbx_group_child_line (name uid : string) : line :=
  [Lit (tabs 4); RefId uid; Lit (" /* " ++ name ++ " */,")].

Definition pbx_PBXGroup (g : Globals) : list line :=
  [ [Lit (nl ++ "/* Begin PBXGroup section */")];
    [Lit (tabs 2); DefId (MAIN_GROUP_UUID g); Lit " = {"];
    [Lit (tabs 3 ++ "isa = PBXGroup;")];
    [Lit (tabs 3 ++ "children = (")] ]
  ++ map (fun '(path, uid) =>
        let name := basename path in
        pbx_group_child_line name uid) (Dict.items (file_refs g))
  ++ [ [Lit (tabs 4); RefId (PRODUCTS_GROUP_UUID g); Lit " /* Products */,"];
    [Lit (tabs 4); RefId (SWIFTDATA_FW_REF_UUID g); Lit " /* SwiftData.framework */,"];
    [Lit (tabs 3 ++ ");")];
    [Lit (tabs 3 ++ "sourceTree = " ++ q ++ "<group>" ++ q ++ ";")];
    [Lit (tabs 2 ++ "};")];
    [Lit (tabs 2); DefId (PRODUCTS_GROUP_UUID g); Lit " /* Products */ = {"];
    [Lit (tabs 3 ++ "isa = PBXGroup;")];
    [Lit (tabs 3 ++ "children = (")];
    [Lit (tabs 4); RefId (PRODUCT_REF_UUID g); Lit (" /* " ++ APP_NAME ++ ".app */,")];
    [Lit (tabs 3 ++ ");")];
    [Lit (tabs 3 ++ "name = Products;")];
    [Lit (tabs 3 ++ "sourceTree = " ++ q ++ "<group>" ++ q ++ ";")];
    [Lit (tabs 2 ++ "};")];
    [Lit "/* End PBXGroup section */"] ].

(** [# --- PBXNativeTarget ---] (lines 186-207). *)
Definition pbx_PBXNativeTarget (g : Globals) : list line :=
  [ [Lit (nl ++ "/* Begin PBXNativeTarget section */")];
    [Lit (tabs 2); DefId (TARGET_UUID g); Lit (" /* " ++ APP_NAME ++ " */ = {")];
    [Lit (tabs 3 ++ "isa = PBXNativeTarget;")];
    [Lit (tabs 3 ++ "buildConfigurationList = "); RefId (TARGET_CFGLIST_UUID g); Lit (" /* Build configuration list for PBXNativeTarget " ++ q ++ APP_NAME ++ q ++ " */;")];
    [Lit (tabs 3 ++ "buildPhases = (")];
    [Lit (tabs 4); RefId (SOURCES_PHASE_UUID g); Lit " /* Sources */,"];
    [Lit (tabs 4); RefId (RESOURCES_PHASE_UUID g); Lit " /* Resources */,"];
    [Lit (tabs 4); RefId (FRAMEWORKS_PHASE_UUID g); Lit " /* Frameworks */,"];
    [Lit (tabs 3 ++ ");")];
    [Lit (tabs 3 ++ "buildRules = (")];
    [Lit (tabs 3 ++ ");")];
    [Lit (tabs 3 ++ "dependencies = (")];
    [Lit (tabs 3 ++ ");")];
    [Lit (tabs 3 ++ "name = " ++ APP_NAME ++ ";")];
    [Lit (tabs 3 ++ "packageProductDependencies = (")];
    [Lit (tabs 3 ++ ");")];
    [Lit (tabs 3 ++ "productName = " ++ APP_NAME ++ ";")];
    [Lit (tabs 3 ++ "productReference = "); RefId (PRODUCT_REF_UUID g); Lit (" /* " ++ APP_NAME ++ ".app */;")];
    [Lit (tabs 3 ++ "productType = " ++ q ++ "com.apple.product-type.application" ++ q ++ ";")];
    [Lit (tabs 2 ++ "};")];
    [Lit "/* End PBXNativeTarget section */"] ].

(** [# --- PBXProject ---] (lines 209-239). *)
Definition pbx_PBXProject (g : Globals) : list line :=
  [ [Lit (nl ++ "/* Begin PBXProject section */")];
    [Lit (tabs 2); DefId (PROJECT_UUID g); Lit " /* Project object */ = {"];
    [Lit (tabs 3 ++ "isa = PBXProject;")];
    [Lit (tabs 3 ++ "attributes = {")];
    [Lit (tabs 4 ++ "BuildIndependentTargetsInParallel = 1;")];
    [Lit (tabs 4 ++ "LastSwiftUpdateCheck = 1500;")];
    [Lit (tabs 4 ++ "LastUpgradeCheck = 1500;")];
    [Lit (tabs 4 ++ "TargetAttributes = {")];
    [Lit (tabs 5); RefId (TARGET_UUID g); Lit " = {"];
    [Lit (tabs 6 ++ "CreatedOnToolsVersion = 15.0;")];
    [Lit (tabs 5 ++ "};")];
    [Lit (tabs 4 ++ "};")];
    [Lit (tabs 3 ++ "};")];
    [Lit (tabs 3 ++ "buildConfigurationList = "); RefId (PROJECT_CFGLIST_UUID g); Lit (" /* Build configuration list for PBXProject " ++ q ++ APP_NAME ++ q ++ " */;")];
    [Lit (tabs 3 ++ "compatibilityVersion = " ++ q ++ "Xcode 15.0" ++ q ++ ";")];
    [Lit (tabs 3 ++ "developmentRegion = en;")];
    [Lit (tabs 3 ++ "hasScannedForEncodings = 0;")];
    [Lit (tabs 3 ++ "knownRegions = (")];
    [Lit (tabs 4 ++ "en,")];
    [Lit (tabs 4 ++ "Base,")];
    [Lit (tabs 3 ++ ");")];
    [Lit (tabs 3 ++ "mainGroup = "); RefId (MAIN_GROUP_UUID g); Lit ";"];
    [Lit (tabs 3 ++ "productRefGroup = "); RefId (PRODUCTS_GROUP_UUID g); Lit " /* Products */;"];
    [Lit (tabs 3 ++ "projectDirPath = " ++ q ++ q ++ ";")];
    [Lit (tabs 3 ++ "projectRoot = " ++ q ++ q ++ ";")];
    [Lit (tabs 3 ++ "targets = (")];
    [Lit (tabs 4); RefId (TARGET_UUID g); Lit (" /* " ++ APP_NAME ++ " */,")];
    [Lit (tabs 3 ++ ");")];
    [Lit (tabs 2 ++ "};")];
    [Lit "/* End PBXProject section */"] ].

(** [# --- PBXResourcesBuildPhase ---] (lines 241-254).  Only the fixed path
    [ASSETS_XCASSETS] is consulted, guarded by [in build_files]. *)
Definition pbx_resource_entry_line (name uid : string) : line :=
  [Lit (tabs 4); RefId uid; Lit (" /* " ++ name ++ " in Resources */,")].

Definition pbx_PBXResourcesBuildPhase (g : Globals) : result (list line) :=
  try assets :=
    (if Dict.contains (build_files g) ASSETS_XCASSETS then
       let name := basename ASSETS_XCASSETS in
       try uid := Dict.lookup (build_files g) ASSETS_XCASSETS in
       Ok [ pbx_resource_entry_line name uid ]
     else Ok []) in
  Ok ([ [Lit (nl ++ "/* Begin PBXResourcesBuildPhase section */")];
        [Lit (tabs 2); DefId (RESOURCES_PHASE_UUID g); Lit " /* Resources */ = {"];
        [Lit (tabs 3 ++ "isa = PBXResourcesBuildPhase;")];
        [Lit (tabs 3 ++ "buildActionMask = 2147483647;")];
        [Lit (tabs 3 ++ "files = (")] ]
      ++ assets
      ++ [ [Lit (tabs 3 ++ ");")];
        [Lit (tabs 3 ++ "runOnlyForDeploymentPostprocessing = 0;")];
        [Lit (tabs 2 ++ "};")];
        [Lit "/* End PBXResourcesBuildPhase section */"] ]).

(** [# --- PBXSourcesBuildPhase ---] (lines 256-268).  The loop runs over
    [SOURCE_FILES] and reads [build_files[path]]. *)
Definition pbx_source_entry_line (name uid : string) : line :=
  [Lit (tabs 4); RefId uid; Lit (" /* " ++ name ++ " in Sources */,")].

Definition pbx_PBXSourcesBuildPhase (g : Globals) : result (list line) :=
  try entries := for_each (SOURCE_FILES g) (fun path =>
      let name := basename path in
      try uid := Dict.lookup (build_files g) path in
      Ok [ pbx_source_entry_line name uid ]) in
  Ok ([ [Lit (nl ++ "/* Begin PBXSourcesBuildPhase section */")];
        [Lit (tabs 2); DefId (SOURCES_PHASE_UUID g); Lit " /* Sources */ = {"];
        [Lit (tabs 3 ++ "isa = PBXSourcesBuildPhase;")];
        [Lit (tabs 3 ++ "buildActionMask = 2147483647;")];
        [Lit (tabs 3 ++ "files = (")] ]
      ++ entries
      ++ [ [Lit (tabs 3 ++ ");")];
        [Lit (tabs 3 ++ "runOnlyForDeploymentPostprocessing = 0;")];
        [Lit (tabs 2 ++ "};")];
        [Lit "/* End PBXSourcesBuildPhase section */"] ]).

(** [# --- XCBuildConfiguration ---] (lines 270-367): project Debug, project
    Release, target Debug, target Release. *)
Definition pbx_XCBuildConfiguration (g : Globals) : list line :=
  [ [Lit (nl ++ "/* Begin XCBuildConfiguration section */")];
    [Lit (tabs 2); DefId (DEBUG_CONFIG_UUID g); Lit " /* Debug */ = {"];
    [Lit (tabs 3 ++ "isa = XCBuildConfiguration;")];
    [Lit (tabs 3 ++ "buildSettings = {")];
    [Lit (tabs 4 ++ "ALWAYS_SEARCH_USER_PATHS = NO;")];
    [Lit (tabs 4 ++ "CLANG_ENABLE_MODULES = YES;")];
    [Lit (tabs 4 ++ "COPY_PHASE_STRIP = NO;")];
    [Lit (tabs 4 ++ "DEBUG_INFORMATION_FORMAT = dwarf;")];
    [Lit (tabs 4 ++ "ENABLE_STRICT_OBJC_MSGSEND = YES;")];
    [Lit (tabs 4 ++ "ENABLE_TESTABILITY = YES;")];
    [Lit (tabs 4 ++ "GCC_C_LANGUAGE_STANDARD = gnu17;")];
    [Lit (tabs 4 ++ "GCC_DYNAMIC_NO_PIC = NO;")];
    [Lit (tabs 4 ++ "GCC_OPTIMIZATION_LEVEL = 0;")];
    [Lit (tabs 4 ++ "GCC_PREPROCESSOR_DEFINITIONS = (" ++ q ++ "DEBUG=1" ++ q ++ ", " ++ q ++ "$(inherited)" ++ q ++ ");")];
    [Lit (tabs 4 ++ "MTL_ENABLE_DEBUG_INFO = INCLUDE_SOURCE;")];
    [Lit (tabs 4 ++ "MTL_FAST_MATH = YES;")];
    [Lit (tabs 4 ++ "ONLY_ACTIVE_ARCH = YES;")];
    [Lit (tabs 4 ++ "SWIFT_ACTIVE_COMPILATION_CONDITIONS = DEBUG;")];
    [Lit (tabs 4 ++ "SWIFT_OPTIMIZATION_LEVEL = " ++ q ++ "-Onone" ++ q ++ ";")];
    [Lit (tabs 3 ++ "};")];
    [Lit (tabs 3 ++ "name = Debug;")];
    [Lit (tabs 2 ++ "};")];
    [Lit (tabs 2); DefId (RELEASE_CONFIG_UUID g); Lit " /* Release */ = {"];
    [Lit (tabs 3 ++ "isa = XCBuildConfiguration;")];
    [Lit (tabs 3 ++ "buildSettings = {")];
    [Lit (tabs 4 ++ "ALWAYS_SEARCH_USER_PATHS = NO;")];
    [Lit (tabs 4 ++ "CLANG_ENABLE_MODULES = YES;")];
    [Lit (tabs 4 ++ "COPY_PHASE_STRIP = NO;")];
    [Lit (tabs 4 ++ "DEBUG_INFORMATION_FORMAT = " ++ q ++ "dwarf-with-dsym" ++ q ++ ";")];
    [Lit (tabs 4 ++ "ENABLE_NS_ASSERTIONS = NO;")];
    [Lit (tabs 4 ++ "ENABLE_STRICT_OBJC_MSGSEND = YES;")];
    [Lit (tabs 4 ++ "GCC_C_LANGUAGE_STANDARD = gnu17;")];
    [Lit (tabs 4 ++ "MTL_ENABLE_DEBUG_INFO = NO;")];
    [Lit (tabs 4 ++ "MTL_FAST_MATH = YES;")];
    [Lit (tabs 4 ++ "SWIFT_COMPILATION_MODE = wholemodule;")];
    [Lit (tabs 4 ++ "SWIFT_OPTIMIZATION_LEVEL = " ++ q ++ "-O" ++ q ++ ";")];
    [Lit (tabs 3 ++ "};")];
    [Lit (tabs 3 ++ "name = Release;")];
    [Lit (tabs 2 ++ "};")];
    [Lit (tabs 2); DefId (TARGET_DEBUG_CFG_UUID g); Lit " /* Debug */ = {"];
    [Lit (tabs 3 ++ "isa = XCBuildConfiguration;")];
    [Lit (tabs 3 ++ "buildSettings = {")];
    [Lit (tabs 4 ++ "ASSETCATALOG_COMPILER_APPICON_NAME = AppIcon;")];
    [Lit (tabs 4 ++ "ASSETCATALOG_COMPILER_GLOBAL_ACCENT_COLOR_NAME = AccentColor;")];
    [Lit (tabs 4 ++ "COMBINE_HIDPI_IMAGES = YES;")];
    [Lit (tabs 4 ++ "CURRENT_PROJECT_VERSION = 1;")];
    [Lit (tabs 4 ++ "GENERATE_INFOPLIST_FILE = YES;")];
    [Lit (tabs 4 ++ "INFOPLIST_KEY_LSApplicationCategoryType = " ++ q ++ "public.app-category.productivity" ++ q ++ ";")];
    [Lit (tabs 4 ++ "INFOPLIST_KEY_NSHumanReadableCopyright = " ++ q ++ q ++ ";")];
    [Lit (tabs 4 ++ "INFOPLIST_KEY_NSPrincipalClass = NSApplication;")];
    [Lit (tabs 4 ++ "MARKETING_VERSION = 1.0;")];
    [Lit (tabs 4 ++ "MACOS_DEPLOYMENT_TARGET = " ++ MACOS_DEPLOY ++ ";")];
    [Lit (tabs 4 ++ "IPHONEOS_DEPLOYMENT_TARGET = " ++ IOS_DEPLOY ++ ";")];
    [Lit (tabs 4 ++ "PRODUCT_BUNDLE_IDENTIFIER = " ++ q ++ BUNDLE_ID_BASE ++ q ++ ";")];
    [Lit (tabs 4 ++ "PRODUCT_NAME = " ++ q ++ "$(TARGET_NAME)" ++ q ++ ";")];
    [Lit (tabs 4 ++ "SDKROOT = auto;")];
    [Lit (tabs 4 ++ "SUPPORTED_PLATFORMS = " ++ q ++ "macosx iphoneos iphonesimulator" ++ q ++ ";")];
    [Lit (tabs 4 ++ "SWIFT_EMIT_LOC_STRINGS = YES;")];
    [Lit (tabs 4 ++ "SWIFT_VERSION = " ++ SWIFT_VERSION ++ ";")];
    [Lit (tabs 4 ++ "TARGETED_DEVICE_FAMILY = " ++ q ++ "1,2" ++ q ++ ";")];
    [Lit (tabs 3 ++ "};")];
    [Lit (tabs 3 ++ "name = Debug;")];
    [Lit (tabs 2 ++ "};")];
    [Lit (tabs 2); DefId (TARGET_RELEASE_CFG_UUID g); Lit " /* Release */ = {"];
    [Lit (tabs 3 ++ "isa = XCBuildConfiguration;")];
    [Lit (tabs 3 ++ "buildSettings = {")];
    [Lit (tabs 4 ++ "ASSETCATALOG_COMPILER_APPICON_NAME = AppIcon;")];
    [Lit (tabs 4 ++ "ASSETCATALOG_COMPILER_GLOBAL_ACCENT_COLOR_NAME = AccentColor;")];
    [Lit (tabs 4 ++ "COMBINE_HIDPI_IMAGES = YES;")];
    [Lit (tabs 4 ++ "CURRENT_PROJECT_VERSION = 1;")];
    [Lit (tabs 4 ++ "GENERATE_INFOPLIST_FILE = YES;")];
    [Lit (tabs 4 ++ "INFOPLIST_KEY_LSApplicationCategoryType = " ++ q ++ "public.app-category.productivity" ++ q ++ ";")];
    [Lit (tabs 4 ++ "INFOPLIST_KEY_NSHumanReadableCopyright = " ++ q ++ q ++ ";")];
    [Lit (tabs 4 ++ "INFOPLIST_KEY_NSPrincipalClass = NSApplication;")];
    [Lit (tabs 4 ++ "MARKETING_VERSION = 1.0;")];
    [Lit (tabs 4 ++ "MACOS_DEPLOYMENT_TARGET = " ++ MACOS_DEPLOY ++ ";")];
    [Lit (tabs 4 ++ "IPHONEOS_DEPLOYMENT_TARGET = " ++ IOS_DEPLOY ++ ";")];
    [Lit (tabs 4 ++ "PRODUCT_BUNDLE_IDENTIFIER = " ++ q ++ BUNDLE_ID_BASE ++ q ++ ";")];
    [Lit (tabs 4 ++ "PRODUCT_NAME = " ++ q ++ "$(TARGET_NAME)" ++ q ++ ";")];
    [Lit (tabs 4 ++ "SDKROOT = auto;")];
    [Lit (tabs 4 ++ "SUPPORTED_PLATFORMS = " ++ q ++ "macosx iphoneos iphonesimulator" ++ q ++ ";")];
    [Lit (tabs 4 ++ "SWIFT_EMIT_LOC_STRINGS = YES;")];
    [Lit (tabs 4 ++ "SWIFT_VERSION = " ++ SWIFT_VERSION ++ ";")];
    [Lit (tabs 4 ++ "TARGETED_DEVICE_FAMILY = " ++ q ++ "1,2" ++ q ++ ";")];
    [Lit (tabs 3 ++ "};")];
    [Lit (tabs 3 ++ "name = Release;")];
    [Lit (tabs 2 ++ "};")];
    [Lit "/* End XCBuildConfiguration section */"] ].

(** [# --- XCConfigurationList ---] (lines 369-389). *)
Definition pbx_XCConfigurationList (g : Globals) : list line :=
  [ [Lit (nl ++ "/* Begin XCConfigurationList section */")];
    [Lit (tabs 2); DefId (PROJECT_CFGLIST_UUID g); Lit (" /* Build configuration list for PBXProject " ++ q ++ APP_NAME ++ q ++ " */ = {")];
    [Lit (tabs 3 ++ "isa = XCConfigurationList;")];
    [Lit (tabs 3 ++ "buildConfigurations = (")];
    [Lit (tabs 4); RefId (DEBUG_CONFIG_UUID g); Lit " /* Debug */,"];
    [Lit (tabs 4); RefId (RELEASE_CONFIG_UUID g); Lit " /* Release */,"];
    [Lit (tabs 3 ++ ");")];
    [Lit (tabs 3 ++ "defaultConfigurationIsVisible = 0;")];
    [Lit (tabs 3 ++ "defaultConfigurationName = Release;")];
    [Lit (tabs 2 ++ "};")];
    [Lit (tabs 2); DefId (TARGET_CFGLIST_UUID g); Lit (" /* Build configuration list for PBXNativeTarget " ++ q ++ APP_NAME ++ q ++ " */ = {")];
    [Lit (tabs 3 ++ "isa = XCConfigurationList;")];
    [Lit (tabs 3 ++ "buildConfigurations = (")];
    [Lit (tabs 4); RefId (TARGET_DEBUG_CFG_UUID g); Lit " /* Debug */,"];
    [Lit (tabs 4); RefId (TARGET_RELEASE_CFG_UUID g); Lit " /* Release */,"];
    [Lit (tabs 3 ++ ");")];
    [Lit (tabs 3 ++ "defaultConfigurationIsVisible = 0;")];
    [Lit (tabs 3 ++ "defaultConfigurationName = Release;")];
    [Lit (tabs 2 ++ "};")];
    [Lit "/* End XCConfigurationList section */"] ].

(** Lines 391-393: the closing of [objects] and the root object. *)
Definition pbx_footer (g : Globals) : list line :=
  [ [Lit (tab ++ "};")];
    [Lit (tab ++ "rootObject = "); RefId (PROJECT_UUID g); Lit " /* Project object */;"];
    [Lit "}"] ].

(** [pbxproj()] (lines 116-395): the chunks in the order the function
    appends them.  The three chunks that subscript a dictionary are
    evaluated in program order, so the first failing subscript is the one
    that propagates. *)
Definition pbxproj_lines (g : Globals) : result (list line) :=
  try build_file_section := pbx_PBXBuildFile g in
  try resources_phase := pbx_PBXResourcesBuildPhase g in
  try sources_phase := pbx_PBXSourcesBuildPhase g in
  Ok (pbx_header
      ++ build_file_section
      ++ pbx_PBXFileReference g
      ++ pbx_PBXFrameworksBuildPhase g
      ++ pbx_PBXGroup g
      ++ pbx_PBXNativeTarget g
      ++ pbx_PBXProject g
      ++ resources_phase
      ++ sources_phase
      ++ pbx_XCBuildConfiguration g
      ++ pbx_XCConfigurationList g
      ++ pbx_footer g).

(** [return "\n".join(lines)] *)
Definition pbxproj (g : Globals) : result string :=
  try lines := pbxproj_lines g in
  Ok (join nl (map render_line lines)).

(* ------------------------------------------------------------------ *)
(** ** Reading a descriptor back: identifiers, sections, objects *)
(* ------------------------------------------------------------------ *)

Definition line_defs (l : line) : list string :=
  flat_map (fun p => match p with DefId u => [u] | _ => [] end) l.

Definition line_refs (l : line) : list string :=
  flat_map (fun p => match p with RefId u => [u] | _ => [] end) l.

(** Identifiers with an object of their own, in text order. *)
Definition defined_ids (ls : list line) : list string := flat_map line_defs ls.

(** Identifiers used as cross-references, in text order. *)
Definition referenced_ids (ls : list line) : list string := flat_map line_refs ls.

(** How many objects a descriptor defines under identifier [id]. *)
Definition definitions_of (id : string) (ls : list line) : nat :=
  count_occ string_dec (defined_ids ls) id.


(** The name in a [/* Begin <name> section */] line (which the script writes
    with a leading newline), if the line is one. *)
Definition begin_marker (l : line) : option string :=
  match l with
  | [Lit s] =>
      if startswith s (nl ++ "/* Begin ") && endswith s " section */"
      then Some (take (String.length s - 21) (drop 10 s))
      else None
  | _ => None
  end.

(** The name in a [/* End <name> section */] line, if the line is one. *)
Definition end_marker (l : line) : option string :=
  match l with
  | [Lit s] =>
      if startswith s "/* End " && endswith s " section */"
      then Some (take (String.length s - 18) (drop 7 s))
      else None
  | _ => None
  end.

(** Split a descriptor into its sections, in text order: each is the name of
    a [Begin] marker and the lines up to the [End] marker of the same name.
    [cur] is the section being read, its lines in reverse. *)
Fixpoint sections_from (cur : option (string * list line)) (ls : list line)
  : list (string * list line) :=
  match ls with
  | [] => []
  | l :: rest =>
      match cur with
      | None =>
          match begin_marker l with
          | Some name => sections_from (Some (name, [])) rest
          | None => sections_from None rest
          end
      | Some (name, acc) =>
          match end_marker l with
          | Some name' =>
              if String.eqb name' name
              then (name, rev acc) :: sections_from None rest
              else sections_from (Some (name, l :: acc)) rest
          | None => sections_from (Some (name, l :: acc)) rest
          end
      end
  end.

Definition sections (ls : list line) : list (string * list line) :=
  sections_from None ls.

Definition section_names (ls : list line) : list string :=
  map fst (sections ls).

(** The lines of the first section called [name] (none if there is none). *)
Definition section (name : string) (ls : list line) : list line :=
  match find (fun s => String.eqb (fst s) name) (sections ls) with
  | Some s => snd s
  | None => []
  end.

(** The objects of a run of lines: each defining occurrence opens an object,
    which collects the cross-references up to the next defining occurrence. *)
Fixpoint objects_from (cur : option (string * list string)) (ls : list line)
  : list (string * list string) :=
  let flush := match cur with Some o => [o] | None => [] end in
  match ls with
  | [] => flush
  | l :: rest =>
      match line_defs l with
      | d :: _ => flush ++ objects_from (Some (d, line_refs l)) rest
      | [] =>
          objects_from
            (match cur with
             | Some (d, refs) => Some (d, refs ++ line_refs l)
             | None => None
             end) rest
      end
  end.

Definition objects (ls : list line) : list (string * list string) :=
  objects_from None ls.

(** The lines of a run that carry a defining occurrence, as text. *)
Definition object_heads (ls : list line) : list string :=
  map render_line (filter (fun l => negb (Nat.eqb (List.length (line_defs l)) 0)) ls).

(** [path] has one of the two extensions the file-reference loop knows. *)
Definition recognised (path : string) : bool :=
  endswith path ".swift" || endswith path ".xcassets".


(* ------------------------------------------------------------------ *)
(** ** JSON written by [json.dump(obj, f, indent=2)] *)
(* ------------------------------------------------------------------ *)

#[local] Unset Elimination Schemes.
Inductive json : Type :=
| JString (s : string)
| JNumber (n : nat)
| JArray (items : list json)
| JObject (members : list (string * json)).
#[local] Set Elimination Schemes.

Definition spaces (n : nat) : string := repeat_char " " n.

(** The encoder at nesting depth [level]; the strings of this script need no
    escaping. *)
Fixpoint json_encode (level : nat) (j : json) : string :=
  let inner := (nl ++ spaces (2 * S level))%string in
  let outer := (nl ++ spaces (2 * level))%string in
  match j with
  | JString s => (q ++ s ++ q)%string
  | JNumber n => str_of_nat n
  | JArray [] => "[]"%string
  | JArray items =>
      ("[" ++ inner
           ++ join ("," ++ inner) (map (json_encode (S level)) items)
           ++ outer ++ "]")%string
  | JObject [] => "{}"%string
  | JObject members =>
      ("{" ++ inner
           ++ join ("," ++ inner)
                (map (fun kv => q ++ fst kv ++ q ++ ": " ++ json_encode (S level) (snd kv))
                     members)
           ++ outer ++ "}")%string
  end.

Definition json_dump (j : json) : string := json_encode 0 j.

(* ------------------------------------------------------------------ *)
(** ** The filesystem and the console *)
(* ------------------------------------------------------------------ *)

(** The outside as the script uses it: the disk and the console.  Strings
    are byte sequences; whether a text can be encoded for the console or for
    a file is for the outside to say.  A call returns ([None]) or raises
    ([Some] exception).  A filesystem call that raises may have changed the
    disk all the same: [open] has created or emptied the file before [write]
    fails, [makedirs] may have created some of the ancestors.  The console is
    not the disk: [print] changes no file.  [os.path.exists] does not raise. *)
Record FileSystem : Type := {
  FS : Type;
  (** [os.makedirs(path, exist_ok=True)] *)
  os_makedirs : string -> FS -> option exn * FS;
  (** [with open(path, "w") as f: f.write(content)] *)
  os_write : string -> string -> FS -> option exn * FS;
  (** [os.path.exists(path)] *)
  os_path_exists : string -> FS -> bool;
  (** [print(text)] *)
  os_print : string -> FS -> option exn
}.

(** The calls a run makes on the outside; a trace holds, in order, the
    calls that have returned. *)
Inductive event : Type :=
| EvMakedirs (path : string)
| EvWrite (path content : string)
| EvExists (path : string) (found : bool)
| EvPrint (text : string).

Record World (os : FileSystem) : Type := {
  fs : FS os;
  trace : list event
}.

Arguments fs {os} w.
Arguments trace {os} w.

(** Effectful code: a world in, a result or an exception out, and the world
    as the effects performed so far left it. *)
Definition IO (os : FileSystem) (A : Type) : Type :=
  World os -> result A * World os.

Section Effects.

Context {os : FileSystem}.

Definition ret {A : Type} (a : A) : IO os A := fun w => (Ok a, w).

Definition bind {A B : Type} (m : IO os A) (k : A -> IO os B) : IO os B :=
  fun w =>
    match m w with
    | (Ok a, w') => k a w'
    | (Raise e, w') => (Raise e, w')
    end.

(** A pure, fallible computation inside effectful code. *)
Definition lift {A : Type} (r : result A) : IO os A := fun w => (r, w).

Definition emit (e : event) (w : World os) : World os :=
  {| fs := fs w; trace := trace w ++ [e] |}.

(** What the outside makes of a call on the disk [s]: whether it raises,
    and the disk it leaves. *)
Definition call (e : event) (s : FS os) : option exn * FS os :=
  match e with
  | EvMakedirs path => os_makedirs os path s
  | EvWrite path content => os_write os path content s
  | EvExists _ _ => (None, s)
  | EvPrint text => (os_print os text s, s)
  end.

(** A call as a statement: when it returns it is recorded, when it raises
    the statement raises; the disk is as the call left it either way. *)
Definition perform (e : event) : IO os unit :=
  fun w =>
    match call e (fs w) with
    | (None, s) => (Ok tt, {| fs := s; trace := trace w ++ [e] |})
    | (Some x, s) => (Raise x, {| fs := s; trace := trace w |})
    end.

Definition print (text : string) : IO os unit := perform (EvPrint text).

Definition makedirs (path : string) : IO os unit := perform (EvMakedirs path).

Definition write_text (path content : string) : IO os unit :=
  perform (EvWrite path content).

Definition path_exists (path : string) : IO os bool :=
  fun w =>
    let found := os_path_exists os path (fs w) in
    (Ok found, emit (EvExists path found) w).

End Effects.

Notation "x <- m ;; k" := (bind m (fun x => k))
  (at level 61, m at next level, right associativity).
Notation "m ;; k" := (bind m (fun _ => k))
  (at level 61, right associativity).

(** [os.path.join(a, b)] on POSIX. *)
Definition path_join (a b : string) : string :=
  if startswith b "/" then b
  else if String.eqb a EmptyString || endswith a "/" then (a ++ b)%string
  else (a ++ "/" ++ b)%string.

(* ------------------------------------------------------------------ *)
(** ** Asset catalog stubs (lines 401-429) *)
(* ------------------------------------------------------------------ *)

Definition info_block : string * json :=
  ("info"%string, JObject [("author"%string, JString "xcode"); ("version"%string, JNumber 1)]).

Definition catalog_contents : json := JObject [info_block].

Definition appicon_contents : json :=
  JObject
    [ ("images"%string,
       JArray
         [ JObject [ ("idiom"%string, JString "universal");
                     ("platform"%string, JString "ios");
                     ("size"%string, JString "1024x1024") ];
           JObject [ ("idiom"%string, JString "mac");
                     ("size"%string, JString "1024x1024");
                     ("scale"%string, JString "1x") ] ]);
      info_block ].

Definition accent_contents : json :=
  JObject
    [ ("colors"%string,
       JArray
         [ JObject
             [ ("idiom"%string, JString "universal");
               ("color"%string,
                JObject
                  [ ("color-space"%string, JString "srgb");
                    ("components"%string,
                     JObject [ ("red"%string, JString "0.337");
                               ("green"%string, JString "0.333");
                               ("blue"%string, JString "0.996");
                               ("alpha"%string, JString "1.000") ]) ]) ] ]);
      info_block ].

Definition create_asset_catalog {os : FileSystem} : IO os unit :=
  let base : string := "EMCopilot/Resources/Assets.xcassets" in
  makedirs base ;;
  makedirs (base ++ "/AppIcon.appiconset") ;;
  makedirs (base ++ "/AccentColor.colorset") ;;
  write_text (base ++ "/Contents.json") (json_dump catalog_contents) ;;
  write_text (base ++ "/AppIcon.appiconset/Contents.json") (json_dump appicon_contents) ;;
  write_text (base ++ "/AccentColor.colorset/Contents.json") (json_dump accent_contents) ;;
  print ("  ✓ Created " ++ base).

(* ------------------------------------------------------------------ *)
(** ** Main (lines 435-471) *)
(* ------------------------------------------------------------------ *)

(** The verification loop of lines 453-459, with [missing] as accumulated so
    far. *)
Fixpoint check_source_files {os : FileSystem} (paths missing : list string)
  : IO os (list string) :=
  match paths with
  | [] => ret missing
  | path :: rest =>
      found <- path_exists path ;;
      if found : bool then
        print ("  ✓ " ++ path) ;;
        check_source_files rest missing
      else
        print ("  ✗ MISSING: " ++ path) ;;
        check_source_files rest (missing ++ [path])
  end.

Definition main {os : FileSystem} (g : Globals) : IO os unit :=
  print ("🔨 Generating EM Copilot Xcode project…" ++ nl) ;;
  let proj_dir : string := "EMCopilot.xcodeproj" in
  makedirs proj_dir ;;
  let proj_path := path_join proj_dir "project.pbxproj" in
  content <- lift (pbxproj g) ;;
  write_text proj_path content ;;
  print ("  ✓ Created " ++ proj_path) ;;
  create_asset_catalog ;;
  print (nl ++ "📋 Checking source files…") ;;
  missing <- check_source_files (SOURCE_FILES g) [] ;;
  print EmptyString ;;
  match missing with
  | _ :: _ =>
      print ("⚠️  " ++ str_of_nat (List.length missing)
             ++ " source file(s) are missing. Create them before building.")
  | [] =>
      print "✅ All source files present." ;;
      print (nl ++ "🚀 Next steps:") ;;
      print "   1. open EMCopilot.xcodeproj" ;;
      print "   2. Select your team in Signing & Capabilities" ;;
      print "   3. Set your API key in Settings and build!" ;;
      print EmptyString ;;
      print ("   Bundle ID: " ++ BUNDLE_ID_BASE ++ "  ← change this to your reverse domain")
  end.

(** One run of the script: the module body, then [main()]. *)
Definition generator {os : FileSystem} (rnd : nat -> N)
    (sources resources : list string) : IO os unit :=
  main (module_init rnd sources resources).

(* ------------------------------------------------------------------ *)
(** ** An in-memory filesystem *)
(* ------------------------------------------------------------------ *)

(** A disk and a console whose calls always return: directories and files
    by path.  Creating a directory creates its ancestors; a path exists when
    it names a directory or a file. *)
Module MemFS.

Record state : Type := {
  dirs : list string;
  files : list (string * string)
}.

Definition empty : state := {| dirs := []; files := [] |}.

Definition mem (p : string) (l : list string) : bool :=
  existsb (String.eqb p) l.

(** The proper ancestors of a path: its prefixes that end before a slash. *)
Fixpoint ancestors_from (seen rest : string) : list string :=
  match rest with
  | EmptyString => []
  | String c r =>
      let here := if Ascii.eqb c "/" then [seen] else [] in
      here ++ ancestors_from (seen ++ String c EmptyString)%string r
  end.

Definition ancestors (p : string) : list string :=
  filter (fun a => negb (String.eqb a EmptyString)) (ancestors_from EmptyString p).

Definition add_dir (p : string) (l : list string) : list string :=
  if mem p l then l else l ++ [p].

Definition makedirs (p : string) (st : state) : state :=
  {| dirs := fold_left (fun l a => add_dir a l) (ancestors p ++ [p]) (dirs st);
     files := files st |}.

Definition write (p content : string) (st : state) : state :=
  {| dirs := dirs st;
     files := filter (fun f => negb (String.eqb (fst f) p)) (files st)
              ++ [(p, content)] |}.

Definition path_exists (p : string) (st : state) : bool :=
  mem p (dirs st) || mem p (map fst (files st)).

Definition os : FileSystem :=
  {| FS := state;
     os_makedirs := fun p st => (None, makedirs p st);
     os_write := fun p content st => (None, write p content st);
     os_path_exists := path_exists;
     os_print := fun _ _ => None |}.

(** A world with the given files already on disk and nothing done yet. *)
Definition world (present : list string) : World os :=
  Build_World os
    {| dirs := []; files := map (fun p => (p, EmptyString)) present |} [].

End MemFS.

(* ------------------------------------------------------------------ *)
(** ** Vocabulary for the properties *)
(* ------------------------------------------------------------------ *)

(** A random source whose draws give pairwise distinct identifiers: the
    draw number sits above the 32 low bits that [make_uuid] cuts off. *)
Definition counter_rnd (k : nat) : N := N.shiftl (N.of_nat k) 32.


(** Making the calls of [plan] in turn, from the disk [s], up to the first
    one that raises: the calls that returned, the exception if one was
    raised, and the disk that is left. *)
Fixpoint run_calls {os : FileSystem} (plan : list event) (s : FS os)
  : list event * option exn * FS os :=
  match plan with
  | [] => ([], None, s)
  | e :: rest =>
      match call e s with
      | (None, s') =>
          let '(done, raised, s'') := run_calls rest s' in (e :: done, raised, s'')
      | (Some x, s') => ([], Some x, s')
      end
  end.

(** Each call of [plan], made in turn from the disk [s], returns. *)
Definition calls_return {os : FileSystem} (plan : list event) (s : FS os) : Prop :=
  snd (fst (run_calls plan s)) = None.

Definition proj_path : string := "EMCopilot.xcodeproj/project.pbxproj".
Definition assets_base : string := "EMCopilot/Resources/Assets.xcassets".

(** What [main] does before the verification loop, given the descriptor. *)
Definition setup_events (content : string) : list event :=
  [ EvPrint ("🔨 Generating EM Copilot Xcode project…" ++ nl);
    EvMakedirs "EMCopilot.xcodeproj";
    EvWrite proj_path content;
    EvPrint ("  ✓ Created " ++ proj_path);
    EvMakedirs assets_base;
    EvMakedirs (assets_base ++ "/AppIcon.appiconset");
    EvMakedirs (assets_base ++ "/AccentColor.colorset");
    EvWrite (assets_base ++ "/Contents.json") (json_dump catalog_contents);
    EvWrite (assets_base ++ "/AppIcon.appiconset/Contents.json") (json_dump appicon_contents);
    EvWrite (assets_base ++ "/AccentColor.colorset/Contents.json") (json_dump accent_contents);
    EvPrint ("  ✓ Created " ++ assets_base);
    EvPrint (nl ++ "📋 Checking source files…") ].

Definition pass_line (path : string) : string := ("  ✓ " ++ path)%string.
Definition missing_line (path : string) : string := ("  ✗ MISSING: " ++ path)%string.

(** The verification loop over [paths] on a disk where [present] tells which
    paths exist: one existence check and one report line per path. *)
Definition check_events (present : string -> bool) (paths : list string) : list event :=
  flat_map (fun p => [ EvExists p (present p);
                       EvPrint (if present p then pass_line p else missing_line p) ])
           paths.

Definition missing_paths (present : string -> bool) (paths : list string) : list string :=
  filter (fun p => negb (present p)) paths.

Definition warning_line (count : nat) : string :=
  ("⚠️  " ++ str_of_nat count
          ++ " source file(s) are missing. Create them before building.")%string.

(** The next-step guidance of lines 466-471. *)
Definition guidance_lines : list string :=
  [ (nl ++ "🚀 Next steps:")%string;
    "   1. open EMCopilot.xcodeproj"%string;
    "   2. Select your team in Signing & Capabilities"%string;
    "   3. Set your API key in Settings and build!"%string;
    EmptyString;
    ("   Bundle ID: " ++ BUNDLE_ID_BASE ++ "  ← change this to your reverse domain")%string ].

(** What [main] prints after the blank line that follows the loop. *)
Definition summary_events (missing : list string) : list event :=
  match missing with
  | [] => map EvPrint ("✅ All source files present."%string :: guidance_lines)
  | _ :: _ => [EvPrint (warning_line (List.length missing))]
  end.

Definition is_fs_write (e : event) : bool :=
  match e with
  | EvMakedirs _ | EvWrite _ _ => true
  | _ => false
  end.

Definition is_exists_check (e : event) : bool :=
  match e with
  | EvExists _ _ => true
  | _ => false
  end.

(** The path of an existence check. *)
Definition checked_paths (t : list event) : list string :=
  flat_map (fun e => match e with EvExists p _ => [p] | _ => [] end) t.

(** The lines a run printed. *)
Definition printed (t : list event) : list string :=
  flat_map (fun e => match e with EvPrint s => [s] | _ => [] end) t.

Definition mem (s : string) (l : list string) : bool := existsb (String.eqb s) l.

Fixpoint has_duplicate (l : list string) : bool :=
  match l with
  | [] => false
  | x :: rest => mem x rest || has_duplicate rest
  end.

(** The manifests the specification calls malformed: an empty path, a
    repeated path, or a path that leaves the project root. *)
Definition outside_root (path : string) : bool :=
  startswith path "/" || startswith path "../".

Definition malformed (paths : list string) : bool :=
  mem EmptyString paths || has_duplicate paths || existsb outside_root paths.

(** The file-reference line of [path] says [path = <path>;]. *)
Definition file_reference_of (path : string) (l : line) : Prop :=
  exists uid, pbx_file_reference path uid = [l].

(** The files a build phase lists: the cross-references of the objects of
    the section called [name]. *)
Definition phase_files (name : string) (ls : list line) : list string :=
  flat_map snd (objects (section name ls)).

(** What [create_asset_catalog] does. *)
Definition asset_catalog_events : list event :=
  [ EvMakedirs assets_base;
    EvMakedirs (assets_base ++ "/AppIcon.appiconset");
    EvMakedirs (assets_base ++ "/AccentColor.colorset");
    EvWrite (assets_base ++ "/Contents.json") (json_dump catalog_contents);
    EvWrite (assets_base ++ "/AppIcon.appiconset/Contents.json") (json_dump appicon_contents);
    EvWrite (assets_base ++ "/AccentColor.colorset/Contents.json") (json_dump accent_contents);
    EvPrint ("  ✓ Created " ++ assets_base) ].

(** The whole trace of a run of [main] that is not cut short, on a disk
    where [present] tells which paths exist at verification time. *)
Definition full_trace (content : string) (present : string -> bool)
    (sources : list string) : list event :=
  setup_events content
  ++ check_events present sources
  ++ EvPrint EmptyString :: summary_events (missing_paths present sources).

(** The calls of a run of [main] from the disk [s], when none of them
    raises: the verification loop finds what the setup has left. *)
Definition planned {os : FileSystem} (s : FS os) (content : string)
    (sources : list string) : list event :=
  let ready := snd (run_calls (setup_events content) s) in
  full_trace content (fun p => os_path_exists os p ready) sources.

(** How a run started in [w] ends when its calls went as [r] says. *)
Definition ended {os : FileSystem} (w : World os)
    (r : list event * option exn * FS os) : result unit * World os :=
  let '(done, raised, s) := r in
  (match raised with None => Ok tt | Some x => Raise x end,
   {| fs := s; trace := trace w ++ done |}).

(** A run that was refused before it touched the disk. *)
Definition rejected_before_writing {os : FileSystem}
    (run : result unit * World os) : Prop :=
  (exists e, fst run = Raise e)
  /\ forallb (fun e => negb (is_fs_write e)) (trace (snd run)) = true.

(** *** The descriptor of a run whose subscripts all succeed *)

Definition unwrap {A : Type} (r : result (list A)) : list A :=
  match r with
  | Ok l => l
  | Raise _ => []
  end.

(** The lines [pbxproj_lines] returns when it returns. *)
Definition descriptor (g : Globals) : list line :=
  pbx_header
  ++ unwrap (pbx_PBXBuildFile g)
  ++ pbx_PBXFileReference g
  ++ pbx_PBXFrameworksBuildPhase g
  ++ pbx_PBXGroup g
  ++ pbx_PBXNativeTarget g
  ++ pbx_PBXProject g
  ++ unwrap (pbx_PBXResourcesBuildPhase g)
  ++ unwrap (pbx_PBXSourcesBuildPhase g)
  ++ pbx_XCBuildConfiguration g
  ++ pbx_XCConfigurationList g
  ++ pbx_footer g.

(** The two dictionaries have the same keys, and every source path is one:
    what the module body establishes and [pbxproj] relies on. *)
Definition well_keyed (g : Globals) : Prop :=
  Dict.keys (file_refs g) = Dict.keys (build_files g)
  /\ (forall p, In p (SOURCE_FILES g) -> In p (Dict.keys (build_files g))).

(** [file_refs[path]] and [build_files[path]] for a key that is present. *)
Definition fref_of (g : Globals) (path : string) : string :=
  match Dict.get (file_refs g) path with
  | Some v => v
  | None => EmptyString
  end.

Definition build_id_of (g : Globals) (path : string) : string :=
  match Dict.get (build_files g) path with
  | Some v => v
  | None => EmptyString
  end.

Definition begin_line (name : string) : line :=
  [Lit (nl ++ "/* Begin " ++ name ++ " section */")].

Definition end_line (name : string) : line :=
  [Lit ("/* End " ++ name ++ " section */")].

(** A run of lines without its first and last line. *)
Definition middle (ls : list line) : list line := removelast (tl ls).

Definition no_end_marker (l : line) : bool :=
  match end_marker l with
  | Some _ => false
  | None => true
  end.

Definition no_begin_marker (l : line) : bool :=
  match begin_marker l with
  | Some _ => false
  | None => true
  end.

(** [sec] is a well-formed section called [name]: its markers read back as
    [name] and no line in between closes it. *)
Record chunk (name : string) (sec : list line) : Prop := {
  chunk_shape : sec = begin_line name :: middle sec ++ [end_line name];
  chunk_begin : begin_marker (begin_line name) = Some name;
  chunk_end : end_marker (end_line name) = Some name;
  chunk_plain : forallb no_end_marker (middle sec) = true
}.

(** What the two allocation loops guarantee about the dictionaries after [k]
    draws, the first [lo] of which went to the structural objects: equal
    keys, and values that are draws [lo..k-1], no draw used twice. *)
Record allocated (rnd : nat -> N) (lo : nat) (fr bf : Dict.t) (k : nat) : Prop := {
  same_keys : Dict.keys fr = Dict.keys bf;
  drawn_so_far : lo <= k;
  indexed :
    exists ifr ibf,
      Dict.values fr = map (uuid_at rnd) ifr
      /\ Dict.values bf = map (uuid_at rnd) ibf
      /\ NoDup (ifr ++ ibf)
      /\ (forall i, In i (ifr ++ ibf) -> lo <= i < k)
}.

(** The loops of [pbxproj] with every subscript resolved. *)
Definition build_file_entries (g : Globals) : list line :=
  map (fun '(path, uid) => pbx_build_file_line (basename path) uid (fref_of g path))
      (Dict.items (build_files g)).

Definition group_children (g : Globals) : list line :=
  map (fun '(path, uid) => pbx_group_child_line (basename path) uid)
      (Dict.items (file_refs g)).

Definition resource_entries (g : Globals) : list line :=
  match Dict.get (build_files g) ASSETS_XCASSETS with
  | Some uid => [pbx_resource_entry_line (basename ASSETS_XCASSETS) uid]
  | None => []
  end.

Definition source_entries (g : Globals) : list line :=
  map (fun path => pbx_source_entry_line (basename path) (build_id_of g path))
      (SOURCE_FILES g).

(** The identifiers that get a file-reference object: those of the paths
    with a known extension, in dictionary order. *)
Definition file_reference_ids (g : Globals) : list string :=
  flat_map (fun '(path, uid) => if recognised path then [uid] else [])
           (Dict.items (file_refs g)).

(** The identifiers the resources phase lists. *)
Definition resource_phase_ids (g : Globals) : list string :=
  match Dict.get (build_files g) ASSETS_XCASSETS with
  | Some uid => [uid]
  | None => []
  end.

(** [needle in s] for strings. *)
Fixpoint contains_text (needle s : string) : bool :=
  String.prefix needle s
  || match s with
     | EmptyString => false
     | String _ rest => contains_text needle rest
     end.

(* ------------------------------------------------------------------ *)
(** ** Further vocabulary *)
(* ------------------------------------------------------------------ *)

(** [indent(n, s)] (lines 113-114): ["\t" * n + s]. *)
Definition indent (n : nat) (s : string) : string := (tabs n ++ s)%string.

(** [s.count(c)] for one character. *)
Fixpoint count_char (c : ascii) (s : string) : nat :=
  match s with
  | EmptyString => 0
  | String d rest => (if Ascii.eqb d c then 1 else 0) + count_char c rest
  end.

(** The keys of a dictionary that started with keys [acc] and was then
    assigned at each of [paths] in turn. *)
Fixpoint add_new (acc paths : list string) : list string :=
  match paths with
  | [] => acc
  | p :: rest => add_new (if mem p acc then acc else acc ++ [p]) rest
  end.

(** The distinct paths of a manifest, each at its first occurrence. *)
Definition distinct_paths (paths : list string) : list string := add_new [] paths.

(** The paths a run passes to [os.makedirs] and to [open]. *)
Definition output_dirs : list string :=
  [ "EMCopilot.xcodeproj"%string;
    assets_base;
    (assets_base ++ "/AppIcon.appiconset")%string;
    (assets_base ++ "/AccentColor.colorset")%string ].

Definition output_files : list string :=
  [ proj_path;
    (assets_base ++ "/Contents.json")%string;
    (assets_base ++ "/AppIcon.appiconset/Contents.json")%string;
    (assets_base ++ "/AccentColor.colorset/Contents.json")%string ].

(** The calls a run over the manifest [sources] may make. *)
Definition allowed_event (sources : list string) (e : event) : Prop :=
  match e with
  | EvMakedirs path => In path output_dirs
  | EvWrite path _ => In path output_files
  | EvExists path _ => In path sources
  | EvPrint _ => True
  end.

(** The in-memory disk with one path that cannot be written: [open]
    creates the file and [write] raises, leaving it empty. *)
Definition refusing_os (bad : string) : FileSystem :=
  {| FS := MemFS.state;
     os_makedirs := fun p s => (None, MemFS.makedirs p s);
     os_write := fun p c s =>
       if String.eqb p bad
       then (Some (OSError "write" p), MemFS.write p EmptyString s)
       else (None, MemFS.write p c s);
     os_path_exists := MemFS.path_exists;
     os_print := fun _ _ => None |}.

(** The in-memory disk with a console that encodes ASCII only. *)
Definition is_ascii (s : string) : bool :=
  all_chars (fun c => Nat.ltb (nat_of_ascii c) 128) s.

Definition ascii_console_os : FileSystem :=
  {| FS := MemFS.state;
     os_makedirs := fun p s => (None, MemFS.makedirs p s);
     os_write := fun p c s => (None, MemFS.write p c s);
     os_path_exists := MemFS.path_exists;
     os_print := fun text _ =>
       if is_ascii text then None else Some (UnicodeEncodeError text) |}.

(** The report lines that flag a missing file. *)
Definition flags_missing (text : string) : bool := startswith text "  ✗ MISSING: ".

(** A path without braces and parentheses. *)
Definition delimiter_free (s : string) : bool :=
  forallb (fun c => Nat.eqb (count_char c s) 0) ["{"; "}"; "("; ")"]%char.

(** How often [c] occurs in the text of the lines [ls], and how often in
    their literal pieces alone. *)
Definition text_count (c : ascii) (ls : list line) : nat :=
  list_sum (map (fun l => count_char c (render_line l)) ls).

Definition piece_lit_count (c : ascii) (p : piece) : nat :=
  match p with
  | Lit s => count_char c s
  | DefId _ | RefId _ => 0
  end.

Definition line_lit_count (c : ascii) (l : line) : nat :=
  list_sum (map (piece_lit_count c) l).

Definition lit_count (c : ascii) (ls : list line) : nat :=
  list_sum (map (line_lit_count c) ls).

(* ------------------------------------------------------------------ *)
(** ** Reading the descriptor text *)
(* ------------------------------------------------------------------ *)

(** [text.split("\n")] *)
Fixpoint split_lines (s : string) : list string :=
  match s with
  | EmptyString => [EmptyString]
  | String c r =>
      if Ascii.eqb c "010" then EmptyString :: split_lines r
      else match split_lines r with
           | l :: ls => String c l :: ls
           | [] => [String c EmptyString]
           end
  end.

Definition no_newline (s : string) : bool :=
  all_chars (fun c => negb (Ascii.eqb c "010")) s.

(** The name in a text line [/* Begin <name> section */], and in a text
    line [/* End <name> section */]. *)
Definition text_begin_marker (l : string) : option string :=
  if startswith l "/* Begin " && endswith l " section */"
  then Some (take (String.length l - 20) (drop 9 l))
  else None.

Definition text_end_marker (l : string) : option string :=
  if startswith l "/* End " && endswith l " section */"
  then Some (take (String.length l - 18) (drop 7 l))
  else None.

(** The sections of a text, in order: each is the name of a [Begin] line
    and the lines up to the [End] line of the same name.  [cur] is the
    section being read, its lines in reverse. *)
Fixpoint text_sections_from (cur : option (string * list string)) (ls : list string)
  : list (string * list string) :=
  match ls with
  | [] => []
  | l :: rest =>
      match cur with
      | None =>
          match text_begin_marker l with
          | Some name => text_sections_from (Some (name, [])) rest
          | None => text_sections_from None rest
          end
      | Some (name, acc) =>
          match text_end_marker l with
          | Some name' =>
              if String.eqb name' name
              then (name, rev acc) :: text_sections_from None rest
              else text_sections_from (Some (name, l :: acc)) rest
          | None => text_sections_from (Some (name, l :: acc)) rest
          end
      end
  end.

Definition text_sections (text : string) : list (string * list string) :=
  text_sections_from None (split_lines text).

Definition text_section_names (text : string) : list string :=
  map fst (text_sections text).

(** The lines of the first section of the text called [name]. *)
Definition text_section (name text : string) : list string :=
  match find (fun s => String.eqb (fst s) name) (text_sections text) with
  | Some s => snd s
  | None => []
  end.

(** Words: the maximal runs of letters, digits and underscores. *)
Definition is_word_char (c : ascii) : bool :=
  let n := nat_of_ascii c in
  (Nat.leb 48 n && Nat.leb n 57) || (Nat.leb 65 n && Nat.leb n 90)
  || (Nat.leb 97 n && Nat.leb n 122) || Nat.eqb n 95.

Definition starts_word (s : string) : bool :=
  match s with
  | String c _ => is_word_char c
  | EmptyString => false
  end.

Fixpoint ends_word (s : string) : bool :=
  match s with
  | EmptyString => false
  | String c EmptyString => is_word_char c
  | String _ r => ends_word r
  end.

Fixpoint words (s : string) : list string :=
  match s with
  | EmptyString => []
  | String c r =>
      if is_word_char c then
        if starts_word r then
          match words r with
          | w :: ws => String c w :: ws
          | [] => [String c EmptyString]
          end
        else String c EmptyString :: words r
      else words r
  end.

(** An identifier in the text: a word of 24 upper-case hexadecimal
    digits. *)
Definition is_id (w : string) : bool :=
  Nat.eqb (String.length w) 24 && all_chars is_upper_hex w.

Definition text_ids (l : string) : list string := filter is_id (words l).

Definition no_ids (s : string) : bool :=
  forallb (fun w => negb (is_id w)) (words s).

(** The identifier a text line defines an object under: the one the line
    opens with, two tabs deep. *)
Definition text_def (l : string) : option string :=
  match text_ids l with
  | id :: _ => if startswith l (tabs 2 ++ id) then Some id else None
  | [] => None
  end.

(** The cross-references of a text line: its identifiers, the defining one
    aside. *)
Definition text_refs (l : string) : list string :=
  match text_def l with
  | Some _ => tl (text_ids l)
  | None => text_ids l
  end.

(** The objects of a run of text lines: a defining line opens an object,
    which collects the cross-references up to the next defining line. *)
Fixpoint text_objects_from (cur : option (string * list string)) (ls : list string)
  : list (string * list string) :=
  let flush := match cur with Some o => [o] | None => [] end in
  match ls with
  | [] => flush
  | l :: rest =>
      match text_def l with
      | Some d => flush ++ text_objects_from (Some (d, text_refs l)) rest
      | None =>
          text_objects_from
            (match cur with
             | Some (d, refs) => Some (d, refs ++ text_refs l)
             | None => None
             end) rest
      end
  end.

Definition text_objects (ls : list string) : list (string * list string) :=
  text_objects_from None ls.

(** The text lines that define an object. *)
Definition text_object_heads (ls : list string) : list string :=
  filter (fun l => match text_def l with Some _ => true | None => false end) ls.

(** A path that cannot be mistaken for descriptor syntax: it holds no
    newline and no word that reads as an identifier. *)
Definition plain_path (p : string) : bool := no_newline p && no_ids p.

(** *** Lines as rendered *)

Definition piece_ids (p : piece) : list string :=
  match p with
  | Lit _ => []
  | DefId u | RefId u => [u]
  end.

Definition line_ids (l : line) : list string := flat_map piece_ids l.

Definition piece_no_newline (p : piece) : bool :=
  match p with
  | Lit s => no_newline s
  | DefId _ | RefId _ => true
  end.

Definition tab_led (l : line) : bool :=
  match l with
  | Lit s :: _ => startswith s tab
  | _ => false
  end.

(** A one-literal line reads in the text as it reads as a line: a [Begin]
    line gives a blank line and the marker, an [End] line the marker, and
    any other line no marker. *)
Definition unmarked (t : string) : bool :=
  match text_begin_marker t, text_end_marker t with
  | None, None => true
  | _, _ => false
  end.

Definition literal_reads_back (s : string) : bool :=
  match begin_marker [Lit s], end_marker [Lit s] with
  | Some n, None =>
      match split_lines s with
      | [e; m] =>
          String.eqb e EmptyString
          && match text_begin_marker m, text_end_marker m with
             | Some n', None => String.eqb n' n
             | _, _ => false
             end
      | _ => false
      end
  | None, Some n =>
      match split_lines s with
      | [m] =>
          match text_begin_marker m, text_end_marker m with
          | None, Some n' => String.eqb n' n
          | _, _ => false
          end
      | _ => false
      end
  | None, None => forallb unmarked (split_lines s)
  | Some _, Some _ => false
  end.

(** A line that reads in the text as it reads as a line. *)
Definition reads_back (l : line) : bool :=
  (tab_led l && forallb piece_no_newline l)
  || match l with
     | [Lit s] => literal_reads_back s
     | _ => false
     end.

(** The identifiers of a line stand apart from its literal text, and the
    literal text holds none. *)
Fixpoint spaced (after_word : bool) (l : line) : bool :=
  match l with
  | [] => true
  | Lit s :: rest =>
      match s with
      | EmptyString => spaced after_word rest
      | String _ _ =>
          negb (after_word && starts_word s) && no_ids s && spaced (ends_word s) rest
      end
  | DefId _ :: rest | RefId _ :: rest => negb after_word && spaced true rest
  end.

Definition has_def (p : piece) : bool :=
  match p with
  | DefId _ => true
  | Lit _ | RefId _ => false
  end.

(** A line of a section: it starts with a tab, holds no newline, its
    identifiers stand apart, and it defines an object exactly when it opens
    with an identifier two tabs deep. *)
Definition object_line (l : line) : bool :=
  tab_led l && forallb piece_no_newline l && spaced false l
  && match l with
     | Lit s :: DefId _ :: rest => String.eqb s (tabs 2) && negb (existsb has_def rest)
     | Lit s :: rest =>
         negb (existsb has_def rest)
         && (match line_ids l with [] => true | _ :: _ => false end
             || startswith s (tabs 3))
     | _ => false
     end.

(* ================================================================== *)
(** * Properties *)
(* ================================================================== *)

(* ------------------------------------------------------------------ *)
(** ** Strings *)
(* ------------------------------------------------------------------ *)

Section StringFacts.

Lemma length_append (a b : string) :
  String.length (a ++ b)%string = String.length a + String.length b.
Proof. induction a; simpl; congruence. Qed.

Lemma length_repeat_char c n : String.length (repeat_char c n) = n.
Proof. induction n; simpl; congruence. Qed.

Lemma length_upper s : String.length (upper s) = String.length s.
Proof. induction s; simpl; congruence. Qed.

Lemma length_take n s :
  n <= String.length s -> String.length (take n s) = n.
Proof.
  revert s; induction n as [|n IH]; intros [|c s] H; simpl in *;
    try reflexivity; try lia.
  rewrite IH; [reflexivity | lia].
Qed.

Lemma all_chars_append p a b :
  all_chars p (a ++ b)%string = all_chars p a && all_chars p b.
Proof.
  induction a as [|c a IH]; simpl; [reflexivity|].
  rewrite IH. now rewrite andb_assoc.
Qed.

Lemma all_chars_repeat p c n : p c = true -> all_chars p (repeat_char c n) = true.
Proof. intros H; induction n; simpl; [reflexivity | now rewrite H]. Qed.

Lemma all_chars_take p n s : all_chars p s = true -> all_chars p (take n s) = true.
Proof.
  revert s; induction n as [|n IH]; intros [|c s]; simpl; auto.
  intros H. apply andb_true_iff in H as [Hc Hs].
  now rewrite Hc, IH.
Qed.

Lemma upper_char_hex c : is_lower_hex c = true -> is_upper_hex (upper_char c) = true.
Proof.
  destruct c as [[] [] [] [] [] [] [] []]; vm_compute; intros H;
    first [exact H | reflexivity].
Qed.

Lemma all_chars_upper s :
  all_chars is_lower_hex s = true -> all_chars is_upper_hex (upper s) = true.
Proof.
  induction s as [|c s IH]; simpl; [reflexivity|].
  intros H. apply andb_true_iff in H as [Hc Hs].
  now rewrite (upper_char_hex _ Hc), IH.
Qed.

End StringFacts.

(** The digits [HexString.Raw.of_pos] puts in front of [rest] are lower-case
    hexadecimal, four bits of [p] at a time. *)
Lemma of_pos_lower_hex_bounded (n : nat) : forall (p : positive) (rest : string),
  Pos.size_nat p <= n ->
  all_chars is_lower_hex rest = true ->
  all_chars is_lower_hex (HexString.Raw.of_pos p rest) = true.
Proof.
  induction n as [|n IH]; intros p rest Hsize H.
  - destruct p; simpl in Hsize; lia.
  - do 4 try destruct p as [p|p|]; cbn [HexString.Raw.of_pos all_chars];
      try (rewrite H; reflexivity);
      (apply IH; [cbn [Pos.size_nat] in Hsize; lia | cbn [all_chars]; rewrite H; reflexivity]).
Qed.

Lemma of_pos_lower_hex (p : positive) (rest : string) :
  all_chars is_lower_hex rest = true ->
  all_chars is_lower_hex (HexString.Raw.of_pos p rest) = true.
Proof. apply (of_pos_lower_hex_bounded (Pos.size_nat p)); auto. Qed.

Lemma hex_lower n : all_chars is_lower_hex (hex n) = true.
Proof.
  destruct n as [|p]; [reflexivity|].
  apply of_pos_lower_hex. reflexivity.
Qed.

Lemma hex_padded_lower w n : all_chars is_lower_hex (hex_padded w n) = true.
Proof.
  unfold hex_padded. rewrite all_chars_append, hex_lower, all_chars_repeat; reflexivity.
Qed.

Lemma hex_padded_length w n : w <= String.length (hex_padded w n).
Proof.
  unfold hex_padded. rewrite length_append, length_repeat_char. lia.
Qed.

(** C8. Every call of [make_uuid] returns a string of exactly 24 characters,
    each an upper-case hexadecimal digit, whatever random integer [uuid4]
    drew. *)
Theorem make_uuid_format (r : N) :
  String.length (make_uuid r) = 24
  /\ all_chars is_upper_hex (make_uuid r) = true.
Proof.
  unfold make_uuid, uuid_hex. split.
  - rewrite length_upper. apply length_take.
    pose proof (hex_padded_length 32 (uuid4_int r)). lia.
  - apply all_chars_upper, all_chars_take, hex_padded_lower.
Qed.

(* ------------------------------------------------------------------ *)
(** ** Dictionaries *)
(* ------------------------------------------------------------------ *)

Module DictFacts.

Import Dict.

Lemma get_set_same d k v : get (set d k v) k = Some v.
Proof.
  induction d as [|[k' v'] d IH]; simpl.
  - now rewrite String.eqb_refl.
  - destruct (String.eqb k' k) eqn:E; simpl; rewrite E; auto.
Qed.

Lemma get_set_other d k v k' : k <> k' -> get (set d k v) k' = get d k'.
Proof.
  intros Hne. induction d as [|[k0 v0] d IH]; simpl.
  - destruct (String.eqb k k') eqn:E; [apply String.eqb_eq in E; contradiction | reflexivity].
  - destruct (String.eqb k0 k) eqn:E; simpl.
    + apply String.eqb_eq in E; subst k0.
      destruct (String.eqb k k') eqn:E'; [apply String.eqb_eq in E'; contradiction | reflexivity].
    + now rewrite IH.
Qed.

Lemma in_keys_get d k : In k (keys d) <-> exists v, get d k = Some v.
Proof.
  induction d as [|[k' v'] d IH]; simpl.
  - split; [tauto | intros [v H]; discriminate].
  - destruct (String.eqb k' k) eqn:E.
    + apply String.eqb_eq in E. split; eauto.
    + apply String.eqb_neq in E. rewrite <- IH. tauto.
Qed.

Lemma get_in_values d k v : get d k = Some v -> In v (values d).
Proof.
  induction d as [|[k' v'] d IH]; simpl; [discriminate|].
  destruct (String.eqb k' k); [intros [= ->]; auto | auto].
Qed.

Lemma contains_keys d k : contains d k = true <-> In k (keys d).
Proof.
  unfold contains. rewrite in_keys_get.
  destruct (get d k); split; eauto; try discriminate.
  intros [v H]; discriminate.
Qed.

(** Assignment keeps the keys in place and appends a key that is new. *)
Lemma keys_set d k v :
  keys (set d k v) = if contains d k then keys d else keys d ++ [k].
Proof.
  unfold contains.
  induction d as [|[k' v'] d IH]; simpl; [reflexivity|].
  destruct (String.eqb k' k) eqn:E; simpl; [reflexivity|].
  rewrite IH. now destruct (get d k).
Qed.

Lemma in_keys_set d k v k' : In k' (keys (set d k v)) <-> In k' (keys d) \/ k' = k.
Proof.
  rewrite keys_set. destruct (contains d k) eqn:E.
  - apply contains_keys in E. split; [tauto | intros [H | ->]; auto].
  - rewrite in_app_iff; simpl. intuition.
Qed.

(** Assignment changes at most one value: the values afterwards are the
    image of some index list that draws on the old indices and the new. *)
Lemma values_set {I : Type} (f : I -> string) d k (n : I) (idx : list I) :
  values d = map f idx ->
  exists idx',
    values (set d k (f n)) = map f idx'
    /\ (forall i, In i idx' -> In i idx \/ i = n)
    /\ (NoDup idx -> ~ In n idx -> NoDup idx').
Proof.
  revert idx. induction d as [|[k' v'] d IH]; intros idx Hv; simpl in *.
  - destruct idx; [|discriminate].
    exists [n]. split; [reflexivity|]. split.
    + intros i [<- | []]; now right.
    + intros _ _. constructor; [intros [] | constructor].
  - destruct idx as [|i idx]; [discriminate|].
    simpl in Hv. injection Hv as Hi Hv.
    destruct (String.eqb k' k).
    + exists (n :: idx). simpl. rewrite Hv. repeat split.
      * intros j [<- | Hj]; auto.
      * intros Hnd Hn. inversion Hnd; subst.
        constructor; [tauto | assumption].
    + destruct (IH idx Hv) as (idx' & Hv' & Hin & Hnd).
      exists (i :: idx'). simpl. rewrite Hv', Hi. repeat split.
      * intros j [<- | Hj]; auto. destruct (Hin j Hj); auto.
      * intros Hnd' Hn. inversion Hnd'; subst.
        constructor.
        -- intros Hi'. destruct (Hin i Hi') as [? | ->]; [tauto|]. apply Hn; now left.
        -- apply Hnd; [assumption | tauto].
Qed.

End DictFacts.

(* ------------------------------------------------------------------ *)
(** ** Lists without repetition *)
(* ------------------------------------------------------------------ *)

Lemma NoDup_app_disjoint {A : Type} (a b : list A) :
  NoDup (a ++ b) -> forall x, In x a -> In x b -> False.
Proof.
  induction a as [|y a IH]; simpl; intros Hnd x Ha Hb; [assumption|].
  inversion Hnd as [|? ? Hy Hnd']; subst.
  destruct Ha as [-> | Ha]; [|eauto].
  apply Hy, in_or_app. now right.
Qed.

(** A function whose image of a list has no repetition is injective on it. *)
Lemma NoDup_map_injective {A B : Type} (f : A -> B) (l : list A) :
  NoDup (map f l) -> forall x y, In x l -> In y l -> f x = f y -> x = y.
Proof.
  induction l as [|a l IH]; simpl; intros Hnd x y Hx Hy Hf; [contradiction|].
  inversion Hnd as [|? ? Ha Hnd']; subst.
  destruct Hx as [-> | Hx], Hy as [-> | Hy]; auto.
  - exfalso. apply Ha. rewrite Hf. now apply in_map.
  - exfalso. apply Ha. rewrite <- Hf. now apply in_map.
Qed.

Lemma NoDup_map_on {A B : Type} (f : A -> B) (l : list A) :
  (forall x y, In x l -> In y l -> f x = f y -> x = y) ->
  NoDup l -> NoDup (map f l).
Proof.
  induction l as [|a l IH]; simpl; intros Hinj Hnd; [constructor|].
  inversion Hnd as [|? ? Ha Hnd']; subst.
  constructor.
  - intros Hin. apply in_map_iff in Hin as (x & Hfx & Hx).
    assert (x = a) by (apply Hinj; auto). now subst.
  - apply IH; auto.
Qed.


(* ------------------------------------------------------------------ *)
(** ** Loops that may raise *)
(* ------------------------------------------------------------------ *)

Lemma for_each_ok {A B : Type} (xs : list A) (body : A -> result (list B))
    (f : A -> list B) :
  (forall x, In x xs -> body x = Ok (f x)) ->
  for_each xs body = Ok (flat_map f xs).
Proof.
  induction xs as [|x xs IH]; intros H; simpl; [reflexivity|].
  rewrite (H x (or_introl eq_refl)); simpl.
  rewrite IH by (intros; apply H; now right).
  reflexivity.
Qed.

(* ------------------------------------------------------------------ *)
(** ** Module initialisation *)
(* ------------------------------------------------------------------ *)

Section InitFacts.

Variable rnd : nat -> N.

Lemma allocated_empty lo : allocated rnd lo Dict.empty Dict.empty lo.
Proof.
  split; [reflexivity | lia |].
  exists [], []. split; [reflexivity|]. split; [reflexivity|].
  split; [apply NoDup_nil | intros i []].
Qed.

Lemma allocated_step lo fr bf k f :
  allocated rnd lo fr bf k ->
  allocated rnd lo (Dict.set fr f (uuid_at rnd k)) (Dict.set bf f (uuid_at rnd (S k)))
            (S (S k)).
Proof.
  intros [Hk Hlo (ifr & ibf & Hfr & Hbf & Hnd & Hrg)]. split; [| lia |].
  - rewrite !DictFacts.keys_set. unfold Dict.contains.
    assert (Hc : (exists v, Dict.get fr f = Some v) <-> (exists v, Dict.get bf f = Some v)).
    { rewrite <- !DictFacts.in_keys_get. now rewrite Hk. }
    destruct (Dict.get fr f), (Dict.get bf f); try congruence.
    + destruct Hc as [Hc _]. destruct Hc; eauto; discriminate.
    + destruct Hc as [_ Hc]. destruct Hc; eauto; discriminate.
  - destruct (DictFacts.values_set (uuid_at rnd) fr f k ifr Hfr) as (ifr' & Hfr' & Hin1 & Hnd1).
    destruct (DictFacts.values_set (uuid_at rnd) bf f (S k) ibf Hbf) as (ibf' & Hbf' & Hin2 & Hnd2).
    assert (Hr1 : forall i, In i ifr -> lo <= i < k).
    { intros i Hi. apply Hrg, in_or_app. now left. }
    assert (Hr2 : forall i, In i ibf -> lo <= i < k).
    { intros i Hi. apply Hrg, in_or_app. now right. }
    assert (Hr1' : forall i, In i ifr' -> i <> S k /\ (In i ifr \/ i = k)).
    { intros i Hi. destruct (Hin1 i Hi) as [H | ->]; [|split; [lia | now right]].
      split; [apply Hr1 in H; lia | now left]. }
    assert (Hr2' : forall i, In i ibf' -> i <> k /\ (In i ibf \/ i = S k)).
    { intros i Hi. destruct (Hin2 i Hi) as [H | ->]; [|split; [lia | now right]].
      split; [apply Hr2 in H; lia | now left]. }
    exists ifr', ibf'. split; [assumption|]. split; [assumption|]. split.
    + apply NoDup_app_remove_l in Hnd as Hndb.
      apply NoDup_app_remove_r in Hnd as Hnda.
      apply NoDup_app.
      * apply Hnd1; [assumption|]. intros H. apply Hr1 in H. lia.
      * apply Hnd2; [assumption|]. intros H. apply Hr2 in H. lia.
      * intros i Hi1 Hi2.
        destruct (Hr1' i Hi1) as [Hne1 [Ha | Ha]], (Hr2' i Hi2) as [Hne2 [Hb | Hb]];
          try lia.
        exact (NoDup_app_disjoint _ _ Hnd i Ha Hb).
    + intros i H. apply in_app_or in H.
      destruct H as [H | H].
      * destruct (Hin1 i H) as [H' | ->]; [apply Hr1 in H'|]; lia.
      * destruct (Hin2 i H) as [H' | ->]; [apply Hr2 in H'|]; lia.
Qed.

Lemma assign_ids_spec paths : forall lo fr bf k fr' bf' k',
  assign_ids rnd paths fr bf k = (fr', bf', k') ->
  allocated rnd lo fr bf k ->
  allocated rnd lo fr' bf' k'
  /\ k' = k + 2 * List.length paths
  /\ (forall p, In p (Dict.keys bf') <-> In p (Dict.keys bf) \/ In p paths).
Proof.
  induction paths as [|f paths IH]; intros lo fr bf k fr' bf' k' Heq Hal; simpl in Heq.
  - injection Heq as <- <- <-. split; [assumption|]. split; [simpl; lia|].
    intros p; simpl; tauto.
  - destruct (IH _ _ _ _ _ _ _ Heq (allocated_step _ _ _ _ f Hal)) as (Hal' & Hk & Hkeys).
    split; [assumption|]. split; [simpl; lia|].
    intros p. rewrite Hkeys, DictFacts.in_keys_set. simpl.
    split; intros H; intuition (subst; auto).
Qed.

(** The state after the module body has run. *)
Lemma module_init_allocated sources resources :
  let g := module_init rnd sources resources in
  allocated rnd 16 (file_refs g) (build_files g) (ids_drawn sources resources)
  /\ (forall p, In p (Dict.keys (build_files g)) <-> In p (sources ++ resources))
  /\ SOURCE_FILES g = sources
  /\ RESOURCE_FILES g = resources
  /\ structural_ids g = map (uuid_at rnd) (seq 0 16).
Proof.
  unfold module_init.
  destruct (assign_ids rnd sources Dict.empty Dict.empty 16) as [[fr bf] k] eqn:E1.
  destruct (assign_ids rnd resources fr bf k) as [[fr' bf'] k'] eqn:E2.
  destruct (assign_ids_spec _ _ _ _ _ _ _ _ E1 (allocated_empty 16)) as (H1 & Hk1 & Hkeys1).
  destruct (assign_ids_spec _ _ _ _ _ _ _ _ E2 H1) as (H2 & Hk2 & Hkeys2).
  cbn -[uuid_at ids_drawn].
  split; [|split; [|split; [reflexivity | split; reflexivity]]].
  - replace (ids_drawn sources resources) with k'; [exact H2|].
    unfold ids_drawn. lia.
  - intros p. rewrite Hkeys2, Hkeys1, in_app_iff. simpl. tauto.
Qed.

End InitFacts.

(* ------------------------------------------------------------------ *)
(** ** Reading sections back *)
(* ------------------------------------------------------------------ *)

Lemma sections_from_skip pre rest :
  forallb no_begin_marker pre = true ->
  sections_from None (pre ++ rest) = sections_from None rest.
Proof.
  induction pre as [|l pre IH]; simpl; intros H; [reflexivity|].
  apply andb_true_iff in H as [Hl Hpre].
  unfold no_begin_marker in Hl.
  destruct (begin_marker l); [discriminate | auto].
Qed.

Lemma sections_from_inside name body : forall acc rest,
  forallb no_end_marker body = true ->
  sections_from (Some (name, acc)) (body ++ rest)
  = sections_from (Some (name, rev body ++ acc)) rest.
Proof.
  induction body as [|l body IH]; simpl; intros acc rest H; [reflexivity|].
  apply andb_true_iff in H as [Hl Hbody].
  unfold no_end_marker in Hl.
  destruct (end_marker l); [discriminate|].
  rewrite IH by assumption. now rewrite <- app_assoc.
Qed.

Lemma sections_from_chunk name sec rest :
  chunk name sec ->
  sections_from None (sec ++ rest) = (name, middle sec) :: sections_from None rest.
Proof.
  intros [Hs Hb He Hp].
  set (m := middle sec) in *. rewrite Hs. clearbody m. clear Hs.
  cbn [app sections_from]. rewrite Hb.
  rewrite <- app_assoc, sections_from_inside by assumption.
  cbn [app sections_from]. rewrite He, String.eqb_refl, app_nil_r, rev_involutive.
  reflexivity.
Qed.

Lemma chunk_intro name body :
  begin_marker (begin_line name) = Some name ->
  end_marker (end_line name) = Some name ->
  forallb no_end_marker body = true ->
  chunk name (begin_line name :: body ++ [end_line name]).
Proof.
  intros Hb He Hp.
  assert (Hm : middle (begin_line name :: body ++ [end_line name]) = body).
  { unfold middle. cbn [tl]. apply removelast_last. }
  split; rewrite ?Hm; auto.
Qed.

(** Lines that close no section can be put anywhere strictly inside one. *)
Lemma chunk_insert name pre entries post :
  pre <> [] -> post <> [] ->
  forallb no_end_marker entries = true ->
  chunk name (pre ++ post) ->
  chunk name (pre ++ entries ++ post).
Proof.
  intros Hpre Hpost Hent [Hs Hb He Hp].
  destruct pre as [|b pre]; [congruence|].
  destruct (exists_last Hpost) as (post' & e & ->).
  assert (Hm : middle ((b :: pre) ++ post' ++ [e]) = pre ++ post').
  { unfold middle. cbn [app tl]. rewrite app_assoc. apply removelast_last. }
  rewrite Hm in Hs, Hp.
  cbn [app] in Hs. injection Hs as Hb' Hs.
  rewrite (app_assoc pre post' [e]) in Hs.
  apply app_inj_tail in Hs as [_ He'].
  subst b e.
  replace ((begin_line name :: pre) ++ entries ++ post' ++ [end_line name])
    with (begin_line name :: (pre ++ entries ++ post') ++ [end_line name])
    by (cbn [app]; now rewrite <- !app_assoc).
  apply chunk_intro; try assumption.
  rewrite forallb_app in Hp. apply andb_true_iff in Hp as [Hp1 Hp2].
  now rewrite !forallb_app, Hp1, Hent, Hp2.
Qed.

Lemma flat_map_singleton {A B : Type} (f : A -> B) (l : list A) :
  flat_map (fun x => [f x]) l = map f l.
Proof. induction l; simpl; congruence. Qed.

(* ------------------------------------------------------------------ *)
(** ** The sections of the descriptor, one by one *)
(* ------------------------------------------------------------------ *)

Section Chunks.

Variable g : Globals.

Ltac fixed_chunk := split; reflexivity.

Lemma chunk_PBXFileReference_entries :
  forallb no_end_marker
    (flat_map (fun '(path, uid) => pbx_file_reference path uid) (Dict.items (file_refs g)))
  = true.
Proof.
  induction (Dict.items (file_refs g)) as [|[path uid] l IH]; [reflexivity|].
  cbn [flat_map]. rewrite forallb_app, IH, andb_true_r.
  unfold pbx_file_reference.
  destruct (endswith path ".swift"); [reflexivity|].
  destruct (endswith path ".xcassets"); reflexivity.
Qed.

Lemma chunk_PBXFileReference : chunk "PBXFileReference" (pbx_PBXFileReference g).
Proof.
  unfold pbx_PBXFileReference.
  apply chunk_insert; try discriminate;
    [apply chunk_PBXFileReference_entries | fixed_chunk].
Qed.

Lemma chunk_PBXFrameworksBuildPhase :
  chunk "PBXFrameworksBuildPhase" (pbx_PBXFrameworksBuildPhase g).
Proof. fixed_chunk. Qed.

Lemma chunk_PBXNativeTarget : chunk "PBXNativeTarget" (pbx_PBXNativeTarget g).
Proof. fixed_chunk. Qed.

Lemma chunk_PBXProject : chunk "PBXProject" (pbx_PBXProject g).
Proof. fixed_chunk. Qed.

Lemma chunk_XCBuildConfiguration :
  chunk "XCBuildConfiguration" (pbx_XCBuildConfiguration g).
Proof. fixed_chunk. Qed.

Lemma chunk_XCConfigurationList :
  chunk "XCConfigurationList" (pbx_XCConfigurationList g).
Proof. fixed_chunk. Qed.

Lemma plain_build_file_entries : forallb no_end_marker (build_file_entries g) = true.
Proof.
  unfold build_file_entries.
  induction (Dict.items (build_files g)) as [|[path uid] l IH]; [reflexivity|].
  cbn [map forallb]. now rewrite IH.
Qed.

Lemma plain_group_children : forallb no_end_marker (group_children g) = true.
Proof.
  unfold group_children.
  induction (Dict.items (file_refs g)) as [|[path uid] l IH]; [reflexivity|].
  cbn [map forallb]. now rewrite IH.
Qed.

Lemma plain_resource_entries : forallb no_end_marker (resource_entries g) = true.
Proof. unfold resource_entries. now destruct (Dict.get _ _). Qed.

Lemma plain_source_entries : forallb no_end_marker (source_entries g) = true.
Proof.
  unfold source_entries.
  induction (SOURCE_FILES g) as [|path l IH]; [reflexivity|].
  cbn [map forallb]. now rewrite IH.
Qed.

Lemma chunk_PBXGroup : chunk "PBXGroup" (pbx_PBXGroup g).
Proof.
  unfold pbx_PBXGroup. fold (group_children g).
  apply chunk_insert; try discriminate; [apply plain_group_children | fixed_chunk].
Qed.

Hypothesis keyed : well_keyed g.

Lemma build_file_loop :
  for_each (Dict.items (build_files g))
    (fun '(path, uid) =>
       try fref := Dict.lookup (file_refs g) path in
       Ok [pbx_build_file_line (basename path) uid fref])
  = Ok (build_file_entries g).
Proof.
  unfold build_file_entries.
  rewrite <- flat_map_singleton.
  apply for_each_ok. intros [path uid] Hin.
  assert (Hk : In path (Dict.keys (file_refs g))).
  { destruct keyed as [-> _]. apply in_map_iff. now exists (path, uid). }
  apply DictFacts.in_keys_get in Hk as [v Hv].
  unfold Dict.lookup, fref_of. now rewrite Hv.
Qed.

Lemma source_loop :
  for_each (SOURCE_FILES g)
    (fun path =>
       try uid := Dict.lookup (build_files g) path in
       Ok [pbx_source_entry_line (basename path) uid])
  = Ok (source_entries g).
Proof.
  unfold source_entries.
  rewrite <- flat_map_singleton.
  apply for_each_ok. intros path Hin.
  destruct keyed as [_ Hsrc].
  apply Hsrc, DictFacts.in_keys_get in Hin as [v Hv].
  unfold Dict.lookup, build_id_of. now rewrite Hv.
Qed.

Lemma resource_branch :
  (if Dict.contains (build_files g) ASSETS_XCASSETS then
     try uid := Dict.lookup (build_files g) ASSETS_XCASSETS in
     Ok [pbx_resource_entry_line (basename ASSETS_XCASSETS) uid]
   else Ok [])
  = Ok (resource_entries g).
Proof.
  unfold Dict.contains, Dict.lookup, resource_entries.
  now destruct (Dict.get (build_files g) ASSETS_XCASSETS).
Qed.

Lemma chunk_PBXBuildFile : chunk "PBXBuildFile" (unwrap (pbx_PBXBuildFile g)).
Proof.
  unfold pbx_PBXBuildFile. rewrite build_file_loop. cbn [rbind unwrap].
  apply chunk_insert; try discriminate; [apply plain_build_file_entries | fixed_chunk].
Qed.

Lemma chunk_PBXResourcesBuildPhase :
  chunk "PBXResourcesBuildPhase" (unwrap (pbx_PBXResourcesBuildPhase g)).
Proof.
  unfold pbx_PBXResourcesBuildPhase. rewrite resource_branch. cbn [rbind unwrap].
  apply chunk_insert; try discriminate; [apply plain_resource_entries | fixed_chunk].
Qed.

Lemma chunk_PBXSourcesBuildPhase :
  chunk "PBXSourcesBuildPhase" (unwrap (pbx_PBXSourcesBuildPhase g)).
Proof.
  unfold pbx_PBXSourcesBuildPhase. rewrite source_loop. cbn [rbind unwrap].
  apply chunk_insert; try discriminate; [apply plain_source_entries | fixed_chunk].
Qed.

(** With the dictionaries keyed as the module body leaves them, no
    subscript of [pbxproj] fails. *)
Lemma pbxproj_lines_ok : pbxproj_lines g = Ok (descriptor g).
Proof.
  unfold pbxproj_lines, descriptor, pbx_PBXBuildFile, pbx_PBXResourcesBuildPhase,
    pbx_PBXSourcesBuildPhase.
  rewrite build_file_loop, resource_branch, source_loop. reflexivity.
Qed.

Lemma pbxproj_ok : pbxproj g = Ok (join nl (map render_line (descriptor g))).
Proof. unfold pbxproj. now rewrite pbxproj_lines_ok. Qed.

(** The descriptor read back section by section. *)
Lemma sections_descriptor :
  sections (descriptor g)
  = [ ("PBXBuildFile"%string, middle (unwrap (pbx_PBXBuildFile g)));
      ("PBXFileReference"%string, middle (pbx_PBXFileReference g));
      ("PBXFrameworksBuildPhase"%string, middle (pbx_PBXFrameworksBuildPhase g));
      ("PBXGroup"%string, middle (pbx_PBXGroup g));
      ("PBXNativeTarget"%string, middle (pbx_PBXNativeTarget g));
      ("PBXProject"%string, middle (pbx_PBXProject g));
      ("PBXResourcesBuildPhase"%string, middle (unwrap (pbx_PBXResourcesBuildPhase g)));
      ("PBXSourcesBuildPhase"%string, middle (unwrap (pbx_PBXSourcesBuildPhase g)));
      ("XCBuildConfiguration"%string, middle (pbx_XCBuildConfiguration g));
      ("XCConfigurationList"%string, middle (pbx_XCConfigurationList g)) ].
Proof.
  unfold sections, descriptor.
  rewrite sections_from_skip by reflexivity.
  rewrite (sections_from_chunk _ _ _ chunk_PBXBuildFile).
  rewrite (sections_from_chunk _ _ _ chunk_PBXFileReference).
  rewrite (sections_from_chunk _ _ _ chunk_PBXFrameworksBuildPhase).
  rewrite (sections_from_chunk _ _ _ chunk_PBXGroup).
  rewrite (sections_from_chunk _ _ _ chunk_PBXNativeTarget).
  rewrite (sections_from_chunk _ _ _ chunk_PBXProject).
  rewrite (sections_from_chunk _ _ _ chunk_PBXResourcesBuildPhase).
  rewrite (sections_from_chunk _ _ _ chunk_PBXSourcesBuildPhase).
  rewrite (sections_from_chunk _ _ _ chunk_XCBuildConfiguration).
  rewrite (sections_from_chunk _ _ _ chunk_XCConfigurationList).
  reflexivity.
Qed.

End Chunks.

(* ------------------------------------------------------------------ *)
(** ** Identifiers and objects of each section *)
(* ------------------------------------------------------------------ *)

Lemma defined_ids_app a b : defined_ids (a ++ b) = defined_ids a ++ defined_ids b.
Proof. apply flat_map_app. Qed.

Lemma referenced_ids_app a b : referenced_ids (a ++ b) = referenced_ids a ++ referenced_ids b.
Proof. apply flat_map_app. Qed.

Lemma middle_insert (pre entries post : list line) :
  pre <> [] -> post <> [] ->
  middle (pre ++ entries ++ post) = tl pre ++ entries ++ removelast post.
Proof.
  intros Hpre Hpost. destruct pre as [|b pre]; [congruence|].
  destruct (exists_last Hpost) as (post' & e & ->).
  unfold middle. cbn [app tl]. rewrite removelast_last, !app_assoc.
  apply removelast_last.
Qed.

(** Lines without a defining occurrence add their cross-references to the
    object being read. *)
Lemma objects_from_refs d refs ls rest :
  defined_ids ls = [] ->
  objects_from (Some (d, refs)) (ls ++ rest)
  = objects_from (Some (d, refs ++ referenced_ids ls)) rest.
Proof.
  revert refs. induction ls as [|l ls IH]; intros refs H; cbn [app].
  - cbn. now rewrite app_nil_r.
  - cbn [defined_ids flat_map] in H. apply app_eq_nil in H as [Hl Hls].
    cbn [objects_from]. rewrite Hl, IH by assumption.
    cbn [referenced_ids flat_map]. now rewrite app_assoc.
Qed.

Lemma defined_ids_map {A : Type} (mk : A -> line) (d : A -> list string) l :
  (forall x, line_defs (mk x) = d x) ->
  defined_ids (map mk l) = flat_map d l.
Proof.
  intros H. induction l as [|x l IH]; [reflexivity|].
  cbn [map defined_ids flat_map]. fold (defined_ids (map mk l)).
  now rewrite H, IH.
Qed.

Lemma referenced_ids_map {A : Type} (mk : A -> line) (r : A -> list string) l :
  (forall x, line_refs (mk x) = r x) ->
  referenced_ids (map mk l) = flat_map r l.
Proof.
  intros H. induction l as [|x l IH]; [reflexivity|].
  cbn [map referenced_ids flat_map]. fold (referenced_ids (map mk l)).
  now rewrite H, IH.
Qed.

Lemma flat_map_nil {A B : Type} (l : list A) : flat_map (fun _ => @nil B) l = [].
Proof. induction l; simpl; auto. Qed.

Section SectionContents.

Variable g : Globals.

Lemma ids_build_file_entries :
  defined_ids (build_file_entries g) = Dict.values (build_files g)
  /\ referenced_ids (build_file_entries g) = map (fref_of g) (Dict.keys (build_files g)).
Proof.
  unfold build_file_entries, Dict.values, Dict.keys, Dict.items. split.
  - rewrite (defined_ids_map _ (fun kv => [snd kv])); [apply flat_map_singleton|].
    now intros [path uid].
  - rewrite (referenced_ids_map _ (fun kv => [fref_of g (fst kv)])).
    + now rewrite flat_map_singleton, map_map.
    + now intros [path uid].
Qed.

Lemma ids_group_children :
  defined_ids (group_children g) = []
  /\ referenced_ids (group_children g) = Dict.values (file_refs g).
Proof.
  unfold group_children, Dict.values, Dict.items. split.
  - rewrite (defined_ids_map _ (fun _ => [])); [apply flat_map_nil|].
    now intros [path uid].
  - rewrite (referenced_ids_map _ (fun kv => [snd kv])); [apply flat_map_singleton|].
    now intros [path uid].
Qed.

Lemma ids_source_entries :
  defined_ids (source_entries g) = []
  /\ referenced_ids (source_entries g) = map (build_id_of g) (SOURCE_FILES g).
Proof.
  unfold source_entries. split.
  - rewrite (defined_ids_map _ (fun _ => [])); [apply flat_map_nil | reflexivity].
  - rewrite (referenced_ids_map _ (fun p => [build_id_of g p]));
      [apply flat_map_singleton | reflexivity].
Qed.

Lemma ids_resource_entries :
  defined_ids (resource_entries g) = []
  /\ referenced_ids (resource_entries g) = resource_phase_ids g.
Proof.
  unfold resource_entries, resource_phase_ids.
  destruct (Dict.get _ _); split; reflexivity.
Qed.

Lemma ids_file_references :
  defined_ids (flat_map (fun '(path, uid) => pbx_file_reference path uid)
                        (Dict.items (file_refs g)))
  = file_reference_ids g
  /\ referenced_ids (flat_map (fun '(path, uid) => pbx_file_reference path uid)
                              (Dict.items (file_refs g)))
     = [].
Proof.
  unfold file_reference_ids, Dict.items.
  induction (file_refs g) as [|[path uid] l [IH1 IH2]]; [split; reflexivity|].
  cbn [flat_map]. rewrite defined_ids_app, referenced_ids_app, IH1, IH2.
  unfold pbx_file_reference, recognised.
  destruct (endswith path ".swift"); [split; reflexivity|].
  destruct (endswith path ".xcassets"); split; reflexivity.
Qed.

Hypothesis keyed : well_keyed g.

(** Every identifier with an object of its own, in text order. *)
Lemma defined_ids_descriptor :
  defined_ids (descriptor g)
  = Dict.values (build_files g)
    ++ [SWIFTDATA_BUILD_UUID g]
    ++ file_reference_ids g
    ++ [ PRODUCT_REF_UUID g; SWIFTDATA_FW_REF_UUID g; FRAMEWORKS_PHASE_UUID g;
         MAIN_GROUP_UUID g; PRODUCTS_GROUP_UUID g; TARGET_UUID g; PROJECT_UUID g;
         RESOURCES_PHASE_UUID g; SOURCES_PHASE_UUID g;
         DEBUG_CONFIG_UUID g; RELEASE_CONFIG_UUID g;
         TARGET_DEBUG_CFG_UUID g; TARGET_RELEASE_CFG_UUID g;
         PROJECT_CFGLIST_UUID g; TARGET_CFGLIST_UUID g ].
Proof.
  unfold descriptor, pbx_PBXBuildFile, pbx_PBXResourcesBuildPhase,
    pbx_PBXSourcesBuildPhase, pbx_PBXFileReference, pbx_PBXGroup.
  rewrite (build_file_loop g keyed), (resource_branch g), (source_loop g keyed).
  cbn [rbind unwrap]. fold (group_children g).
  rewrite !defined_ids_app.
  rewrite (proj1 ids_build_file_entries), (proj1 ids_file_references),
    (proj1 ids_group_children), (proj1 ids_resource_entries),
    (proj1 ids_source_entries).
  cbn -[file_reference_ids Dict.values]. rewrite <- !app_assoc. reflexivity.
Qed.

(** Every cross-reference, in text order. *)
Lemma referenced_ids_descriptor :
  referenced_ids (descriptor g)
  = map (fref_of g) (Dict.keys (build_files g))
    ++ [SWIFTDATA_FW_REF_UUID g; SWIFTDATA_BUILD_UUID g]
    ++ Dict.values (file_refs g)
    ++ [ PRODUCTS_GROUP_UUID g; SWIFTDATA_FW_REF_UUID g; PRODUCT_REF_UUID g;
         TARGET_CFGLIST_UUID g; SOURCES_PHASE_UUID g; RESOURCES_PHASE_UUID g;
         FRAMEWORKS_PHASE_UUID g; PRODUCT_REF_UUID g;
         TARGET_UUID g; PROJECT_CFGLIST_UUID g; MAIN_GROUP_UUID g;
         PRODUCTS_GROUP_UUID g; TARGET_UUID g ]
    ++ resource_phase_ids g
    ++ map (build_id_of g) (SOURCE_FILES g)
    ++ [ DEBUG_CONFIG_UUID g; RELEASE_CONFIG_UUID g;
         TARGET_DEBUG_CFG_UUID g; TARGET_RELEASE_CFG_UUID g;
         PROJECT_UUID g ].
Proof.
  unfold descriptor, pbx_PBXBuildFile, pbx_PBXResourcesBuildPhase,
    pbx_PBXSourcesBuildPhase, pbx_PBXFileReference, pbx_PBXGroup.
  rewrite (build_file_loop g keyed), (resource_branch g), (source_loop g keyed).
  cbn [rbind unwrap]. fold (group_children g).
  rewrite !referenced_ids_app.
  rewrite (proj2 ids_build_file_entries), (proj2 ids_file_references),
    (proj2 ids_group_children), (proj2 ids_resource_entries),
    (proj2 ids_source_entries).
  cbn -[resource_phase_ids Dict.values Dict.keys fref_of build_id_of].
  rewrite <- !app_assoc. reflexivity.
Qed.

End SectionContents.

(* ------------------------------------------------------------------ *)
(** ** The descriptor of a generated project *)
(* ------------------------------------------------------------------ *)

Lemma module_init_keyed rnd sources resources :
  well_keyed (module_init rnd sources resources).
Proof.
  destruct (module_init_allocated rnd sources resources) as ([Hk _ _] & Hkeys & Hsrc & _).
  split; [exact Hk|].
  intros p Hp. rewrite Hsrc in Hp. apply Hkeys, in_or_app. now left.
Qed.

Lemma fref_in_values g path :
  In path (Dict.keys (file_refs g)) -> In (fref_of g path) (Dict.values (file_refs g)).
Proof.
  intros H. apply DictFacts.in_keys_get in H as [v Hv].
  unfold fref_of. rewrite Hv. eapply DictFacts.get_in_values; eauto.
Qed.

Lemma build_id_in_values g path :
  In path (Dict.keys (build_files g)) -> In (build_id_of g path) (Dict.values (build_files g)).
Proof.
  intros H. apply DictFacts.in_keys_get in H as [v Hv].
  unfold build_id_of. rewrite Hv. eapply DictFacts.get_in_values; eauto.
Qed.

Lemma resource_phase_ids_in_values g id :
  In id (resource_phase_ids g) -> In id (Dict.values (build_files g)).
Proof.
  unfold resource_phase_ids.
  destruct (Dict.get (build_files g) ASSETS_XCASSETS) eqn:E; [|intros []].
  intros [<- | []]. eapply DictFacts.get_in_values; eauto.
Qed.



(* ------------------------------------------------------------------ *)
(** ** Objects of each section *)
(* ------------------------------------------------------------------ *)

Section SectionObjects.

Variable g : Globals.
Hypothesis keyed : well_keyed g.

Lemma section_descriptor name :
  section name (descriptor g)
  = match find (fun s => String.eqb (fst s) name) (sections (descriptor g)) with
    | Some s => snd s
    | None => []
    end.
Proof. reflexivity. Qed.

Ltac norm_app :=
  repeat first [rewrite <- app_assoc | rewrite app_nil_r | progress cbn [app]].

Ltac read_section :=
  unfold section; rewrite (sections_descriptor g keyed); reflexivity.

Lemma section_PBXFileReference :
  section "PBXFileReference" (descriptor g) = middle (pbx_PBXFileReference g).
Proof. read_section. Qed.

Lemma section_PBXFrameworksBuildPhase :
  section "PBXFrameworksBuildPhase" (descriptor g) = middle (pbx_PBXFrameworksBuildPhase g).
Proof. read_section. Qed.

Lemma section_PBXGroup :
  section "PBXGroup" (descriptor g) = middle (pbx_PBXGroup g).
Proof. read_section. Qed.

Lemma section_PBXNativeTarget :
  section "PBXNativeTarget" (descriptor g) = middle (pbx_PBXNativeTarget g).
Proof. read_section. Qed.

Lemma section_PBXProject :
  section "PBXProject" (descriptor g) = middle (pbx_PBXProject g).
Proof. read_section. Qed.

Lemma section_PBXResourcesBuildPhase :
  section "PBXResourcesBuildPhase" (descriptor g)
  = middle (unwrap (pbx_PBXResourcesBuildPhase g)).
Proof. read_section. Qed.

Lemma section_PBXSourcesBuildPhase :
  section "PBXSourcesBuildPhase" (descriptor g)
  = middle (unwrap (pbx_PBXSourcesBuildPhase g)).
Proof. read_section. Qed.

Lemma section_XCBuildConfiguration :
  section "XCBuildConfiguration" (descriptor g) = middle (pbx_XCBuildConfiguration g).
Proof. read_section. Qed.

Lemma section_XCConfigurationList :
  section "XCConfigurationList" (descriptor g) = middle (pbx_XCConfigurationList g).
Proof. read_section. Qed.

(** The sources phase is one object whose files are the build-membership
    identifiers of [SOURCE_FILES], in order. *)
Lemma objects_PBXSourcesBuildPhase :
  objects (section "PBXSourcesBuildPhase" (descriptor g))
  = [(SOURCES_PHASE_UUID g, map (build_id_of g) (SOURCE_FILES g))].
Proof.
  rewrite section_PBXSourcesBuildPhase.
  unfold pbx_PBXSourcesBuildPhase. rewrite (source_loop g keyed). cbn [rbind unwrap].
  rewrite middle_insert by discriminate.
  unfold objects. cbn [tl app objects_from line_defs line_refs flat_map].
  rewrite objects_from_refs by apply (ids_source_entries g).
  rewrite (proj2 (ids_source_entries g)).
  cbn [removelast objects_from line_defs line_refs flat_map app].
  now norm_app.
Qed.

(** The resources phase is one object; its only possible file is the
    build-membership identifier of [ASSETS_XCASSETS]. *)
Lemma objects_PBXResourcesBuildPhase :
  objects (section "PBXResourcesBuildPhase" (descriptor g))
  = [(RESOURCES_PHASE_UUID g, resource_phase_ids g)].
Proof.
  rewrite section_PBXResourcesBuildPhase.
  unfold pbx_PBXResourcesBuildPhase. rewrite (resource_branch g). cbn [rbind unwrap].
  rewrite middle_insert by discriminate.
  unfold objects. cbn [tl app objects_from line_defs line_refs flat_map].
  rewrite objects_from_refs by apply (ids_resource_entries g).
  rewrite (proj2 (ids_resource_entries g)).
  cbn [removelast objects_from line_defs line_refs flat_map app].
  now norm_app.
Qed.

(** The group section is the main group, whose children are every file
    reference, the Products group and the framework, and the Products
    group, whose child is the product. *)
Lemma objects_PBXGroup :
  objects (section "PBXGroup" (descriptor g))
  = [ (MAIN_GROUP_UUID g,
       Dict.values (file_refs g) ++ [PRODUCTS_GROUP_UUID g; SWIFTDATA_FW_REF_UUID g]);
      (PRODUCTS_GROUP_UUID g, [PRODUCT_REF_UUID g]) ].
Proof.
  rewrite section_PBXGroup.
  unfold pbx_PBXGroup. fold (group_children g).
  rewrite middle_insert by discriminate.
  unfold objects. cbn [tl app objects_from line_defs line_refs flat_map].
  rewrite objects_from_refs by apply (ids_group_children g).
  rewrite (proj2 (ids_group_children g)).
  cbn [removelast objects_from line_defs line_refs flat_map app].
  now norm_app.
Qed.

Lemma objects_PBXFrameworksBuildPhase :
  objects (section "PBXFrameworksBuildPhase" (descriptor g))
  = [(FRAMEWORKS_PHASE_UUID g, [SWIFTDATA_BUILD_UUID g])].
Proof. rewrite section_PBXFrameworksBuildPhase. reflexivity. Qed.

Lemma objects_PBXNativeTarget :
  objects (section "PBXNativeTarget" (descriptor g))
  = [(TARGET_UUID g,
      [ TARGET_CFGLIST_UUID g; SOURCES_PHASE_UUID g; RESOURCES_PHASE_UUID g;
        FRAMEWORKS_PHASE_UUID g; PRODUCT_REF_UUID g ])].
Proof. rewrite section_PBXNativeTarget. reflexivity. Qed.

Lemma objects_PBXProject :
  objects (section "PBXProject" (descriptor g))
  = [(PROJECT_UUID g,
      [ TARGET_UUID g; PROJECT_CFGLIST_UUID g; MAIN_GROUP_UUID g;
        PRODUCTS_GROUP_UUID g; TARGET_UUID g ])].
Proof. rewrite section_PBXProject. reflexivity. Qed.

Lemma objects_XCBuildConfiguration :
  objects (section "XCBuildConfiguration" (descriptor g))
  = [ (DEBUG_CONFIG_UUID g, []); (RELEASE_CONFIG_UUID g, []);
      (TARGET_DEBUG_CFG_UUID g, []); (TARGET_RELEASE_CFG_UUID g, []) ].
Proof. rewrite section_XCBuildConfiguration. reflexivity. Qed.

Lemma heads_XCBuildConfiguration :
  object_heads (section "XCBuildConfiguration" (descriptor g))
  = [ (tabs 2 ++ DEBUG_CONFIG_UUID g ++ " /* Debug */ = {")%string;
      (tabs 2 ++ RELEASE_CONFIG_UUID g ++ " /* Release */ = {")%string;
      (tabs 2 ++ TARGET_DEBUG_CFG_UUID g ++ " /* Debug */ = {")%string;
      (tabs 2 ++ TARGET_RELEASE_CFG_UUID g ++ " /* Release */ = {")%string ].
Proof. rewrite section_XCBuildConfiguration. reflexivity. Qed.

Lemma objects_XCConfigurationList :
  objects (section "XCConfigurationList" (descriptor g))
  = [ (PROJECT_CFGLIST_UUID g, [DEBUG_CONFIG_UUID g; RELEASE_CONFIG_UUID g]);
      (TARGET_CFGLIST_UUID g, [TARGET_DEBUG_CFG_UUID g; TARGET_RELEASE_CFG_UUID g]) ].
Proof. rewrite section_XCConfigurationList. reflexivity. Qed.

End SectionObjects.

Lemma mem_In s l : mem s l = true -> In s l.
Proof.
  unfold mem. intros H. apply existsb_exists in H as (x & Hx & E).
  apply String.eqb_eq in E. now subst.
Qed.

Lemma In_mem s l : In s l -> mem s l = true.
Proof.
  intros H. apply existsb_exists. exists s. split; [assumption | apply String.eqb_refl].
Qed.

Lemma no_duplicate_NoDup l : has_duplicate l = false -> NoDup l.
Proof.
  induction l as [|x l IH]; simpl; intros H; [constructor|].
  apply orb_false_iff in H as [Hx Hl].
  constructor; [|auto].
  intros Hin. apply In_mem in Hin. congruence.
Qed.







(** C9. For the manifest whose one entry is [App/Widget.ext], on an empty
    disk: the generator finishes without raising, no line of the
    descriptor says "unknown", the build file and the main group both
    reference the entry's file-reference identifier, and no object is
    defined under it: the file-reference section holds only the product and
    the framework. *)
Theorem widget_ext_file_reference_absent :
  let g := module_init counter_rnd ["App/Widget.ext"%string] [] in
  fst (generator counter_rnd ["App/Widget.ext"%string] [] (MemFS.world [])) = Ok tt
  /\ exists lines fref,
       pbxproj_lines g = Ok lines
       /\ Dict.get (file_refs g) "App/Widget.ext" = Some fref
       /\ forallb (fun l => negb (contains_text "unknown" (render_line l))) lines = true
       /\ flat_map snd (objects (section "PBXBuildFile" lines))
          = [fref; SWIFTDATA_FW_REF_UUID g]
       /\ In fref (flat_map snd (objects (section "PBXGroup" lines)))
       /\ defined_ids (section "PBXFileReference" lines)
          = [PRODUCT_REF_UUID g; SWIFTDATA_FW_REF_UUID g]
       /\ definitions_of fref lines = 0.
Proof.
  intros g. split; [vm_compute; reflexivity|].
  exists (descriptor g), (uuid_at counter_rnd 16).
  split; [apply pbxproj_lines_ok, module_init_keyed|].
  split; [vm_compute; reflexivity|].
  split; [vm_compute; reflexivity|].
  split; [vm_compute; reflexivity|].
  split; [apply mem_In; vm_compute; reflexivity|].
  split; vm_compute; reflexivity.
Qed.

(* ------------------------------------------------------------------ *)
(** ** Running [main] *)
(* ------------------------------------------------------------------ *)

Section Runs.

Context {os : FileSystem}.

Lemma bind_ok {A B : Type} (m : IO os A) (k : A -> IO os B) w a w' :
  m w = (Ok a, w') -> bind m k w = k a w'.
Proof. unfold bind. now intros ->. Qed.

Lemma bind_raise {A B : Type} (m : IO os A) (k : A -> IO os B) w e w' :
  m w = (Raise e, w') -> bind m k w = (Raise e, w').
Proof. unfold bind. now intros ->. Qed.

Lemma bind_lift_ok {A B : Type} (r : result A) (k : A -> IO os B) w a :
  r = Ok a -> bind (lift r) k w = k a w.
Proof. intros ->. reflexivity. Qed.

(** A call that returns is recorded and the run goes on; a call that raises
    ends the run with its exception. *)
Lemma bind_perform {B : Type} (e : event) (k : unit -> IO os B) (w : World os) :
  bind (perform e) k w
  = match call e (fs w) with
    | (None, s) => k tt {| fs := s; trace := trace w ++ [e] |}
    | (Some x, s) => (Raise x, {| fs := s; trace := trace w |})
    end.
Proof. unfold bind, perform. destruct (call e (fs w)) as [[x|] s]; reflexivity. Qed.

Lemma run_calls_app (a b : list event) : forall s : FS os,
  run_calls (a ++ b) s
  = match run_calls a s with
    | (done, None, s') =>
        let '(done', raised, s'') := run_calls b s' in (done ++ done', raised, s'')
    | (done, Some x, s') => (done, Some x, s')
    end.
Proof.
  induction a as [|e a IH]; intros s; cbn [app run_calls].
  - now destruct (run_calls b s) as [[done raised] s'].
  - destruct (call e s) as [[x|] s']; [reflexivity|].
    rewrite IH. destruct (run_calls a s') as [[done [x|]] s'']; [reflexivity|].
    now destruct (run_calls b s'') as [[done' raised] s3].
Qed.

(** The calls that returned are the first calls of the plan; when none
    raised they are the whole plan, and otherwise the next call of the plan,
    made on the disk the calls before it left, is the one that raised. *)
Lemma run_calls_stops (plan : list event) : forall (s : FS os) done raised s',
  run_calls plan s = (done, raised, s') ->
  match raised with
  | None => plan = done
  | Some x =>
      exists next rest s0,
        plan = done ++ next :: rest
        /\ run_calls done s = (done, None, s0)
        /\ call next s0 = (Some x, s')
  end.
Proof.
  induction plan as [|e plan IH]; intros s done raised s' H; cbn [run_calls] in H.
  - now injection H as <- <- <-.
  - destruct (call e s) as [[x|] s1] eqn:E.
    + injection H as <- <- <-. exists e, plan, s. now split.
    + destruct (run_calls plan s1) as [[done1 raised1] s2] eqn:E1.
      injection H as <- <- <-. specialize (IH _ _ _ _ E1).
      destruct raised1 as [x|].
      * destruct IH as (next & rest & s0 & -> & Hdone & Hnext).
        exists next, rest, s0. split; [reflexivity|]. split; [|exact Hnext].
        cbn [run_calls]. now rewrite E, Hdone.
      * now subst.
Qed.

(** Printing and looking a path up leave the disk as it is. *)
Lemma run_calls_quiet (plan : list event) (s : FS os) :
  forallb (fun e => negb (is_fs_write e)) plan = true ->
  snd (run_calls plan s) = s.
Proof.
  induction plan as [|e plan IH]; intros H; [reflexivity|].
  cbn [forallb] in H. apply andb_true_iff in H as [He H].
  cbn [run_calls]. destruct e; try discriminate; cbn [call].
  - specialize (IH H). now destruct (run_calls plan s) as [[done raised] s'].
  - destruct (os_print os text s); [reflexivity|].
    specialize (IH H). now destruct (run_calls plan s) as [[done raised] s'].
Qed.

Lemma check_events_quiet (present : string -> bool) paths :
  forallb (fun e => negb (is_fs_write e)) (check_events present paths) = true.
Proof. induction paths as [|p paths IH]; [reflexivity | exact IH]. Qed.

Lemma summary_events_quiet missing :
  forallb (fun e => negb (is_fs_write e)) (summary_events missing) = true.
Proof. destruct missing; reflexivity. Qed.

(** The verification loop is its calls: it looks every path up on the disk
    it finds, prints one line per path and collects the misses; only a
    [print] that raises cuts it short. *)
Lemma check_source_files_calls paths : forall missing (w : World os),
  check_source_files paths missing w
  = match run_calls (check_events (fun p => os_path_exists os p (fs w)) paths) (fs w) with
    | (done, None, s) =>
        (Ok (missing ++ missing_paths (fun p => os_path_exists os p (fs w)) paths),
         {| fs := s; trace := trace w ++ done |})
    | (done, Some x, s) => (Raise x, {| fs := s; trace := trace w ++ done |})
    end.
Proof.
  induction paths as [|p paths IH]; intros missing w.
  - destruct w. cbn. now rewrite !app_nil_r.
  - cbn [check_source_files]. unfold bind at 1, path_exists.
    cbn [missing_paths check_events filter flat_map app run_calls call].
    fold (check_events (fun p => os_path_exists os p (fs w)) paths).
    destruct (os_path_exists os p (fs w)) eqn:E; cbn [negb];
      unfold print; rewrite bind_perform; cbn [emit fs trace call];
      (destruct (os_print os _ (fs w)) as [x|];
       [rewrite <- ?app_assoc; reflexivity|]);
      rewrite IH; cbn [fs trace];
      destruct (run_calls _ (fs w)) as [[done [x|]] s];
      rewrite <- ?app_assoc; cbn [app]; reflexivity.
Qed.

End Runs.

Section MainRuns.

Context {os : FileSystem}.

Ltac close_branch :=
  cbn [ended]; rewrite <- ?app_assoc; cbn [app]; rewrite ?app_nil_r; reflexivity.

Ltac step :=
  first [rewrite bind_perform | unfold perform at 1];
  cbn [fs trace];
  lazymatch goal with
  | |- context [call ?e ?s] =>
      let x := fresh "x" in
      let s' := fresh "s" in
      destruct (call e s) as [[x|] s'];
      cbn [run_calls fst snd app];
      [close_branch|]
  end.

(** [create_asset_catalog] is its seven calls. *)
Lemma create_asset_catalog_calls (w : World os) :
  create_asset_catalog w = ended w (run_calls asset_catalog_events (fs w)).
Proof.
  unfold create_asset_catalog, asset_catalog_events, print, makedirs, write_text, assets_base.
  cbn [run_calls].
  do 7 step. close_branch.
Qed.

(** A run of [main] is its calls, made in turn: it ends when they are all
    made, or on the exception of the first one that raises. *)
Lemma main_as_calls g content (w : World os) :
  pbxproj g = Ok content ->
  main g w = ended w (run_calls (planned (fs w) content (SOURCE_FILES g)) (fs w)).
Proof.
  intros Hcontent.
  unfold main. cbv zeta.
  change (path_join "EMCopilot.xcodeproj" "project.pbxproj") with proj_path.
  unfold create_asset_catalog, planned, full_trace, setup_events,
    print, makedirs, write_text, assets_base, proj_path.
  cbn [app run_calls].
  step. step.
  rewrite (bind_lift_ok _ _ _ _ Hcontent).
  do 2 step. unfold bind at 1. do 7 step. step.
  unfold bind at 1. rewrite check_source_files_calls. cbn [fs trace].
  rewrite run_calls_app.
  lazymatch goal with
  | |- context [run_calls (check_events ?P ?paths) ?s] =>
      destruct (run_calls (check_events P paths) s) as [[done [x|]] s'] eqn:Eloop
  end.
  { cbn [fst snd]. close_branch. }
  cbn [app].
  destruct (missing_paths _ (SOURCE_FILES g)) as [|m ms];
    cbn [summary_events map guidance_lines run_calls].
  - do 8 step. cbn [fst snd]. close_branch.
  - unfold warning_line. do 2 step. cbn [fst snd]. close_branch.
Qed.

End MainRuns.

(* ------------------------------------------------------------------ *)
(** ** The renderer as a function *)
(* ------------------------------------------------------------------ *)

(** [pbxproj] reads the source manifest, the structural identifiers and the
    two dictionaries, and nothing else. *)
Lemma pbxproj_inputs (g g' : Globals) :
  SOURCE_FILES g' = SOURCE_FILES g ->
  structural_ids g' = structural_ids g ->
  file_refs g' = file_refs g ->
  build_files g' = build_files g ->
  pbxproj g' = pbxproj g.
Proof.
  destruct g, g'. cbn [SOURCE_FILES structural_ids file_refs build_files
                       PROJECT_UUID MAIN_GROUP_UUID PRODUCTS_GROUP_UUID TARGET_UUID
                       PRODUCT_REF_UUID SOURCES_PHASE_UUID RESOURCES_PHASE_UUID
                       FRAMEWORKS_PHASE_UUID DEBUG_CONFIG_UUID RELEASE_CONFIG_UUID
                       TARGET_DEBUG_CFG_UUID TARGET_RELEASE_CFG_UUID
                       PROJECT_CFGLIST_UUID TARGET_CFGLIST_UUID
                       SWIFTDATA_FW_REF_UUID SWIFTDATA_BUILD_UUID].
  intros -> Hids -> ->. injection Hids as -> -> -> -> -> -> -> -> -> -> -> -> -> -> -> ->.
  reflexivity.
Qed.

(** C4. For a fixed manifest and identifier assignment, [pbxproj] returns,
    and returns the same text on every call: in whatever world it is called,
    under whatever resource manifest, and twice in a row; the world is left
    as it was. *)
Theorem pbxproj_deterministic {os : FileSystem} (rnd : nat -> N)
    (sources resources : list string) (g' : Globals) (w w' : World os) :
  let g := module_init rnd sources resources in
  SOURCE_FILES g' = SOURCE_FILES g ->
  structural_ids g' = structural_ids g ->
  file_refs g' = file_refs g ->
  build_files g' = build_files g ->
  exists text,
    lift (pbxproj g) w = (Ok text, w)
    /\ lift (pbxproj g') w' = (Ok text, w')
    /\ (first <- lift (pbxproj g) ;; second <- lift (pbxproj g) ;; ret (first, second)) w
       = (Ok (text, text), w).
Proof.
  intros g Hsrc Hids Hfr Hbf.
  pose proof (pbxproj_ok g (module_init_keyed rnd sources resources)) as Hok.
  exists (join nl (map render_line (descriptor g))).
  unfold lift, bind, ret.
  rewrite (pbxproj_inputs g g' Hsrc Hids Hfr Hbf), Hok. auto.
Qed.

(** The same manifest and identifiers under another resource list and on
    another disk give the same text. *)
Lemma pbxproj_deterministic_witness :
  let g := module_init counter_rnd Manifest.SOURCE_FILES Manifest.RESOURCE_FILES in
  let g' :=
    {| SOURCE_FILES := SOURCE_FILES g;
       RESOURCE_FILES := [];
       PROJECT_UUID := PROJECT_UUID g;
       MAIN_GROUP_UUID := MAIN_GROUP_UUID g;
       PRODUCTS_GROUP_UUID := PRODUCTS_GROUP_UUID g;
       TARGET_UUID := TARGET_UUID g;
       PRODUCT_REF_UUID := PRODUCT_REF_UUID g;
       SOURCES_PHASE_UUID := SOURCES_PHASE_UUID g;
       RESOURCES_PHASE_UUID := RESOURCES_PHASE_UUID g;
       FRAMEWORKS_PHASE_UUID := FRAMEWORKS_PHASE_UUID g;
       DEBUG_CONFIG_UUID := DEBUG_CONFIG_UUID g;
       RELEASE_CONFIG_UUID := RELEASE_CONFIG_UUID g;
       TARGET_DEBUG_CFG_UUID := TARGET_DEBUG_CFG_UUID g;
       TARGET_RELEASE_CFG_UUID := TARGET_RELEASE_CFG_UUID g;
       PROJECT_CFGLIST_UUID := PROJECT_CFGLIST_UUID g;
       TARGET_CFGLIST_UUID := TARGET_CFGLIST_UUID g;
       SWIFTDATA_FW_REF_UUID := SWIFTDATA_FW_REF_UUID g;
       SWIFTDATA_BUILD_UUID := SWIFTDATA_BUILD_UUID g;
       file_refs := file_refs g;
       build_files := build_files g |} in
  exists text,
    lift (pbxproj g) (MemFS.world []) = (Ok text, MemFS.world [])
    /\ lift (pbxproj g') (MemFS.world ["EMCopilot/App/EMCopilotApp.swift"%string])
       = (Ok text, MemFS.world ["EMCopilot/App/EMCopilotApp.swift"%string]).
Proof.
  intros g g'.
  destruct (@pbxproj_deterministic MemFS.os counter_rnd Manifest.SOURCE_FILES
              Manifest.RESOURCE_FILES g' (MemFS.world [])
              (MemFS.world ["EMCopilot/App/EMCopilotApp.swift"%string])
              eq_refl eq_refl eq_refl eq_refl)
    as (text & H1 & H2 & _).
  exists text. split; [exact H1 | exact H2].
Defined.

(* ------------------------------------------------------------------ *)
(** ** Runs of the generator *)
(* ------------------------------------------------------------------ *)

Lemma not_mem_not_In s l : mem s l = false -> ~ In s l.
Proof. intros H Hin. apply In_mem in Hin. congruence. Qed.

(** On the in-memory disk every call returns. *)
Lemma memfs_calls_return (plan : list event) : forall s : FS MemFS.os,
  calls_return plan s.
Proof.
  unfold calls_return. induction plan as [|e plan IH]; intros s; [reflexivity|].
  cbn [run_calls].
  assert (Hcall : exists s', call e s = (None, s')) by (destruct e; eexists; reflexivity).
  destruct Hcall as [s' ->]. specialize (IH s').
  now destruct (run_calls plan s') as [[done raised] s''].
Qed.

Section GeneratorRuns.

Context {os : FileSystem}.
Variable rnd : nat -> N.
Variables sources resources : list string.

Lemma generator_sources : SOURCE_FILES (module_init rnd sources resources) = sources.
Proof. apply (module_init_allocated rnd sources resources). Qed.

Lemma generator_content : pbxproj (module_init rnd sources resources) = Ok (join nl (map render_line (descriptor (module_init rnd sources resources)))).
Proof. apply pbxproj_ok, module_init_keyed. Qed.

(** A run of the script is the calls of its plan, made in turn. *)
Lemma generator_as_calls content (w : World os) :
  pbxproj (module_init rnd sources resources) = Ok content ->
  generator rnd sources resources w
  = ended w (run_calls (planned (fs w) content sources) (fs w)).
Proof.
  intros Hcontent. unfold generator.
  rewrite (main_as_calls _ _ w Hcontent). now rewrite generator_sources.
Qed.

(** A run whose calls all return ends normally. *)
Lemma generator_returns content (w : World os) :
  pbxproj (module_init rnd sources resources) = Ok content ->
  calls_return (planned (fs w) content sources) (fs w) ->
  fst (generator rnd sources resources w) = Ok tt.
Proof.
  intros Hcontent Hret. rewrite (generator_as_calls content w Hcontent).
  unfold calls_return in Hret.
  destruct (run_calls _ (fs w)) as [[done raised] s]. cbn [fst snd] in Hret.
  now subst raised.
Qed.

(** A run that raises has stopped at the call that raised. *)
Lemma generator_raised content (w : World os) e :
  pbxproj (module_init rnd sources resources) = Ok content ->
  fst (generator rnd sources resources w) = Raise e ->
  exists done next rest s,
    planned (fs w) content sources = done ++ next :: rest
    /\ trace (snd (generator rnd sources resources w)) = trace w ++ done
    /\ run_calls done (fs w) = (done, None, s)
    /\ call next s = (Some e, fs (snd (generator rnd sources resources w))).
Proof.
  intros Hcontent. rewrite (generator_as_calls content w Hcontent).
  destruct (run_calls _ (fs w)) as [[done raised] s'] eqn:E.
  pose proof (run_calls_stops _ _ _ _ _ E) as Hstop.
  cbn [ended fst snd fs trace]. destruct raised as [x|]; [|discriminate].
  intros [= <-]. destruct Hstop as (next & rest & s0 & Hplan & Hdone & Hnext).
  exists done, next, rest, s0. auto.
Qed.

(** When the setup has gone through, the disk stays as the setup left it. *)
Lemma planned_disk content (s : FS os) done s' :
  run_calls (planned s content sources) s = (done, None, s') ->
  snd (run_calls (setup_events content) s) = s'.
Proof.
  unfold planned, full_trace. rewrite run_calls_app.
  destruct (run_calls (setup_events content) s) as [[done0 [x|]] s0]; [discriminate|].
  cbn [snd].
  pose proof (run_calls_quiet
                (check_events (fun p => os_path_exists os p s0) sources
                 ++ EvPrint EmptyString
                    :: summary_events (missing_paths (fun p => os_path_exists os p s0) sources))
                s0) as Hquiet.
  destruct (run_calls _ s0) as [[done1 raised1] s1]. cbn [snd] in Hquiet.
  intros [= _ _ <-]. symmetry. apply Hquiet.
  rewrite forallb_app, check_events_quiet. cbn [forallb is_fs_write negb andb].
  apply summary_events_quiet.
Qed.

(** A run that ends normally has made every call of its plan. *)
Lemma generator_completed (w : World os) :
  fst (generator rnd sources resources w) = Ok tt ->
  exists fs',
    generator rnd sources resources w
    = (Ok tt,
       {| fs := fs';
          trace := trace w
                   ++ full_trace (join nl (map render_line (descriptor (module_init rnd sources resources))))
                                 (fun p => os_path_exists os p fs') sources |}).
Proof.
  rewrite (generator_as_calls _ w generator_content).
  destruct (run_calls _ (fs w)) as [[done raised] s'] eqn:E.
  pose proof (run_calls_stops _ _ _ _ _ E) as Hstop.
  cbn [ended fst]. destruct raised as [x|]; [discriminate|]. intros _.
  exists s'. rewrite <- Hstop. unfold planned.
  now rewrite (planned_disk _ _ _ _ E).
Qed.

End GeneratorRuns.

(** On the in-memory disk the descriptor is rendered and every call of the
    plan returns. *)
Lemma memfs_plan_returns rnd sources resources (w : World MemFS.os) :
  exists content,
    pbxproj (module_init rnd sources resources) = Ok content
    /\ calls_return (planned (fs w) content sources) (fs w).
Proof.
  eexists. split; [apply generator_content | apply memfs_calls_return].
Qed.

(** C5 (amended). The generator validates nothing: whatever the manifest,
    empty, repeated and out-of-root paths included, [pbxproj] returns a
    descriptor; the run ends normally when each call it makes on the
    outside returns; the only exception a run can end on is the one that
    such a call raised; and a run that ends normally has written the
    descriptor. *)
Theorem no_manifest_validation {os : FileSystem} (rnd : nat -> N)
    (sources resources : list string) (w : World os) :
  let run := generator rnd sources resources w in
  exists content,
    pbxproj (module_init rnd sources resources) = Ok content
    /\ (calls_return (planned (fs w) content sources) (fs w) -> fst run = Ok tt)
    /\ (forall e, fst run = Raise e ->
          exists done next rest s,
            planned (fs w) content sources = done ++ next :: rest
            /\ run_calls done (fs w) = (done, None, s)
            /\ call next s = (Some e, fs (snd run)))
    /\ (fst run = Ok tt -> In (EvWrite proj_path content) (trace (snd run))).
Proof.
  intros run. subst run.
  pose proof (generator_content rnd sources resources) as Hcontent.
  eexists. split; [exact Hcontent|]. split; [|split].
  - now apply generator_returns.
  - intros e He.
    destruct (generator_raised rnd sources resources _ w e Hcontent He)
      as (done & next & rest & s & Hplan & _ & Hdone & Hnext).
    exists done, next, rest, s. auto.
  - intros Hok.
    destruct (generator_completed rnd sources resources w Hok) as (fs' & Hrun).
    rewrite Hrun. cbn [snd trace]. apply in_or_app. right.
    unfold full_trace. apply in_or_app. left.
    cbn [setup_events In]. auto.
Qed.

(** A manifest with an empty, a repeated and an out-of-root path is
    generated like any other. *)
Lemma no_manifest_validation_witness :
  let sources := [EmptyString; "A.swift"; "A.swift"; "../B.swift"]%string in
  let run := generator counter_rnd sources [] (MemFS.world []) in
  malformed sources = true
  /\ exists content,
       pbxproj (module_init counter_rnd sources []) = Ok content
       /\ calls_return (planned (fs (MemFS.world [])) content sources) (fs (MemFS.world []))
       /\ fst run = Ok tt
       /\ In (EvWrite proj_path content) (trace (snd run)).
Proof.
  intros sources run.
  split; [reflexivity|].
  destruct (@no_manifest_validation MemFS.os counter_rnd sources [] (MemFS.world []))
    as (content & Hcontent & Hreturns & _ & Hwritten).
  exists content.
  pose proof (memfs_calls_return (planned (fs (MemFS.world [])) content sources)
                                 (fs (MemFS.world []))) as Hret.
  split; [exact Hcontent|]. split; [exact Hret|].
  split; [exact (Hreturns Hret) | exact (Hwritten (Hreturns Hret))].
Defined.

(** C5, as stated, fails: a manifest with an empty path, a repeated path and
    a path above the root is not refused; the run ends normally and has
    created directories and written files. *)
Lemma malformed_manifest_accepted :
  let sources := [EmptyString; "A.swift"; "A.swift"; "../B.swift"]%string in
  let run := generator counter_rnd sources [] (MemFS.world []) in
  malformed sources = true
  /\ fst run = Ok tt
  /\ existsb is_fs_write (trace (snd run)) = true
  /\ ~ rejected_before_writing run.
Proof.
  intros sources run.
  assert (Hok : fst run = Ok tt) by (vm_compute; reflexivity).
  split; [reflexivity|]. split; [exact Hok|].
  split; [vm_compute; reflexivity|].
  intros [[e He] _]. rewrite Hok in He. discriminate.
Qed.

(* ------------------------------------------------------------------ *)
(** ** The verification report *)
(* ------------------------------------------------------------------ *)

Lemma checked_paths_app a b : checked_paths (a ++ b) = checked_paths a ++ checked_paths b.
Proof. apply flat_map_app. Qed.

Lemma checked_paths_check_events present paths :
  checked_paths (check_events present paths) = paths.
Proof.
  induction paths as [|p paths IH]; [reflexivity|].
  change (check_events present (p :: paths))
    with ([ EvExists p (present p);
            EvPrint (if present p then pass_line p else missing_line p) ]
          ++ check_events present paths).
  rewrite checked_paths_app, IH. reflexivity.
Qed.

Lemma checked_paths_summary missing : checked_paths (summary_events missing) = [].
Proof. destruct missing; reflexivity. Qed.

Lemma checked_paths_full_trace content present paths :
  checked_paths (full_trace content present paths) = paths.
Proof.
  unfold full_trace.
  rewrite !checked_paths_app, checked_paths_check_events.
  change (checked_paths (EvPrint EmptyString
                           :: summary_events (missing_paths present paths)))
    with (checked_paths (summary_events (missing_paths present paths))).
  rewrite checked_paths_summary.
  change (checked_paths (setup_events content)) with (@nil string).
  cbn [app]. apply app_nil_r.
Qed.

Lemma report_line_in_check_events (present : string -> bool) paths p :
  In p paths ->
  In (EvPrint (if present p then pass_line p else missing_line p))
     (check_events present paths).
Proof.
  induction paths as [|x paths IH]; [intros []|].
  change (check_events present (x :: paths))
    with ([ EvExists x (present x);
            EvPrint (if present x then pass_line x else missing_line x) ]
          ++ check_events present paths).
  intros [-> | Hp]; apply in_or_app; [left; cbn [In]; auto | right; now apply IH].
Qed.

(** C6 (amended). The verification step checks existence on disk for every
    source-kind path, in manifest order, and for no other path; it prints
    one pass or fail line per source path, goes on after a miss, and prints
    the summary only after the last check.  Resource-kind entries are not
    checked.  This holds of every run that completes, and a run completes
    when each call it makes on the outside returns. *)
Theorem verification_checks_sources {os : FileSystem} (rnd : nat -> N)
    (sources resources : list string) (w : World os) :
  let run := generator rnd sources resources w in
  let present := fun p => os_path_exists os p (fs (snd run)) in
  (forall content,
      pbxproj (module_init rnd sources resources) = Ok content ->
      calls_return (planned (fs w) content sources) (fs w) -> fst run = Ok tt)
  /\ (fst run = Ok tt ->
      checked_paths (trace (snd run)) = checked_paths (trace w) ++ sources
      /\ (forall p, In p sources ->
                    In (EvPrint (if present p then pass_line p else missing_line p))
                       (trace (snd run)))
      /\ exists content,
           trace (snd run)
           = trace w
             ++ setup_events content
             ++ check_events present sources
             ++ EvPrint EmptyString :: summary_events (missing_paths present sources)).
Proof.
  intros run present. subst run present. split.
  - intros content Hcontent Hret.
    exact (generator_returns rnd sources resources content w Hcontent Hret).
  - intros Hok.
    destruct (generator_completed rnd sources resources w Hok) as (fs' & Hrun).
    rewrite Hrun. cbn [fst snd fs trace].
    split; [|split].
    + now rewrite checked_paths_app, checked_paths_full_trace.
    + intros p Hp. apply in_or_app. right.
      unfold full_trace. apply in_or_app. right. apply in_or_app. left.
      exact (report_line_in_check_events (fun p => os_path_exists os p fs') sources p Hp).
    + eexists. reflexivity.
Qed.

Lemma verification_checks_sources_witness :
  let w := MemFS.world [] in
  let run := generator counter_rnd Manifest.SOURCE_FILES Manifest.RESOURCE_FILES w in
  exists content,
    pbxproj (module_init counter_rnd Manifest.SOURCE_FILES Manifest.RESOURCE_FILES)
    = Ok content
    /\ calls_return (planned (fs w) content Manifest.SOURCE_FILES) (fs w)
    /\ fst run = Ok tt
    /\ checked_paths (trace (snd run)) = Manifest.SOURCE_FILES.
Proof.
  intros w run.
  destruct (@verification_checks_sources MemFS.os counter_rnd Manifest.SOURCE_FILES
              Manifest.RESOURCE_FILES w) as [Hruns Hchecks].
  destruct (memfs_plan_returns counter_rnd Manifest.SOURCE_FILES Manifest.RESOURCE_FILES w)
    as (content & Hcontent & Hret).
  pose proof (Hruns _ Hcontent Hret) as Hok.
  exists content. split; [exact Hcontent|]. split; [exact Hret|]. split; [exact Hok|].
  exact (proj1 (Hchecks Hok)).
Defined.

(** C6, as stated, fails on the shipped manifest: its resource-kind entry
    is never checked for existence and gets neither a pass nor a fail
    line. *)
Lemma resource_entry_not_checked :
  let run := generator counter_rnd Manifest.SOURCE_FILES Manifest.RESOURCE_FILES
                       (MemFS.world []) in
  let entry := "EMCopilot/Resources/Assets.xcassets"%string in
  In entry Manifest.RESOURCE_FILES
  /\ fst run = Ok tt
  /\ ~ In entry (checked_paths (trace (snd run)))
  /\ ~ In (pass_line entry) (printed (trace (snd run)))
  /\ ~ In (missing_line entry) (printed (trace (snd run))).
Proof.
  intros run entry.
  split; [now left|]. split; [vm_compute; reflexivity|].
  repeat split; apply not_mem_not_In; vm_compute; reflexivity.
Qed.

(* ------------------------------------------------------------------ *)
(** ** Text inside text *)
(* ------------------------------------------------------------------ *)

Lemma prefix_common a x y : String.prefix (a ++ x) (a ++ y) = String.prefix x y.
Proof.
  induction a as [|c a IH]; [reflexivity|].
  cbn [append String.prefix]. destruct (ascii_dec c c); [exact IH | contradiction].
Qed.

Lemma prefix_weaken n a b : String.prefix n a = true -> String.prefix n (a ++ b) = true.
Proof.
  revert a. induction n as [|c n IH]; intros a H; [now destruct (a ++ b)%string|].
  destruct a as [|d a]; [discriminate|].
  cbn [append String.prefix] in *. destruct (ascii_dec c d); [auto | discriminate].
Qed.

Lemma contains_text_here n s : String.prefix n s = true -> contains_text n s = true.
Proof. intros H. destruct s; cbn [contains_text]; now rewrite H. Qed.

Lemma contains_text_cons n c s :
  contains_text n s = true -> contains_text n (String c s) = true.
Proof. intros H. cbn [contains_text]. rewrite H. apply orb_true_r. Qed.

Lemma contains_text_app_r n a b :
  contains_text n b = true -> contains_text n (a ++ b) = true.
Proof.
  intros H. induction a as [|c a IH]; [exact H|].
  cbn [append contains_text]. rewrite IH. apply orb_true_r.
Qed.

Lemma contains_text_app_l n a b :
  contains_text n a = true -> contains_text n (a ++ b) = true.
Proof.
  induction a as [|c a IH]; cbn [append contains_text]; intros H.
  - rewrite orb_false_r in H. apply contains_text_here.
    now apply (prefix_weaken n EmptyString b).
  - apply orb_true_iff in H as [H | H]; apply orb_true_iff.
    + left. now apply (prefix_weaken n (String c a) b).
    + right. auto.
Qed.

Lemma contains_text_join n sep parts s :
  In s parts -> contains_text n s = true -> contains_text n (join sep parts) = true.
Proof.
  intros Hin Hs. induction parts as [|p parts IH]; [destruct Hin|].
  destruct parts as [|p' parts].
  - destruct Hin as [-> | []]. exact Hs.
  - change (join sep (p :: p' :: parts)) with (p ++ sep ++ join sep (p' :: parts))%string.
    destruct Hin as [-> | Hin].
    + now apply contains_text_app_l.
    + do 2 apply contains_text_app_r. now apply IH.
Qed.

(** The file-reference line of a path says [path = <path>;]. *)
Lemma file_reference_names_path p l :
  file_reference_of p l ->
  contains_text ("path = " ++ p ++ ";") (render_line l) = true.
Proof.
  intros [uid Hl]. unfold pbx_file_reference in Hl.
  destruct (endswith p ".swift");
    [|destruct (endswith p ".xcassets"); [|discriminate]];
    injection Hl as <-; cbn [render_line fold_right render_piece];
    do 2 apply contains_text_app_r; apply contains_text_app_l;
    repeat apply contains_text_app_r;
    do 2 apply contains_text_cons; apply contains_text_here;
    cbn [append String.prefix ascii_dec ascii_rec ascii_rect Bool.bool_dec bool_rec bool_rect
         sumbool_rec sumbool_rect eq_rec_r eq_rec eq_rect eq_sym f_equal];
    change (String.prefix (p ++ ";") (p ++ "; sourceTree = " ++ q ++ "<group>" ++ q ++ "; };")
            = true);
    rewrite (prefix_common p); reflexivity.
Qed.

Lemma missing_path_in (present : string -> bool) paths p :
  In p paths -> present p = false -> In p (missing_paths present paths).
Proof.
  intros Hp Hmiss. apply filter_In. split; [assumption | now rewrite Hmiss].
Qed.

Lemma summary_of_missing missing :
  missing <> [] ->
  summary_events missing = [EvPrint (warning_line (List.length missing))].
Proof. destruct missing; [congruence | reflexivity]. Qed.

Lemma In_middle (l : line) (sec : list line) : In l (middle sec) -> In l sec.
Proof.
  unfold middle. destruct sec as [|b body]; cbn [tl]; [intros []|].
  intros H. right. induction body as [|x body IH]; [exact H|].
  destruct body as [|y body]; [destruct H|].
  destruct H as [<- | H]; [now left | right; now apply IH].
Qed.

(** A path with a known extension has its file-reference line in the
    file-reference section. *)
Lemma file_reference_listed g p :
  well_keyed g ->
  In p (Dict.keys (file_refs g)) ->
  recognised p = true ->
  exists l, file_reference_of p l /\ In l (section "PBXFileReference" (descriptor g)).
Proof.
  intros Hkeyed Hp Hrec.
  apply in_map_iff in Hp as ([p' uid] & Hfst & Hin). cbn [fst] in Hfst. subst p'.
  assert (Hline : exists l, pbx_file_reference p uid = [l]).
  { unfold pbx_file_reference. unfold recognised in Hrec.
    destruct (endswith p ".swift"); [eauto|].
    destruct (endswith p ".xcassets"); [eauto | discriminate]. }
  destruct Hline as [l Hl]. exists l. split; [now exists uid|].
  rewrite (section_PBXFileReference g Hkeyed). unfold pbx_PBXFileReference.
  rewrite middle_insert by discriminate.
  apply in_or_app. right. apply in_or_app. left.
  apply in_flat_map. exists (p, uid). split; [exact Hin|].
  rewrite Hl. now left.
Qed.

(** A source path has its build-membership identifier in the sources phase. *)
Lemma source_listed g p :
  well_keyed g ->
  In p (SOURCE_FILES g) ->
  exists uid,
    Dict.get (build_files g) p = Some uid
    /\ In uid (phase_files "PBXSourcesBuildPhase" (descriptor g)).
Proof.
  intros Hkeyed Hp.
  destruct (proj1 (DictFacts.in_keys_get _ _) (proj2 Hkeyed p Hp)) as [uid Huid].
  exists uid. split; [exact Huid|].
  unfold phase_files. rewrite (objects_PBXSourcesBuildPhase g Hkeyed).
  cbn [flat_map snd]. rewrite app_nil_r.
  apply in_map_iff. exists p. split; [|exact Hp].
  unfold build_id_of. now rewrite Huid.
Qed.

(** C7 (amended). For every manifest with a source-kind path that has a
    known extension and is not on disk when the run ends: [main] runs to
    completion when each call it makes on the outside returns, and in every run that
    completes the descriptor written says [path = <path>;], has the path's
    file reference and lists the path in the sources phase, the report has
    the path's MISSING line, and the run ends on the warning with a count
    of at least one. *)
Theorem missing_source_reported {os : FileSystem} (rnd : nat -> N)
    (sources resources : list string) (w : World os) (p : string) :
  let run := generator rnd sources resources w in
  let g := module_init rnd sources resources in
  In p sources ->
  recognised p = true ->
  os_path_exists os p (fs (snd run)) = false ->
  (forall content,
      pbxproj (module_init rnd sources resources) = Ok content ->
      calls_return (planned (fs w) content sources) (fs w) -> fst run = Ok tt)
  /\ (fst run = Ok tt ->
      (exists content lines l uid,
          pbxproj_lines g = Ok lines
          /\ content = join nl (map render_line lines)
          /\ In (EvWrite proj_path content) (trace (snd run))
          /\ contains_text ("path = " ++ p ++ ";") content = true
          /\ file_reference_of p l
          /\ In l (section "PBXFileReference" lines)
          /\ Dict.get (build_files g) p = Some uid
          /\ In uid (phase_files "PBXSourcesBuildPhase" lines))
      /\ In (EvPrint (missing_line p)) (trace (snd run))
      /\ exists before count,
           trace (snd run) = before ++ [EvPrint (warning_line count)] /\ 1 <= count).
Proof.
  intros run g Hp Hrec Hmiss. subst run. split.
  { intros content Hcontent Hret.
    exact (generator_returns rnd sources resources content w Hcontent Hret). }
  intros Hok.
  pose proof (module_init_keyed rnd sources resources) as Hkeyed. fold g in Hkeyed.
  destruct (module_init_allocated rnd sources resources) as ([Hk _ _] & Hkeys & Hsrc & _).
  fold g in Hk, Hkeys, Hsrc.
  destruct (generator_completed rnd sources resources w Hok) as (fs' & Hrun).
  fold g in Hrun. rewrite Hrun in Hmiss |- *. cbn [fst snd fs trace] in Hmiss |- *.
  split; [|split].
  - assert (Hkey : In p (Dict.keys (file_refs g))).
    { rewrite Hk. apply Hkeys, in_or_app. now left. }
    destruct (file_reference_listed g p Hkeyed Hkey Hrec) as (l & Hl & Hin).
    assert (Hp' : In p (SOURCE_FILES g)) by now rewrite Hsrc.
    destruct (source_listed g p Hkeyed Hp') as (uid & Huid & Hlisted).
    exists (join nl (map render_line (descriptor g))), (descriptor g), l, uid.
    split; [now apply pbxproj_lines_ok|]. split; [reflexivity|].
    split.
    { apply in_or_app. right. unfold full_trace. apply in_or_app. left.
      cbn [setup_events In]. auto. }
    split; [|auto].
    apply (contains_text_join _ _ _ (render_line l)).
    + apply in_map. rewrite (section_PBXFileReference g Hkeyed) in Hin.
      unfold descriptor. apply in_or_app. right. apply in_or_app. right.
      apply in_or_app. left.
      now apply In_middle.
    + now apply file_reference_names_path.
  - apply in_or_app. right. unfold full_trace.
    apply in_or_app. right. apply in_or_app. left.
    pose proof (report_line_in_check_events (fun p => os_path_exists os p fs') sources p Hp)
      as Hline.
    cbn beta in Hline. now rewrite Hmiss in Hline.
  - pose proof (missing_path_in (fun p => os_path_exists os p fs') sources p Hp Hmiss)
      as Hin.
    assert (Hne : missing_paths (fun p => os_path_exists os p fs') sources <> []).
    { intros E. rewrite E in Hin. exact Hin. }
    unfold full_trace. rewrite (summary_of_missing _ Hne).
    exists (trace w ++ setup_events (join nl (map render_line (descriptor g)))
                    ++ check_events (fun p => os_path_exists os p fs') sources
                    ++ [EvPrint EmptyString]),
           (List.length (missing_paths (fun p => os_path_exists os p fs') sources)).
    split.
    + rewrite <- !app_assoc. reflexivity.
    + destruct (missing_paths _ _); [congruence | cbn; lia].
Qed.

Lemma missing_source_reported_witness :
  let p := "EMCopilot/App/EMCopilotApp.swift"%string in
  let w := MemFS.world [] in
  let run := generator counter_rnd Manifest.SOURCE_FILES Manifest.RESOURCE_FILES w in
  (exists content,
      pbxproj (module_init counter_rnd Manifest.SOURCE_FILES Manifest.RESOURCE_FILES)
      = Ok content
      /\ calls_return (planned (fs w) content Manifest.SOURCE_FILES) (fs w))
  /\ In p Manifest.SOURCE_FILES
  /\ recognised p = true
  /\ MemFS.path_exists p (fs (snd run)) = false
  /\ fst run = Ok tt
  /\ In (EvPrint (missing_line p)) (trace (snd run)).
Proof.
  intros p w run.
  assert (H2 : In p Manifest.SOURCE_FILES) by now left.
  assert (H3 : recognised p = true) by reflexivity.
  assert (H4 : MemFS.path_exists p (fs (snd run)) = false) by (vm_compute; reflexivity).
  destruct (@missing_source_reported MemFS.os counter_rnd Manifest.SOURCE_FILES
              Manifest.RESOURCE_FILES w p H2 H3 H4) as [Hruns Hreport].
  destruct (memfs_plan_returns counter_rnd Manifest.SOURCE_FILES Manifest.RESOURCE_FILES w)
    as (content & Hcontent & Hret).
  pose proof (Hruns _ Hcontent Hret) as Hok.
  destruct (Hreport Hok) as (_ & Hline & _).
  split; [exists content; split; [exact Hcontent | exact Hret]|].
  split; [exact H2|]. split; [exact H3|].
  split; [exact H4|]. split; [exact Hok | exact Hline].
Defined.

(** C7, as stated, fails for a resource-kind path: with every source file
    on disk and a resource path that is not, the run ends normally, the
    report has no line for the path and says that all source files are
    present. *)
Lemma missing_resource_not_reported :
  let entry := "EMCopilot/Resources/Preview.xcassets"%string in
  let run := generator counter_rnd Manifest.SOURCE_FILES [entry]
                       (MemFS.world Manifest.SOURCE_FILES) in
  MemFS.path_exists entry (fs (snd run)) = false
  /\ fst run = Ok tt
  /\ ~ In (missing_line entry) (printed (trace (snd run)))
  /\ In "✅ All source files present."%string (printed (trace (snd run))).
Proof.
  intros entry run.
  split; [vm_compute; reflexivity|]. split; [vm_compute; reflexivity|].
  split; [apply not_mem_not_In | apply mem_In]; vm_compute; reflexivity.
Qed.

(* ------------------------------------------------------------------ *)
(** ** The final summary *)
(* ------------------------------------------------------------------ *)

(** No guidance line other than the blank one is printed before the
    summary, and none is the warning. *)
Lemma guidance_line_fresh l :
  In l guidance_lines -> l <> EmptyString ->
  (forall content, ~ In (EvPrint l) (setup_events content))
  /\ (forall present paths, ~ In (EvPrint l) (check_events present paths))
  /\ (forall count, l <> warning_line count).
Proof.
  intros Hl Hne.
  assert (Hshape : forall p, l <> pass_line p /\ l <> missing_line p).
  { intros p. unfold pass_line, missing_line. cbn [guidance_lines In] in Hl.
    destruct Hl as [<- | [<- | [<- | [<- | [<- | [<- | []]]]]]];
      try congruence; split; vm_compute; discriminate. }
  split; [|split].
  - intros content Hin. cbn [guidance_lines In] in Hl. cbn [setup_events In] in Hin.
    destruct Hl as [<- | [<- | [<- | [<- | [<- | [<- | []]]]]]]; try congruence;
      repeat (destruct Hin as [Hin | Hin]; [vm_compute in Hin; discriminate|]);
      exact Hin.
  - intros present paths. induction paths as [|p paths IH]; [intros []|].
    change (check_events present (p :: paths))
      with ([ EvExists p (present p);
              EvPrint (if present p then pass_line p else missing_line p) ]
            ++ check_events present paths).
    intros Hin. apply in_app_or in Hin as [Hin | Hin]; [|auto].
    destruct Hin as [Hin | [Hin | []]]; [discriminate|].
    injection Hin as Hin. destruct (Hshape p) as [H1 H2].
    destruct (present p); congruence.
  - intros count. unfold warning_line. cbn [guidance_lines In] in Hl.
    destruct Hl as [<- | [<- | [<- | [<- | [<- | [<- | []]]]]]];
      try congruence; vm_compute; discriminate.
Qed.

(** C10. [main] reaches its last branch after the descriptor and the three
    asset-catalog files have been written; there it prints the next-step
    guidance, bundle identifier included, if and only if no source file is
    missing (its blank line aside, which is also printed before the branch),
    and otherwise prints the one warning line with the number of missing
    files.  This holds of every run that completes, and a run completes
    when each call it makes on the outside returns. *)
Theorem summary_branch {os : FileSystem} (rnd : nat -> N)
    (sources resources : list string) (w : World os) :
  let run := generator rnd sources resources w in
  let missing := missing_paths (fun p => os_path_exists os p (fs (snd run))) sources in
  (forall content,
      pbxproj (module_init rnd sources resources) = Ok content ->
      calls_return (planned (fs w) content sources) (fs w) -> fst run = Ok tt)
  /\ (fst run = Ok tt ->
      exists content before,
        pbxproj (module_init rnd sources resources) = Ok content
        /\ trace (snd run) = trace w ++ before ++ summary_events missing
        /\ In (EvWrite proj_path content) before
        /\ In (EvWrite (assets_base ++ "/Contents.json") (json_dump catalog_contents)) before
        /\ In (EvWrite (assets_base ++ "/AppIcon.appiconset/Contents.json")
                       (json_dump appicon_contents)) before
        /\ In (EvWrite (assets_base ++ "/AccentColor.colorset/Contents.json")
                       (json_dump accent_contents)) before
        /\ (forall l, In l guidance_lines -> l <> EmptyString ->
                      (In (EvPrint l) (before ++ summary_events missing) <-> missing = []))
        /\ In (EvPrint ("   Bundle ID: " ++ BUNDLE_ID_BASE
                                          ++ "  ← change this to your reverse domain"))
              (map EvPrint guidance_lines)
        /\ (missing = [] ->
            summary_events missing
            = map EvPrint ("✅ All source files present."%string :: guidance_lines))
        /\ (missing <> [] ->
            summary_events missing = [EvPrint (warning_line (List.length missing))])).
Proof.
  intros run missing. subst run missing. split.
  { intros content Hcontent Hret.
    exact (generator_returns rnd sources resources content w Hcontent Hret). }
  intros Hok.
  destruct (generator_completed rnd sources resources w Hok) as (fs' & Hrun).
  rewrite Hrun. cbn [fst snd fs trace].
  set (present := fun p => os_path_exists os p fs').
  set (content := join nl (map render_line (descriptor (module_init rnd sources resources)))).
  exists content,
    (setup_events content ++ check_events present sources ++ [EvPrint EmptyString]).
  split; [apply generator_content|].
  split.
  { unfold full_trace. rewrite <- !app_assoc. reflexivity. }
  assert (Hsetup : forall e, In e (setup_events content) ->
                             In e (setup_events content ++ check_events present sources
                                                        ++ [EvPrint EmptyString])).
  { intros e He. apply in_or_app. now left. }
  split; [apply Hsetup; cbn [setup_events In]; auto|].
  split; [apply Hsetup; cbn [setup_events In]; auto 10|].
  split; [apply Hsetup; cbn [setup_events In]; auto 10|].
  split; [apply Hsetup; cbn [setup_events In]; auto 12|].
  split; [|split; [|split]].
  - intros l Hl Hne.
    destruct (guidance_line_fresh l Hl Hne) as (Hs & Hc & Hw).
    split.
    + intros Hin. rewrite <- !app_assoc in Hin.
      apply in_app_or in Hin as [Hin | Hin]; [now apply Hs in Hin|].
      apply in_app_or in Hin as [Hin | Hin]; [now apply Hc in Hin|].
      destruct Hin as [Hin | Hin]; [injection Hin as Hin; congruence|].
      destruct (missing_paths present sources) as [|m ms]; [reflexivity|].
      cbn [app summary_events In] in Hin. destruct Hin as [Hin | []].
      injection Hin as Hin. symmetry in Hin. now apply Hw in Hin.
    + intros ->. apply in_or_app. right.
      cbn [summary_events]. apply in_map. now right.
  - cbn [guidance_lines map In]. auto 10.
  - intros ->. reflexivity.
  - apply summary_of_missing.
Qed.

Lemma summary_branch_witness :
  let w := MemFS.world Manifest.SOURCE_FILES in
  let run := generator counter_rnd Manifest.SOURCE_FILES Manifest.RESOURCE_FILES w in
  exists content,
    pbxproj (module_init counter_rnd Manifest.SOURCE_FILES Manifest.RESOURCE_FILES)
    = Ok content
    /\ calls_return (planned (fs w) content Manifest.SOURCE_FILES) (fs w)
    /\ fst run = Ok tt.
Proof.
  intros w run.
  destruct (memfs_plan_returns counter_rnd Manifest.SOURCE_FILES Manifest.RESOURCE_FILES w)
    as (content & Hcontent & Hret).
  exists content. split; [exact Hcontent|]. split; [exact Hret|].
  exact (proj1 (@summary_branch MemFS.os counter_rnd Manifest.SOURCE_FILES
                  Manifest.RESOURCE_FILES w)
               _ Hcontent Hret).
Defined.

(* ================================================================== *)
(** * The descriptor as text *)
(* ================================================================== *)

(* ------------------------------------------------------------------ *)
(** ** Lines of a text *)
(* ------------------------------------------------------------------ *)

Lemma split_lines_cons (s : string) : exists l ls, split_lines s = l :: ls.
Proof.
  induction s as [|c s (l & ls & IH)]; cbn [split_lines]; [eauto|].
  destruct (Ascii.eqb c "010"); [eauto|]. rewrite IH. eauto.
Qed.

Lemma split_lines_app (a b : string) :
  split_lines (a ++ nl ++ b) = split_lines a ++ split_lines b.
Proof.
  induction a as [|c a IH]; [reflexivity|].
  cbn [append split_lines]. destruct (Ascii.eqb c "010").
  - cbn [append] in IH. rewrite IH. reflexivity.
  - cbn [append] in IH. rewrite IH.
    destruct (split_lines_cons a) as (l & ls & ->). reflexivity.
Qed.

Lemma split_lines_join (xs : list string) :
  xs <> [] -> split_lines (join nl xs) = flat_map split_lines xs.
Proof.
  induction xs as [|x xs IH]; [congruence|]. intros _.
  destruct xs as [|y xs].
  - cbn [join flat_map]. now rewrite app_nil_r.
  - change (join nl (x :: y :: xs)) with (x ++ nl ++ join nl (y :: xs))%string.
    rewrite split_lines_app, IH by discriminate. reflexivity.
Qed.

Lemma split_lines_plain (s : string) : no_newline s = true -> split_lines s = [s].
Proof.
  unfold no_newline. induction s as [|c s IH]; [reflexivity|].
  cbn [all_chars split_lines]. intros H. apply andb_true_iff in H as [Hc Hs].
  destruct (Ascii.eqb c "010"); [discriminate|]. now rewrite (IH Hs).
Qed.

Lemma no_newline_append (a b : string) :
  no_newline (a ++ b) = no_newline a && no_newline b.
Proof. apply all_chars_append. Qed.

(* ------------------------------------------------------------------ *)
(** ** Words and identifiers *)
(* ------------------------------------------------------------------ *)

Lemma starts_word_words (s : string) :
  starts_word s = true -> exists w ws, words s = w :: ws.
Proof.
  destruct s as [|c s]; [discriminate|]. cbn [starts_word words]. intros ->.
  destruct (starts_word s); [destruct (words s)|]; eauto.
Qed.

Lemma starts_word_append (a b : string) :
  starts_word (a ++ b)
  = match a with EmptyString => starts_word b | String _ _ => starts_word a end.
Proof. now destruct a. Qed.

Lemma append_empty (a : string) : (a ++ EmptyString)%string = a.
Proof. induction a as [|c a IH]; [reflexivity|]. cbn [append]. now rewrite IH. Qed.

Lemma ends_word_append (a b : string) :
  ends_word (a ++ b)
  = match b with EmptyString => ends_word a | String _ _ => ends_word b end.
Proof.
  induction a as [|c a IH]; [now destruct b|].
  destruct b as [|d b]; [now rewrite append_empty|].
  cbn [append]. destruct a as [|c' a]; [reflexivity|].
  cbn [append ends_word] in *. exact IH.
Qed.

Lemma words_cons c r :
  words (String c r)
  = if is_word_char c then
      if starts_word r then
        match words r with
        | w :: ws => String c w :: ws
        | [] => [String c EmptyString]
        end
      else String c EmptyString :: words r
    else words r.
Proof. reflexivity. Qed.

Lemma ends_word_cons c d r : ends_word (String c (String d r)) = ends_word (String d r).
Proof. reflexivity. Qed.

(** Words do not run across a boundary that has a separator on one
    side. *)
Lemma words_append_l (a b : string) :
  ends_word a = false -> words (a ++ b) = words a ++ words b.
Proof.
  induction a as [|c a IH]; [reflexivity|].
  destruct a as [|d a].
  - cbn [ends_word append words starts_word]. now intros ->.
  - rewrite ends_word_cons. intros H. specialize (IH H).
    remember (String d a) as r eqn:Hr.
    change ((String c r ++ b)%string) with (String c (r ++ b)).
    rewrite !words_cons, IH, starts_word_append.
    assert (Hs : match r with EmptyString => starts_word b | String _ _ => starts_word r end
                 = starts_word r) by now subst r.
    rewrite Hs.
    destruct (is_word_char c); [|reflexivity].
    destruct (starts_word r) eqn:E; [|reflexivity].
    destruct (starts_word_words _ E) as (w & ws & ->). reflexivity.
Qed.

Lemma words_append_r (a b : string) :
  starts_word b = false -> words (a ++ b) = words a ++ words b.
Proof.
  intros Hb. induction a as [|c a IH]; [reflexivity|].
  change ((String c a ++ b)%string) with (String c (a ++ b)).
  rewrite !words_cons, IH, starts_word_append.
  destruct (is_word_char c); [|reflexivity].
  destruct a as [|d a].
  - rewrite Hb. reflexivity.
  - remember (String d a) as r eqn:Hr.
    destruct (starts_word r) eqn:E; [|reflexivity].
    destruct (starts_word_words _ E) as (w & ws & ->). reflexivity.
Qed.

Lemma words_word (w : string) :
  all_chars is_word_char w = true -> w <> EmptyString -> words w = [w].
Proof.
  induction w as [|c w IH]; [congruence|]. intros H _.
  cbn [all_chars] in H. apply andb_true_iff in H as [Hc Hw].
  cbn [words]. rewrite Hc. destruct w as [|d w]; [reflexivity|].
  cbn [all_chars] in Hw. apply andb_true_iff in Hw as [Hd Hw'].
  cbn [starts_word]. rewrite Hd. rewrite IH; [reflexivity | | discriminate].
  cbn [all_chars]. now rewrite Hd, Hw'.
Qed.

Lemma upper_hex_word_char c : is_upper_hex c = true -> is_word_char c = true.
Proof.
  unfold is_upper_hex, is_word_char. cbv zeta.
  rewrite !orb_true_iff, !andb_true_iff, !Nat.leb_le, Nat.eqb_eq. lia.
Qed.

Lemma all_chars_weaken (p r : ascii -> bool) s :
  (forall c, p c = true -> r c = true) -> all_chars p s = true -> all_chars r s = true.
Proof.
  intros Hpr. induction s as [|c s IH]; [reflexivity|].
  cbn [all_chars]. intros H. apply andb_true_iff in H as [Hc Hs].
  now rewrite (Hpr c Hc), IH.
Qed.

Section Identifiers.

Variable u : string.
Hypothesis Hid : is_id u = true.

Lemma is_id_chars : all_chars is_word_char u = true.
Proof.
  apply andb_true_iff in Hid as [_ H].
  exact (all_chars_weaken _ _ _ upper_hex_word_char H).
Qed.

Lemma is_id_cons : exists c r, u = String c r /\ is_word_char c = true /\ is_upper_hex c = true.
Proof.
  pose proof is_id_chars as Hw. apply andb_true_iff in Hid as [Hlen Hhex].
  destruct u as [|c r]; [discriminate|].
  cbn [all_chars] in Hw, Hhex.
  apply andb_true_iff in Hw as [Hc _]. apply andb_true_iff in Hhex as [Hx _]. eauto.
Qed.

Lemma is_id_words : words u = [u].
Proof.
  apply words_word; [exact is_id_chars|].
  destruct is_id_cons as (c & r & -> & _). discriminate.
Qed.

Lemma is_id_starts : starts_word u = true.
Proof. destruct is_id_cons as (c & r & -> & Hc & _). exact Hc. Qed.

Lemma is_id_no_newline : no_newline u = true.
Proof.
  apply andb_true_iff in Hid as [_ H]. unfold no_newline.
  apply (all_chars_weaken is_upper_hex); [|exact H].
  intros c Hc. destruct (Ascii.eqb_spec c "010") as [-> | _]; [discriminate | reflexivity].
Qed.

End Identifiers.

Lemma uuid_at_is_id rnd k : is_id (uuid_at rnd k) = true.
Proof.
  unfold is_id, uuid_at, make_uuid, uuid_hex. apply andb_true_iff. split.
  - apply Nat.eqb_eq. rewrite length_upper. apply length_take.
    pose proof (hex_padded_length 32 (uuid4_int (rnd k))). lia.
  - apply all_chars_upper, all_chars_take, hex_padded_lower.
Qed.

Lemma filter_none {A : Type} (p : A -> bool) (l : list A) :
  forallb (fun x => negb (p x)) l = true -> filter p l = [].
Proof.
  induction l as [|x l IH]; [reflexivity|].
  cbn [forallb filter]. intros H. apply andb_true_iff in H as [Hx Hl].
  destruct (p x); [discriminate | now apply IH].
Qed.

Lemma render_line_cons (p : piece) (l : line) :
  render_line (p :: l) = (render_piece p ++ render_line l)%string.
Proof. reflexivity. Qed.

(** The identifiers read in the text of a line are the identifiers the
    line was rendered from, in order. *)
Lemma spaced_ids (l : line) : forall after_word,
  spaced after_word l = true ->
  (forall u, In u (line_ids l) -> is_id u = true) ->
  text_ids (render_line l) = line_ids l
  /\ (after_word = true -> starts_word (render_line l) = false).
Proof.
  induction l as [|p l IH]; intros aw Hsp Hids; [now split|].
  rewrite render_line_cons. destruct p as [s | u | u].
  - cbn [render_piece line_ids flat_map piece_ids app] in *.
    destruct s as [|c s'].
    + cbn [spaced] in Hsp. cbn [append]. exact (IH aw Hsp Hids).
    + cbn [spaced] in Hsp.
      apply andb_true_iff in Hsp as [Hsp Hrest]. apply andb_true_iff in Hsp as [Haw Hno].
      destruct (IH _ Hrest Hids) as [IHids IHstart].
      remember (String c s') as s eqn:Hs.
      assert (Hwords : words (s ++ render_line l) = words s ++ words (render_line l)).
      { destruct (ends_word s) eqn:E;
          [apply words_append_r; now apply IHstart | now apply words_append_l]. }
      split.
      * unfold text_ids in *. rewrite Hwords, filter_app, IHids.
        now rewrite (filter_none _ _ Hno).
      * intros ->. rewrite starts_word_append. subst s.
        cbn [andb] in Haw. now apply negb_true_iff in Haw.
  - cbn [spaced] in Hsp. apply andb_true_iff in Hsp as [Haw Hrest].
    cbn [render_piece line_ids flat_map piece_ids app] in *.
    assert (Hu : is_id u = true) by (apply Hids; now left).
    destruct (IH true Hrest (fun v Hv => Hids v (or_intror Hv))) as [IHids IHstart].
    split; [|intros ->; discriminate].
    unfold text_ids in *.
    rewrite words_append_r, (is_id_words u Hu) by now apply IHstart.
    cbn [app filter]. now rewrite Hu, IHids.
  - cbn [spaced] in Hsp. apply andb_true_iff in Hsp as [Haw Hrest].
    cbn [render_piece line_ids flat_map piece_ids app] in *.
    assert (Hu : is_id u = true) by (apply Hids; now left).
    destruct (IH true Hrest (fun v Hv => Hids v (or_intror Hv))) as [IHids IHstart].
    split; [|intros ->; discriminate].
    unfold text_ids in *.
    rewrite words_append_r, (is_id_words u Hu) by now apply IHstart.
    cbn [app filter]. now rewrite Hu, IHids.
Qed.

Lemma render_no_newline (l : line) :
  forallb piece_no_newline l = true ->
  (forall u, In u (line_ids l) -> is_id u = true) ->
  no_newline (render_line l) = true.
Proof.
  induction l as [|p l IH]; intros H Hids; [reflexivity|].
  cbn [forallb] in H. apply andb_true_iff in H as [Hp Hl].
  rewrite render_line_cons, no_newline_append, IH; [|exact Hl|].
  - destruct p as [s | u | u]; cbn [render_piece piece_no_newline] in *;
      [now rewrite Hp | |]; rewrite is_id_no_newline; try reflexivity;
      apply Hids; cbn [line_ids flat_map piece_ids app In]; auto.
  - intros u Hu. apply Hids. unfold line_ids. cbn [flat_map].
    apply in_or_app. now right.
Qed.

Lemma tab_led_render (l : line) :
  tab_led l = true -> exists r, render_line l = String "009" r.
Proof.
  destruct l as [|[s | u | u] l]; try discriminate.
  cbn [tab_led]. unfold startswith, tab. destruct s as [|c s]; [discriminate|].
  cbn [String.prefix]. destruct (ascii_dec "009" c) as [<- | _]; [|discriminate].
  intros _. rewrite render_line_cons. cbn [render_piece append]. eauto.
Qed.

Lemma tab_led_unmarked r : unmarked (String "009" r) = true.
Proof. reflexivity. Qed.

Lemma tab_led_markers (l : line) :
  tab_led l = true -> begin_marker l = None /\ end_marker l = None.
Proof.
  destruct l as [|[s | u | u] [|q l]]; try discriminate; try (now split).
  cbn [tab_led]. unfold startswith, tab. destruct s as [|c s]; [discriminate|].
  cbn [String.prefix]. destruct (ascii_dec "009" c) as [<- | _]; [|discriminate].
  intros _. split; reflexivity.
Qed.

(** What a line that reads back gives in the text. *)
Lemma reads_back_spec (l : line) :
  reads_back l = true ->
  (forall u, In u (line_ids l) -> is_id u = true) ->
  match begin_marker l, end_marker l with
  | Some n, None =>
      exists m, split_lines (render_line l) = [EmptyString; m]
                /\ text_begin_marker m = Some n /\ text_end_marker m = None
  | None, Some n =>
      exists m, split_lines (render_line l) = [m]
                /\ text_end_marker m = Some n /\ text_begin_marker m = None
  | None, None => forallb unmarked (split_lines (render_line l)) = true
  | Some _, Some _ => False
  end.
Proof.
  intros H Hids. unfold reads_back in H. apply orb_true_iff in H as [H | H].
  - apply andb_true_iff in H as [Htab Hnl].
    destruct (tab_led_markers l Htab) as [-> ->].
    rewrite (split_lines_plain _ (render_no_newline l Hnl Hids)).
    destruct (tab_led_render l Htab) as [r ->]. reflexivity.
  - destruct l as [|[s | u | u] [|q l]]; try discriminate.
    unfold literal_reads_back in H.
    change (render_line [Lit s]) with (s ++ EmptyString)%string. rewrite append_empty.
    destruct (begin_marker [Lit s]) as [n|], (end_marker [Lit s]) as [n'|];
      [discriminate | | | exact H].
    + destruct (split_lines s) as [|e [|m [|x ls]]]; try discriminate.
      apply andb_true_iff in H as [He H]. apply String.eqb_eq in He as ->.
      destruct (text_begin_marker m) as [k|] eqn:Eb; [|discriminate].
      destruct (text_end_marker m) eqn:Ee; [discriminate|].
      apply String.eqb_eq in H as ->. eauto.
    + destruct (split_lines s) as [|m [|x ls]]; try discriminate.
      destruct (text_begin_marker m) eqn:Eb; [discriminate|].
      destruct (text_end_marker m) as [k|] eqn:Ee; [|discriminate].
      apply String.eqb_eq in H as ->. eauto.
Qed.

(* ------------------------------------------------------------------ *)
(** ** Sections of the text *)
(* ------------------------------------------------------------------ *)

Lemma text_sections_skip (ts rest : list string) :
  forallb unmarked ts = true ->
  text_sections_from None (ts ++ rest) = text_sections_from None rest.
Proof.
  induction ts as [|t ts IH]; [reflexivity|].
  cbn [forallb app text_sections_from]. intros H. apply andb_true_iff in H as [Ht Hts].
  unfold unmarked in Ht. destruct (text_begin_marker t); [discriminate | auto].
Qed.

Lemma text_sections_inside name (ts : list string) : forall acc rest,
  forallb unmarked ts = true ->
  text_sections_from (Some (name, acc)) (ts ++ rest)
  = text_sections_from (Some (name, rev ts ++ acc)) rest.
Proof.
  induction ts as [|t ts IH]; intros acc rest H; [reflexivity|].
  cbn [forallb app text_sections_from] in *. apply andb_true_iff in H as [Ht Hts].
  unfold unmarked in Ht.
  destruct (text_begin_marker t); [discriminate|].
  destruct (text_end_marker t); [discriminate|].
  rewrite IH by assumption. cbn [rev]. now rewrite <- app_assoc.
Qed.

Lemma rev_flat_map {A B : Type} (f : A -> list B) (l : list A) :
  rev (flat_map f l) = flat_map (fun x => rev (f x)) (rev l).
Proof.
  induction l as [|x l IH]; [reflexivity|].
  cbn [flat_map rev]. rewrite rev_app_distr, IH, flat_map_app.
  cbn [flat_map]. now rewrite app_nil_r.
Qed.

Lemma flat_map_rev_rev {A B : Type} (f : A -> list B) (l : list A) :
  rev (flat_map (fun x => rev (f x)) l) = flat_map f (rev l).
Proof.
  rewrite rev_flat_map. apply flat_map_ext. intros x. apply rev_involutive.
Qed.

(** The text lines a line gives, and the text of a section being read. *)
Lemma text_sections_lines (ls : list line) : forall cur,
  Forall (fun l => reads_back l = true
                   /\ forall u, In u (line_ids l) -> is_id u = true) ls ->
  text_sections_from
    (match cur with
     | Some (name, acc) =>
         Some (name, flat_map (fun l => rev (split_lines (render_line l))) acc)
     | None => None
     end)
    (flat_map (fun l => split_lines (render_line l)) ls)
  = map (fun s => (fst s, flat_map (fun l => split_lines (render_line l)) (snd s)))
        (sections_from cur ls).
Proof.
  induction ls as [|l ls IH]; intros cur Hall; [now destruct cur as [[name acc]|]|].
  inversion Hall as [|? ? [Hl Hids] Hrest]; subst.
  pose proof (reads_back_spec l Hl Hids) as Hspec.
  cbn [flat_map sections_from].
  destruct cur as [[name acc]|].
  - pose proof (IH (Some (name, l :: acc)) Hrest) as IHin. cbn [flat_map] in IHin.
    destruct (begin_marker l) as [n|], (end_marker l) as [n'|]; try contradiction.
    + destruct Hspec as (m & Hsplit & Hb & He). rewrite Hsplit in *.
      cbn [app text_sections_from rev] in *.
      change (text_end_marker EmptyString) with (@None string).
      rewrite He. exact IHin.
    + destruct Hspec as (m & Hsplit & He & Hb). rewrite Hsplit in *.
      cbn [app text_sections_from rev] in *. rewrite He.
      destruct (String.eqb n' name).
      * cbn [map fst snd]. rewrite flat_map_rev_rev. f_equal.
        exact (IH None Hrest).
      * exact IHin.
    + rewrite text_sections_inside by exact Hspec. exact IHin.
  - destruct (begin_marker l) as [n|], (end_marker l) as [n'|]; try contradiction.
    + destruct Hspec as (m & Hsplit & Hb & He). rewrite Hsplit.
      cbn [app text_sections_from]. change (text_begin_marker EmptyString) with (@None string).
      rewrite Hb. exact (IH (Some (n, [])) Hrest).
    + destruct Hspec as (m & Hsplit & He & Hb). rewrite Hsplit.
      cbn [app text_sections_from]. rewrite Hb. exact (IH None Hrest).
    + rewrite text_sections_skip by exact Hspec. exact (IH None Hrest).
Qed.

(* ------------------------------------------------------------------ *)
(** ** Objects of the text *)
(* ------------------------------------------------------------------ *)

Lemma append_assoc (a b c : string) : ((a ++ b) ++ c = a ++ b ++ c)%string.
Proof. induction a as [|x a IH]; [reflexivity|]. cbn. now rewrite IH. Qed.

Lemma prefix_append (p r : string) : String.prefix p (p ++ r) = true.
Proof.
  induction p as [|c p IH]; [now destruct r|].
  cbn [append String.prefix]. destruct (ascii_dec c c); [exact IH | contradiction].
Qed.

Lemma prefix_split (p : string) : forall s,
  String.prefix p s = true -> exists r, s = (p ++ r)%string.
Proof.
  induction p as [|c p IH]; intros s H; [now exists s|].
  destruct s as [|d s]; [discriminate|].
  cbn [String.prefix] in H. destruct (ascii_dec c d) as [<- | _]; [|discriminate].
  destruct (IH s H) as [r ->]. now exists r.
Qed.

Lemma no_defs_ids (l : line) :
  existsb has_def l = false -> line_defs l = [] /\ line_refs l = line_ids l.
Proof.
  unfold line_defs, line_refs, line_ids.
  induction l as [|p l IH]; [now split|].
  cbn [existsb flat_map]. intros H. apply orb_false_iff in H as [Hp Hl].
  destruct (IH Hl) as [-> ->]. destruct p; [now split | discriminate | now split].
Qed.

(** What a line of a section gives in the text: one text line, which
    defines what the line defines and refers to what the line refers to. *)
Lemma object_line_spec (l : line) :
  object_line l = true ->
  (forall u, In u (line_ids l) -> is_id u = true) ->
  split_lines (render_line l) = [render_line l]
  /\ text_def (render_line l)
     = match line_defs l with d :: _ => Some d | [] => None end
  /\ text_refs (render_line l) = line_refs l.
Proof.
  intros H Hids. unfold object_line in H.
  apply andb_true_iff in H as [H Hshape]. apply andb_true_iff in H as [H Hsp].
  apply andb_true_iff in H as [Htab Hnl].
  destruct (spaced_ids l false Hsp Hids) as [Htext _].
  split; [exact (split_lines_plain _ (render_no_newline l Hnl Hids))|].
  unfold text_refs, text_def. rewrite Htext.
  destruct l as [|[s | u | u] rest]; try discriminate.
  assert (Hother : negb (existsb has_def rest)
                   && (match line_ids (Lit s :: rest) with [] => true | _ :: _ => false end
                       || startswith s (tabs 3)) = true ->
                   match line_ids (Lit s :: rest) with
                   | [] => None
                   | id :: _ =>
                       if startswith (render_line (Lit s :: rest)) (tabs 2 ++ id)
                       then Some id else None
                   end = match line_defs (Lit s :: rest) with d :: _ => Some d | [] => None end
                   /\ match
                        match line_ids (Lit s :: rest) with
                        | [] => None
                        | id :: _ =>
                            if startswith (render_line (Lit s :: rest)) (tabs 2 ++ id)
                            then Some id else None
                        end
                      with
                      | Some _ => tl (line_ids (Lit s :: rest))
                      | None => line_ids (Lit s :: rest)
                      end = line_refs (Lit s :: rest)).
  { intros Hsh. apply andb_true_iff in Hsh as [Hno Hor].
    apply negb_true_iff in Hno. destruct (no_defs_ids rest Hno) as [Hdefs Hrefs].
    change (line_defs (Lit s :: rest)) with (line_defs rest).
    change (line_refs (Lit s :: rest)) with (line_refs rest).
    change (line_ids (Lit s :: rest)) with (line_ids rest) in *.
    rewrite Hdefs, Hrefs.
    destruct (line_ids rest) as [|id ids] eqn:E; [now split|].
    cbn [orb] in Hor.
    assert (Hid : is_id id = true) by (apply Hids; now left).
    destruct (is_id_cons id Hid) as (c & r & -> & _ & Hhex).
    destruct (prefix_split _ _ Hor) as [s' ->].
    assert (Hfalse : startswith (render_line (Lit (tabs 3 ++ s') :: rest))
                                (tabs 2 ++ String c r) = false).
    { rewrite render_line_cons. cbn [render_piece]. rewrite append_assoc.
      unfold startswith. cbn [tabs repeat_char join tab append String.prefix].
      change (tabs 3) with (String "009" (String "009" (String "009" EmptyString))).
      change (tabs 2) with (String "009" (String "009" EmptyString)).
      cbn [append String.prefix].
      destruct (ascii_dec "009" "009"); [|contradiction].
      destruct (ascii_dec c "009") as [-> | _]; [discriminate | reflexivity]. }
    rewrite Hfalse. now split. }
  destruct rest as [|[s2 | d | r2] rest']; try exact (Hother Hshape).
  clear Hother.
  apply andb_true_iff in Hshape as [Hs Hno].
  apply String.eqb_eq in Hs as ->. apply negb_true_iff in Hno.
  destruct (no_defs_ids rest' Hno) as [Hdefs Hrefs].
  change (line_ids (Lit (tabs 2) :: DefId d :: rest')) with (d :: line_ids rest').
  change (line_defs (Lit (tabs 2) :: DefId d :: rest')) with (d :: line_defs rest').
  change (line_refs (Lit (tabs 2) :: DefId d :: rest')) with (line_refs rest').
  assert (Htrue : startswith (render_line (Lit (tabs 2) :: DefId d :: rest')) (tabs 2 ++ d)
                  = true).
  { rewrite !render_line_cons. cbn [render_piece]. rewrite <- append_assoc.
    apply prefix_append. }
  cbn iota. rewrite Htrue. cbn [tl]. now split.
Qed.

Lemma text_objects_lines (body : list line) : forall cur,
  Forall (fun l => object_line l = true
                   /\ forall u, In u (line_ids l) -> is_id u = true) body ->
  text_objects_from cur (map render_line body) = objects_from cur body.
Proof.
  induction body as [|l body IH]; intros cur Hall; [reflexivity|].
  inversion Hall as [|? ? [Hl Hids] Hrest]; subst.
  destruct (object_line_spec l Hl Hids) as (_ & Hdef & Hrefs).
  cbn [map text_objects_from objects_from]. rewrite Hdef, Hrefs.
  destruct (line_defs l) as [|d ds]; now rewrite IH.
Qed.

Lemma text_object_heads_lines (body : list line) :
  Forall (fun l => object_line l = true
                   /\ forall u, In u (line_ids l) -> is_id u = true) body ->
  text_object_heads (map render_line body) = object_heads body.
Proof.
  unfold text_object_heads, object_heads.
  induction body as [|l body IH]; intros Hall; [reflexivity|].
  inversion Hall as [|? ? [Hl Hids] Hrest]; subst.
  destruct (object_line_spec l Hl Hids) as (_ & Hdef & _).
  cbn [map filter]. rewrite Hdef, (IH Hrest).
  now destruct (line_defs l).
Qed.

Lemma text_lines_plain (body : list line) :
  Forall (fun l => object_line l = true
                   /\ forall u, In u (line_ids l) -> is_id u = true) body ->
  flat_map (fun l => split_lines (render_line l)) body = map render_line body.
Proof.
  induction body as [|l body IH]; intros Hall; [reflexivity|].
  inversion Hall as [|? ? [Hl Hids] Hrest]; subst.
  destruct (object_line_spec l Hl Hids) as (Hsplit & _).
  cbn [flat_map map]. now rewrite Hsplit, (IH Hrest).
Qed.

(* ------------------------------------------------------------------ *)
(** ** The text of a generated descriptor *)
(* ------------------------------------------------------------------ *)

Lemma file_reference_ids_in_values g id :
  In id (file_reference_ids g) -> In id (Dict.values (file_refs g)).
Proof.
  unfold file_reference_ids, Dict.values, Dict.items.
  induction (file_refs g) as [|[path uid] l IH]; [intros []|].
  cbn [flat_map map snd]. intros H. apply in_app_or in H as [H | H].
  - destruct (recognised path); [|destruct H]. destruct H as [<- | []]. now left.
  - right. now apply IH.
Qed.

(** Every identifier of a generated descriptor is a draw. *)
Lemma descriptor_ids_drawn (rnd : nat -> N) (sources resources : list string) id :
  In id (defined_ids (descriptor (module_init rnd sources resources)))
  \/ In id (referenced_ids (descriptor (module_init rnd sources resources))) ->
  exists k, id = uuid_at rnd k.
Proof.
  set (g := module_init rnd sources resources).
  pose proof (module_init_keyed rnd sources resources) as Hkeyed. fold g in Hkeyed.
  destruct (module_init_allocated rnd sources resources)
    as ([Hk Hlo (ifr & ibf & Hfr & Hbf & Hnd & Hrg)] & Hkeys & Hsrc & _ & Hstruct).
  fold g in Hk, Hfr, Hbf, Hkeys, Hsrc, Hstruct.
  assert (Hvfr : forall u, In u (Dict.values (file_refs g)) -> exists k, u = uuid_at rnd k).
  { intros u Hu. rewrite Hfr in Hu. apply in_map_iff in Hu as (i & <- & _). eauto. }
  assert (Hvbf : forall u, In u (Dict.values (build_files g)) -> exists k, u = uuid_at rnd k).
  { intros u Hu. rewrite Hbf in Hu. apply in_map_iff in Hu as (i & <- & _). eauto. }
  assert (Hs : forall u,
             In u [ PROJECT_UUID g; MAIN_GROUP_UUID g; PRODUCTS_GROUP_UUID g; TARGET_UUID g;
                    PRODUCT_REF_UUID g; SOURCES_PHASE_UUID g; RESOURCES_PHASE_UUID g;
                    FRAMEWORKS_PHASE_UUID g; DEBUG_CONFIG_UUID g; RELEASE_CONFIG_UUID g;
                    TARGET_DEBUG_CFG_UUID g; TARGET_RELEASE_CFG_UUID g;
                    PROJECT_CFGLIST_UUID g; TARGET_CFGLIST_UUID g;
                    SWIFTDATA_FW_REF_UUID g; SWIFTDATA_BUILD_UUID g ] ->
             exists k, u = uuid_at rnd k).
  { intros u Hu. change (In u (structural_ids g)) in Hu. rewrite Hstruct in Hu.
    apply in_map_iff in Hu as (i & <- & _). eauto. }
  clear Hstruct.
  intros [Hid | Hid].
  - rewrite (defined_ids_descriptor g Hkeyed) in Hid. rewrite !in_app_iff in Hid.
    destruct Hid as [Hid | [Hid | [Hid | Hid]]].
    + now apply Hvbf.
    + apply Hs. cbn [In] in *. intuition.
    + now apply Hvfr, file_reference_ids_in_values.
    + apply Hs. cbn [In] in *. intuition.
  - rewrite (referenced_ids_descriptor g Hkeyed) in Hid. rewrite !in_app_iff in Hid.
    destruct Hid as [Hid | [Hid | [Hid | [Hid | [Hid | [Hid | Hid]]]]]].
    + apply in_map_iff in Hid as (p & <- & Hp).
      apply Hvfr, fref_in_values. now rewrite Hk.
    + apply Hs. cbn [In] in *. intuition.
    + now apply Hvfr.
    + apply Hs. cbn [In] in *. intuition.
    + now apply Hvbf, resource_phase_ids_in_values.
    + apply in_map_iff in Hid as (p & <- & Hp).
      apply Hvbf, build_id_in_values, Hkeys. rewrite Hsrc in Hp.
      apply in_or_app. now left.
    + apply Hs. cbn [In] in *. intuition.
Qed.

Lemma line_ids_defs_refs (l : line) u :
  In u (line_ids l) -> In u (line_defs l) \/ In u (line_refs l).
Proof.
  unfold line_ids, line_defs, line_refs. induction l as [|p l IH]; [intros []|].
  cbn [flat_map]. rewrite !in_app_iff. intros [H | H].
  - destruct p; cbn [piece_ids In] in *; tauto.
  - destruct (IH H); tauto.
Qed.

Lemma descriptor_line_ids (rnd : nat -> N) (sources resources : list string) l u :
  In l (descriptor (module_init rnd sources resources)) ->
  In u (line_ids l) -> is_id u = true.
Proof.
  intros Hl Hu.
  destruct (descriptor_ids_drawn rnd sources resources u) as [k ->];
    [|apply uuid_at_is_id].
  destruct (line_ids_defs_refs l u Hu) as [H | H]; [left | right];
    apply in_flat_map; eauto.
Qed.

(** *** Names in the text *)

Lemma all_chars_basename_from (p : ascii -> bool) s : forall cur,
  all_chars p cur = true -> all_chars p s = true ->
  all_chars p (basename_from cur s) = true.
Proof.
  induction s as [|c s IH]; intros cur Hcur Hs; [exact Hcur|].
  cbn [all_chars] in Hs. apply andb_true_iff in Hs as [_ Hs].
  cbn [basename_from]. destruct (Ascii.eqb c "/"); auto.
Qed.

Lemma no_newline_basename p : no_newline p = true -> no_newline (basename p) = true.
Proof. intros H. now apply all_chars_basename_from. Qed.

Lemma basename_from_suffix s : forall cur,
  basename_from cur s = cur
  \/ exists pre, s = (pre ++ "/" ++ basename_from cur s)%string.
Proof.
  induction s as [|c s IH]; intros cur; [now left|].
  cbn [basename_from]. destruct (Ascii.eqb_spec c "/") as [-> | _].
  - right. destruct (IH s) as [-> | [pre Hpre]].
    + now exists EmptyString.
    + exists (String "/" pre). cbn [append]. f_equal. exact Hpre.
  - destruct (IH cur) as [-> | [pre Hpre]]; [now left | right].
    exists (String c pre). cbn [append]. f_equal. exact Hpre.
Qed.

Lemma no_ids_append (a b : string) :
  ends_word a = false \/ starts_word b = false ->
  no_ids (a ++ b) = no_ids a && no_ids b.
Proof.
  intros H. unfold no_ids.
  rewrite <- forallb_app. f_equal.
  destruct H; [now apply words_append_l | now apply words_append_r].
Qed.

Lemma no_ids_basename p : no_ids p = true -> no_ids (basename p) = true.
Proof.
  intros H. unfold basename.
  destruct (basename_from_suffix p p) as [-> | [pre Hpre]]; [exact H|].
  rewrite Hpre in H at 1. rewrite <- append_assoc in H.
  rewrite no_ids_append in H.
  - now apply andb_true_iff in H as [_ H].
  - left. now rewrite ends_word_append.
Qed.

(** A name between two pieces of literal text that keep it apart. *)
Lemma no_ids_between (a name b : string) :
  ends_word a = false -> starts_word b = false ->
  no_ids name = true ->
  no_ids (a ++ name ++ b) = no_ids a && no_ids b.
Proof.
  intros Ha Hb Hname.
  rewrite !no_ids_append by auto. rewrite Hname. reflexivity.
Qed.

Lemma spaced_literal aw (s : string) (rest : line) :
  s <> EmptyString ->
  spaced aw (Lit s :: rest)
  = negb (aw && starts_word s) && no_ids s && spaced (ends_word s) rest.
Proof. destruct s; [congruence | reflexivity]. Qed.

Lemma ends_word_tail (a : string) c b :
  ends_word (a ++ String c b) = ends_word (String c b).
Proof. now rewrite ends_word_append. Qed.

Lemma ends_word_between (a name : string) c b :
  ends_word (a ++ name ++ String c b) = ends_word (String c b).
Proof. now rewrite <- append_assoc, ends_word_tail. Qed.

Lemma append_nonempty (a : string) c b : (a ++ String c b)%string <> EmptyString.
Proof. destruct a; discriminate. Qed.

Section Names.

Variables path uid fref : string.
Hypothesis plain : plain_path path = true.

Lemma plain_no_newline : no_newline path = true.
Proof. now apply andb_true_iff in plain as [H _]. Qed.

Lemma plain_name_no_newline : no_newline (basename path) = true.
Proof. apply no_newline_basename, plain_no_newline. Qed.

Lemma plain_name_no_ids : no_ids (basename path) = true.
Proof. apply no_ids_basename. now apply andb_true_iff in plain as [_ H]. Qed.

Ltac no_newlines :=
  unfold reads_back; apply orb_true_iff; left;
  cbn [tab_led forallb piece_no_newline];
  rewrite ?no_newline_append, ?plain_no_newline, ?plain_name_no_newline; reflexivity.

Lemma reads_back_build_file_line :
  reads_back (pbx_build_file_line (basename path) uid fref) = true.
Proof. unfold pbx_build_file_line. no_newlines. Qed.

Lemma reads_back_file_reference :
  forallb reads_back (pbx_file_reference path uid) = true.
Proof.
  unfold pbx_file_reference.
  destruct (endswith path ".swift"); [|destruct (endswith path ".xcassets")];
    cbn [forallb]; rewrite ?andb_true_r; try reflexivity; no_newlines.
Qed.

Lemma object_line_group_child :
  object_line (pbx_group_child_line (basename path) uid) = true.
Proof.
  unfold pbx_group_child_line.
  change (" /* " ++ basename path ++ " */,")%string
    with (String " " ("/* " ++ basename path ++ " */,")%string).
  unfold object_line.
  cbn [tab_led forallb piece_no_newline spaced line_ids flat_map piece_ids app
       existsb has_def].
  change (String " " ("/* " ++ basename path ++ " */,")%string)
    with (" /* " ++ basename path ++ " */,")%string.
  rewrite !no_newline_append, plain_name_no_newline.
  rewrite (no_ids_between " /* " (basename path) " */,")
    by (reflexivity || exact plain_name_no_ids).
  reflexivity.
Qed.

Lemma object_line_source_entry :
  object_line (pbx_source_entry_line (basename path) uid) = true.
Proof.
  unfold pbx_source_entry_line.
  change (" /* " ++ basename path ++ " in Sources */,")%string
    with (String " " ("/* " ++ basename path ++ " in Sources */,")%string).
  unfold object_line.
  cbn [tab_led forallb piece_no_newline spaced line_ids flat_map piece_ids app
       existsb has_def].
  change (String " " ("/* " ++ basename path ++ " in Sources */,")%string)
    with (" /* " ++ basename path ++ " in Sources */,")%string.
  rewrite !no_newline_append, plain_name_no_newline.
  rewrite (no_ids_between " /* " (basename path) " in Sources */,")
    by (reflexivity || exact plain_name_no_ids).
  reflexivity.
Qed.

Ltac split_no_ids :=
  repeat rewrite no_ids_append by (first [left; reflexivity | right; reflexivity]);
  rewrite ?plain_name_no_ids.

Lemma object_line_build_file :
  object_line (pbx_build_file_line (basename path) uid fref) = true.
Proof.
  unfold pbx_build_file_line, object_line.
  cbn [tab_led forallb piece_no_newline line_ids flat_map piece_ids app existsb has_def
       spaced].
  rewrite !no_newline_append, plain_name_no_newline.
  rewrite !ends_word_between.
  split_no_ids. reflexivity.
Qed.

Lemma plain_no_ids : no_ids path = true.
Proof. now apply andb_true_iff in plain as [_ H]. Qed.

Lemma object_line_file_reference :
  forallb object_line (pbx_file_reference path uid) = true.
Proof.
  unfold pbx_file_reference.
  destruct (endswith path ".swift"); [|destruct (endswith path ".xcassets")];
    cbn [forallb]; rewrite ?andb_true_r; try reflexivity;
    unfold object_line;
    cbn [tab_led forallb piece_no_newline line_ids flat_map piece_ids app existsb has_def
         spaced];
    rewrite !no_newline_append, plain_name_no_newline, plain_no_newline;
    split_no_ids; rewrite ?plain_no_ids; reflexivity.
Qed.

End Names.

Lemma object_line_reads_back (l : line) : object_line l = true -> reads_back l = true.
Proof.
  unfold object_line, reads_back. intros H.
  apply andb_true_iff in H as [H _]. apply andb_true_iff in H as [H _].
  now rewrite H.
Qed.

Section DescriptorText.

Variable g : Globals.
Hypothesis keyed : well_keyed g.
Hypothesis plain_keys : forall p, In p (Dict.keys (file_refs g)) -> plain_path p = true.

Lemma plain_file_ref_items path uid :
  In (path, uid) (Dict.items (file_refs g)) -> plain_path path = true.
Proof. intros H. apply plain_keys. unfold Dict.keys. now apply (in_map fst) in H. Qed.

Lemma plain_build_file_items path uid :
  In (path, uid) (Dict.items (build_files g)) -> plain_path path = true.
Proof.
  intros H. apply plain_keys. destruct keyed as [-> _].
  unfold Dict.keys. now apply (in_map fst) in H.
Qed.

Lemma plain_sources path : In path (SOURCE_FILES g) -> plain_path path = true.
Proof. intros H. apply plain_keys. destruct keyed as [-> Hsrc]. now apply Hsrc. Qed.

Lemma forallb_map_in {A B : Type} (p : B -> bool) (f : A -> B) (xs : list A) :
  (forall x, In x xs -> p (f x) = true) -> forallb p (map f xs) = true.
Proof.
  intros H. apply forallb_forall. intros y Hy.
  apply in_map_iff in Hy as (x & <- & Hx). now apply H.
Qed.

Lemma forallb_flat_map_in {A B : Type} (p : B -> bool) (f : A -> list B) (xs : list A) :
  (forall x, In x xs -> forallb p (f x) = true) -> forallb p (flat_map f xs) = true.
Proof.
  intros H. apply forallb_forall. intros y Hy.
  apply in_flat_map in Hy as (x & Hx & Hy).
  specialize (H x Hx). rewrite forallb_forall in H. now apply H.
Qed.

Lemma object_lines_group_children : forallb object_line (group_children g) = true.
Proof.
  unfold group_children. apply forallb_map_in. intros [path uid] Hin.
  apply object_line_group_child. now apply plain_file_ref_items in Hin.
Qed.

Lemma object_lines_source_entries : forallb object_line (source_entries g) = true.
Proof.
  unfold source_entries. apply forallb_map_in. intros path Hin.
  apply object_line_source_entry. now apply plain_sources.
Qed.

Lemma object_lines_build_file_entries : forallb object_line (build_file_entries g) = true.
Proof.
  unfold build_file_entries. apply forallb_map_in. intros [path uid] Hin.
  apply object_line_build_file. now apply plain_build_file_items in Hin.
Qed.

Lemma object_lines_file_references :
  forallb object_line
    (flat_map (fun '(path, uid) => pbx_file_reference path uid) (Dict.items (file_refs g)))
  = true.
Proof.
  apply forallb_flat_map_in. intros [path uid] Hin.
  apply object_line_file_reference. now apply plain_file_ref_items in Hin.
Qed.

Lemma object_lines_resource_entries : forallb object_line (resource_entries g) = true.
Proof. unfold resource_entries. destruct (Dict.get _ _); vm_compute; reflexivity. Qed.

Lemma reads_back_build_file_entries : forallb reads_back (build_file_entries g) = true.
Proof.
  unfold build_file_entries. apply forallb_map_in. intros [path uid] Hin.
  apply reads_back_build_file_line. now apply plain_build_file_items in Hin.
Qed.

Lemma reads_back_file_references :
  forallb reads_back
    (flat_map (fun '(path, uid) => pbx_file_reference path uid) (Dict.items (file_refs g)))
  = true.
Proof.
  apply forallb_flat_map_in. intros [path uid] Hin.
  apply reads_back_file_reference. now apply plain_file_ref_items in Hin.
Qed.

Lemma forallb_weaken {A : Type} (p r : A -> bool) (l : list A) :
  (forall x, p x = true -> r x = true) -> forallb p l = true -> forallb r l = true.
Proof.
  intros Hpr H. rewrite forallb_forall in *. auto.
Qed.

Ltac settle :=
  repeat match goal with
         | |- context [forallb ?p ?l] =>
             let H := fresh "H" in
             assert (H : forallb p l = true) by (vm_compute; reflexivity);
             rewrite !H; clear H
         end;
  reflexivity.

(** Every line of the descriptor reads in the text as it reads as a
    line. *)
Lemma descriptor_reads_back : forallb reads_back (descriptor g) = true.
Proof.
  unfold descriptor, pbx_PBXBuildFile, pbx_PBXResourcesBuildPhase,
    pbx_PBXSourcesBuildPhase, pbx_PBXFileReference, pbx_PBXGroup.
  rewrite (build_file_loop g keyed), (resource_branch g), (source_loop g keyed).
  cbn [rbind unwrap]. fold (group_children g).
  rewrite !forallb_app.
  rewrite reads_back_build_file_entries, reads_back_file_references.
  rewrite (forallb_weaken _ _ _ object_line_reads_back object_lines_group_children).
  rewrite (forallb_weaken _ _ _ object_line_reads_back object_lines_source_entries).
  rewrite (forallb_weaken _ _ _ object_line_reads_back object_lines_resource_entries).
  settle.
Qed.

(** The lines of the sections whose objects are read. *)
Lemma object_lines_PBXBuildFile :
  forallb object_line (middle (unwrap (pbx_PBXBuildFile g))) = true.
Proof.
  unfold pbx_PBXBuildFile. rewrite (build_file_loop g keyed). cbn [rbind unwrap].
  rewrite middle_insert by discriminate. cbn [tl].
  rewrite !forallb_app, object_lines_build_file_entries. settle.
Qed.

Lemma object_lines_PBXFileReference :
  forallb object_line (middle (pbx_PBXFileReference g)) = true.
Proof.
  unfold pbx_PBXFileReference.
  rewrite middle_insert by discriminate. cbn [tl].
  rewrite !forallb_app, object_lines_file_references. settle.
Qed.

Lemma object_lines_PBXFrameworksBuildPhase :
  forallb object_line (middle (pbx_PBXFrameworksBuildPhase g)) = true.
Proof. vm_compute. reflexivity. Qed.

Lemma object_lines_PBXGroup : forallb object_line (middle (pbx_PBXGroup g)) = true.
Proof.
  unfold pbx_PBXGroup. fold (group_children g).
  rewrite middle_insert by discriminate. cbn [tl].
  rewrite !forallb_app, object_lines_group_children. settle.
Qed.

Lemma object_lines_PBXNativeTarget :
  forallb object_line (middle (pbx_PBXNativeTarget g)) = true.
Proof. vm_compute. reflexivity. Qed.

Lemma object_lines_PBXProject : forallb object_line (middle (pbx_PBXProject g)) = true.
Proof. vm_compute. reflexivity. Qed.

Lemma object_lines_PBXResourcesBuildPhase :
  forallb object_line (middle (unwrap (pbx_PBXResourcesBuildPhase g))) = true.
Proof.
  unfold pbx_PBXResourcesBuildPhase. rewrite (resource_branch g). cbn [rbind unwrap].
  rewrite middle_insert by discriminate. cbn [tl].
  rewrite !forallb_app, object_lines_resource_entries. settle.
Qed.

Lemma object_lines_PBXSourcesBuildPhase :
  forallb object_line (middle (unwrap (pbx_PBXSourcesBuildPhase g))) = true.
Proof.
  unfold pbx_PBXSourcesBuildPhase. rewrite (source_loop g keyed). cbn [rbind unwrap].
  rewrite middle_insert by discriminate. cbn [tl].
  rewrite !forallb_app, object_lines_source_entries. settle.
Qed.

Lemma object_lines_XCBuildConfiguration :
  forallb object_line (middle (pbx_XCBuildConfiguration g)) = true.
Proof. vm_compute. reflexivity. Qed.

Lemma object_lines_XCConfigurationList :
  forallb object_line (middle (pbx_XCConfigurationList g)) = true.
Proof. vm_compute. reflexivity. Qed.

End DescriptorText.

Lemma flat_map_map {A B C : Type} (f : B -> list C) (h : A -> B) (l : list A) :
  flat_map f (map h l) = flat_map (fun x => f (h x)) l.
Proof. induction l as [|x l IH]; [reflexivity|]. cbn [map flat_map]. now rewrite IH. Qed.

Lemma object_line_defs (l : line) :
  object_line l = true -> line_defs l = [] \/ exists d, line_defs l = [d].
Proof.
  unfold object_line. intros H. apply andb_true_iff in H as [_ H].
  destruct l as [|[s | u | u] rest]; try discriminate.
  destruct rest as [|[s2 | d | r2] rest'];
    try (apply andb_true_iff in H as [H _]; apply negb_true_iff in H;
         left; exact (proj1 (no_defs_ids _ H))).
  apply andb_true_iff in H as [_ H]. apply negb_true_iff in H.
  right. exists d. change (line_defs (Lit s :: DefId d :: rest')) with (d :: line_defs rest').
  now rewrite (proj1 (no_defs_ids _ H)).
Qed.

(** The objects of a run of section lines are defined under the
    identifiers the lines define, in order. *)
Lemma objects_defined (body : list line) : forall cur,
  forallb object_line body = true ->
  map fst (objects_from cur body)
  = match cur with Some o => [fst o] | None => [] end ++ defined_ids body.
Proof.
  induction body as [|l body IH]; intros cur H.
  - cbn [objects_from defined_ids flat_map]. rewrite app_nil_r. now destruct cur.
  - cbn [forallb] in H. apply andb_true_iff in H as [Hl Hbody].
    cbn [objects_from defined_ids flat_map].
    destruct (object_line_defs l Hl) as [-> | [d ->]].
    + rewrite IH by assumption. now destruct cur as [[d refs]|].
    + rewrite map_app, IH by assumption. now destruct cur as [[d' refs]|].
Qed.

Section GeneratedText.

Variable rnd : nat -> N.
Variables sources resources : list string.
Hypothesis plain : forall p, In p (sources ++ resources) -> plain_path p = true.

Lemma generated_plain_keys p :
  In p (Dict.keys (file_refs (module_init rnd sources resources))) -> plain_path p = true.
Proof.
  intros Hp. apply plain.
  destruct (module_init_allocated rnd sources resources) as ([Hk _ _] & Hkeys & _).
  apply Hkeys. now rewrite <- Hk.
Qed.

Lemma generated_lines (ls : list line) (check : line -> bool) :
  incl ls (descriptor (module_init rnd sources resources)) ->
  forallb check ls = true ->
  Forall (fun l => check l = true /\ forall u, In u (line_ids l) -> is_id u = true) ls.
Proof.
  intros Hincl Hcheck. apply Forall_forall. intros l Hl. split.
  - rewrite forallb_forall in Hcheck. now apply Hcheck.
  - intros u. apply (descriptor_line_ids rnd sources resources). now apply Hincl.
Qed.

(** The text of the generated descriptor, line by line and section by
    section. *)
Lemma generated_text_sections :
  text_sections (join nl (map render_line (descriptor (module_init rnd sources resources))))
  = map (fun s => (fst s, flat_map (fun l => split_lines (render_line l)) (snd s)))
        (sections (descriptor (module_init rnd sources resources))).
Proof.
  pose proof (module_init_keyed rnd sources resources) as Hkeyed.
  unfold text_sections, sections.
  rewrite split_lines_join, flat_map_map by (unfold descriptor, pbx_header; discriminate).
  apply (text_sections_lines _ None).
  apply generated_lines; [apply incl_refl|].
  apply descriptor_reads_back; [exact Hkeyed | exact generated_plain_keys].
Qed.

Lemma generated_text_section name (body : list line) :
  section name (descriptor (module_init rnd sources resources)) = body ->
  incl body (descriptor (module_init rnd sources resources)) ->
  forallb object_line body = true ->
  text_section name
    (join nl (map render_line (descriptor (module_init rnd sources resources))))
  = map render_line body
  /\ text_objects (map render_line body) = objects body
  /\ text_object_heads (map render_line body) = object_heads body.
Proof.
  intros Hsec Hincl Hlines.
  pose proof (generated_lines body object_line Hincl Hlines) as Hall.
  split; [|split].
  - unfold text_section. rewrite generated_text_sections.
    rewrite <- (text_lines_plain body Hall), <- Hsec. unfold section.
    induction (sections (descriptor (module_init rnd sources resources)))
      as [|[n b] secs IH]; [reflexivity|].
    cbn [map find fst snd]. destruct (String.eqb n name); [reflexivity | exact IH].
  - now apply text_objects_lines.
  - now apply text_object_heads_lines.
Qed.

End GeneratedText.

Lemma section_PBXBuildFile (g : Globals) :
  well_keyed g ->
  section "PBXBuildFile" (descriptor g) = middle (unwrap (pbx_PBXBuildFile g)).
Proof.
  intros keyed. unfold section. rewrite (sections_descriptor g keyed). reflexivity.
Qed.

Lemma defined_ids_PBXBuildFile (g : Globals) :
  well_keyed g ->
  defined_ids (middle (unwrap (pbx_PBXBuildFile g)))
  = Dict.values (build_files g) ++ [SWIFTDATA_BUILD_UUID g].
Proof.
  intros keyed. unfold pbx_PBXBuildFile. rewrite (build_file_loop g keyed).
  cbn [rbind unwrap]. rewrite middle_insert by discriminate. cbn [tl app removelast].
  rewrite defined_ids_app, (proj1 (ids_build_file_entries g)). reflexivity.
Qed.

Lemma defined_ids_PBXFileReference (g : Globals) :
  defined_ids (middle (pbx_PBXFileReference g))
  = file_reference_ids g ++ [PRODUCT_REF_UUID g; SWIFTDATA_FW_REF_UUID g].
Proof.
  unfold pbx_PBXFileReference. rewrite middle_insert by discriminate. cbn [tl app].
  rewrite defined_ids_app, (proj1 (ids_file_references g)). reflexivity.
Qed.

Ltac in_descriptor :=
  let l := fresh "l" in
  let Hl := fresh "Hl" in
  intros l Hl; apply In_middle in Hl; unfold descriptor; rewrite !in_app_iff; tauto.

(** C3. When no manifest path holds a newline or a word that reads as an
    identifier, the text [pbxproj] returns for a generated project, read
    back line by line, has exactly these sections, in this order:
    PBXBuildFile, PBXFileReference, PBXFrameworksBuildPhase, PBXGroup,
    PBXNativeTarget, PBXProject, PBXResourcesBuildPhase,
    PBXSourcesBuildPhase, XCBuildConfiguration, XCConfigurationList.  The
    first two define the build files and the file references; then come one
    frameworks phase with the one framework build file, the main group and
    the Products group nested in it, one native target, one project object,
    one resources and one sources phase, the four build configurations
    (project Debug, project Release, target Debug, target Release) and the
    two configuration lists, each referencing its two variants. *)
Theorem descriptor_section_order (rnd : nat -> N) (sources resources : list string) :
  let g := module_init rnd sources resources in
  (forall p, In p (sources ++ resources) -> plain_path p = true) ->
  exists text,
    pbxproj g = Ok text
    /\ text_section_names text
       = [ "PBXBuildFile"; "PBXFileReference"; "PBXFrameworksBuildPhase"; "PBXGroup";
           "PBXNativeTarget"; "PBXProject"; "PBXResourcesBuildPhase";
           "PBXSourcesBuildPhase"; "XCBuildConfiguration"; "XCConfigurationList" ]%string
    /\ map fst (text_objects (text_section "PBXBuildFile" text))
       = Dict.values (build_files g) ++ [SWIFTDATA_BUILD_UUID g]
    /\ map fst (text_objects (text_section "PBXFileReference" text))
       = file_reference_ids g ++ [PRODUCT_REF_UUID g; SWIFTDATA_FW_REF_UUID g]
    /\ text_objects (text_section "PBXFrameworksBuildPhase" text)
       = [(FRAMEWORKS_PHASE_UUID g, [SWIFTDATA_BUILD_UUID g])]
    /\ text_objects (text_section "PBXGroup" text)
       = [ (MAIN_GROUP_UUID g,
            Dict.values (file_refs g) ++ [PRODUCTS_GROUP_UUID g; SWIFTDATA_FW_REF_UUID g]);
           (PRODUCTS_GROUP_UUID g, [PRODUCT_REF_UUID g]) ]
    /\ text_objects (text_section "PBXNativeTarget" text)
       = [(TARGET_UUID g,
           [ TARGET_CFGLIST_UUID g; SOURCES_PHASE_UUID g; RESOURCES_PHASE_UUID g;
             FRAMEWORKS_PHASE_UUID g; PRODUCT_REF_UUID g ])]
    /\ text_objects (text_section "PBXProject" text)
       = [(PROJECT_UUID g,
           [ TARGET_UUID g; PROJECT_CFGLIST_UUID g; MAIN_GROUP_UUID g;
             PRODUCTS_GROUP_UUID g; TARGET_UUID g ])]
    /\ map fst (text_objects (text_section "PBXResourcesBuildPhase" text))
       = [RESOURCES_PHASE_UUID g]
    /\ map fst (text_objects (text_section "PBXSourcesBuildPhase" text))
       = [SOURCES_PHASE_UUID g]
    /\ text_object_heads (text_section "XCBuildConfiguration" text)
       = [ (tabs 2 ++ DEBUG_CONFIG_UUID g ++ " /* Debug */ = {")%string;
           (tabs 2 ++ RELEASE_CONFIG_UUID g ++ " /* Release */ = {")%string;
           (tabs 2 ++ TARGET_DEBUG_CFG_UUID g ++ " /* Debug */ = {")%string;
           (tabs 2 ++ TARGET_RELEASE_CFG_UUID g ++ " /* Release */ = {")%string ]
    /\ text_objects (text_section "XCConfigurationList" text)
       = [ (PROJECT_CFGLIST_UUID g, [DEBUG_CONFIG_UUID g; RELEASE_CONFIG_UUID g]);
           (TARGET_CFGLIST_UUID g, [TARGET_DEBUG_CFG_UUID g; TARGET_RELEASE_CFG_UUID g]) ].
Proof.
  intros g Hplain.
  pose proof (module_init_keyed rnd sources resources) as Hkeyed. fold g in Hkeyed.
  pose proof (generated_plain_keys rnd sources resources Hplain) as Hkeys. fold g in Hkeys.
  pose proof (generated_text_section rnd sources resources Hplain) as Hread. fold g in Hread.
  exists (join nl (map render_line (descriptor g))).
  split; [now apply pbxproj_ok|].
  split.
  { pose proof (generated_text_sections rnd sources resources Hplain) as Hsecs.
    fold g in Hsecs. unfold text_section_names.
    rewrite Hsecs, (sections_descriptor g Hkeyed). reflexivity. }
  split.
  { destruct (Hread _ _ (section_PBXBuildFile g Hkeyed)) as (-> & -> & _);
      [in_descriptor | now apply object_lines_PBXBuildFile|].
    unfold objects. rewrite objects_defined by now apply object_lines_PBXBuildFile.
    now apply defined_ids_PBXBuildFile. }
  split.
  { destruct (Hread _ _ (section_PBXFileReference g Hkeyed)) as (-> & -> & _);
      [in_descriptor | now apply object_lines_PBXFileReference|].
    unfold objects. rewrite objects_defined by now apply object_lines_PBXFileReference.
    apply defined_ids_PBXFileReference. }
  split.
  { destruct (Hread _ _ (section_PBXFrameworksBuildPhase g Hkeyed)) as (-> & -> & _);
      [in_descriptor | apply object_lines_PBXFrameworksBuildPhase|].
    rewrite <- (section_PBXFrameworksBuildPhase g Hkeyed).
    now apply objects_PBXFrameworksBuildPhase. }
  split.
  { destruct (Hread _ _ (section_PBXGroup g Hkeyed)) as (-> & -> & _);
      [in_descriptor | now apply object_lines_PBXGroup|].
    rewrite <- (section_PBXGroup g Hkeyed). now apply objects_PBXGroup. }
  split.
  { destruct (Hread _ _ (section_PBXNativeTarget g Hkeyed)) as (-> & -> & _);
      [in_descriptor | apply object_lines_PBXNativeTarget|].
    rewrite <- (section_PBXNativeTarget g Hkeyed). now apply objects_PBXNativeTarget. }
  split.
  { destruct (Hread _ _ (section_PBXProject g Hkeyed)) as (-> & -> & _);
      [in_descriptor | apply object_lines_PBXProject|].
    rewrite <- (section_PBXProject g Hkeyed). now apply objects_PBXProject. }
  split.
  { destruct (Hread _ _ (section_PBXResourcesBuildPhase g Hkeyed)) as (-> & -> & _);
      [in_descriptor | now apply object_lines_PBXResourcesBuildPhase|].
    rewrite <- (section_PBXResourcesBuildPhase g Hkeyed).
    now rewrite (objects_PBXResourcesBuildPhase g Hkeyed). }
  split.
  { destruct (Hread _ _ (section_PBXSourcesBuildPhase g Hkeyed)) as (-> & -> & _);
      [in_descriptor | now apply object_lines_PBXSourcesBuildPhase|].
    rewrite <- (section_PBXSourcesBuildPhase g Hkeyed).
    now rewrite (objects_PBXSourcesBuildPhase g Hkeyed). }
  split.
  { destruct (Hread _ _ (section_XCBuildConfiguration g Hkeyed)) as (-> & _ & ->);
      [in_descriptor | apply object_lines_XCBuildConfiguration|].
    rewrite <- (section_XCBuildConfiguration g Hkeyed).
    now apply heads_XCBuildConfiguration. }
  destruct (Hread _ _ (section_XCConfigurationList g Hkeyed)) as (-> & -> & _);
    [in_descriptor | apply object_lines_XCConfigurationList|].
  rewrite <- (section_XCConfigurationList g Hkeyed).
  now apply objects_XCConfigurationList.
Qed.

(** No path of the shipped manifest holds a newline or reads as an
    identifier. *)
Lemma descriptor_section_order_witness :
  forallb plain_path (Manifest.SOURCE_FILES ++ Manifest.RESOURCE_FILES) = true
  /\ exists text,
       pbxproj (module_init counter_rnd Manifest.SOURCE_FILES Manifest.RESOURCE_FILES)
       = Ok text
       /\ text_section_names text
          = [ "PBXBuildFile"; "PBXFileReference"; "PBXFrameworksBuildPhase"; "PBXGroup";
              "PBXNativeTarget"; "PBXProject"; "PBXResourcesBuildPhase";
              "PBXSourcesBuildPhase"; "XCBuildConfiguration"; "XCConfigurationList" ]%string.
Proof.
  assert (H : forallb plain_path (Manifest.SOURCE_FILES ++ Manifest.RESOURCE_FILES) = true)
    by (vm_compute; reflexivity).
  split; [exact H|].
  destruct (descriptor_section_order counter_rnd Manifest.SOURCE_FILES
              Manifest.RESOURCE_FILES)
    as (text & Htext & Hnames & _).
  { intros p Hp. rewrite forallb_forall in H. now apply H. }
  exists text. now split.
Defined.

(** A path that holds an [End] and a [Begin] line of its own makes the
    text read back with sections of its making. *)
Lemma path_can_forge_section :
  let forged :=
    ("A" ++ nl ++ "/* End PBXFileReference section */" ++ nl
         ++ "/* Begin Forged section */" ++ nl
         ++ "/* End Forged section */" ++ nl
         ++ "/* Begin PBXFileReference section */" ++ nl ++ ".swift")%string in
  exists text,
    pbxproj (module_init counter_rnd [forged] []) = Ok text
    /\ plain_path forged = false
    /\ text_section_names text
       = [ "PBXBuildFile"; "PBXFileReference"; "Forged"; "PBXFileReference";
           "PBXFrameworksBuildPhase"; "PBXGroup"; "PBXNativeTarget"; "PBXProject";
           "PBXResourcesBuildPhase"; "PBXSourcesBuildPhase"; "XCBuildConfiguration";
           "XCConfigurationList" ]%string.
Proof.
  intros forged. eexists. split; [apply pbxproj_ok, module_init_keyed|].
  split; vm_compute; reflexivity.
Qed.

(* ================================================================== *)
(** * Further properties *)
(* ================================================================== *)

(* ------------------------------------------------------------------ *)
(** ** Indentation *)
(* ------------------------------------------------------------------ *)

Lemma tabs_add a b : tabs (a + b) = (tabs a ++ tabs b)%string.
Proof. induction a as [|a IH]; [reflexivity|]. cbn. now rewrite IH. Qed.

Lemma length_tabs n : String.length (tabs n) = n.
Proof. induction n as [|n IH]; [reflexivity|]. cbn. now rewrite IH. Qed.

Lemma drop_append (a b : string) : drop (String.length a) (a ++ b) = b.
Proof. induction a as [|x a IH]; [now destruct b | exact IH]. Qed.

(** X1. Indenting twice is indenting once by the sum; an indented string is
    longer by the indentation, and cutting that many characters off its
    front gives the string back. *)
Theorem indent_compose (a b : nat) (s : string) :
  indent a (indent b s) = indent (a + b) s
  /\ String.length (indent a s) = a + String.length s
  /\ drop a (indent a s) = s.
Proof.
  unfold indent. split; [|split].
  - now rewrite tabs_add, append_assoc.
  - now rewrite length_append, length_tabs.
  - rewrite <- (length_tabs a) at 1. apply drop_append.
Qed.

(* ------------------------------------------------------------------ *)
(** ** The dictionaries the module body builds *)
(* ------------------------------------------------------------------ *)

Lemma mem_true_iff s l : mem s l = true <-> In s l.
Proof. split; [apply mem_In | apply In_mem]. Qed.

Lemma contains_mem d k : Dict.contains d k = mem k (Dict.keys d).
Proof.
  destruct (Dict.contains d k) eqn:E.
  - symmetry. apply In_mem. now apply DictFacts.contains_keys.
  - destruct (mem k (Dict.keys d)) eqn:E'; [|reflexivity].
    apply mem_In, DictFacts.contains_keys in E'. congruence.
Qed.

Lemma add_new_app acc a b : add_new acc (a ++ b) = add_new (add_new acc a) b.
Proof. revert acc. induction a as [|x a IH]; intros acc; [reflexivity | apply IH]. Qed.

Lemma add_new_In acc paths p : In p (add_new acc paths) <-> In p acc \/ In p paths.
Proof.
  revert acc. induction paths as [|x paths IH]; intros acc; cbn [add_new In].
  - tauto.
  - rewrite IH. destruct (mem x acc) eqn:E.
    + apply mem_In in E. split; [tauto | intros [H | [<- | H]]; auto].
    + rewrite in_app_iff. cbn [In]. tauto.
Qed.

Lemma add_new_NoDup acc paths : NoDup acc -> NoDup (add_new acc paths).
Proof.
  revert acc. induction paths as [|x paths IH]; intros acc Hnd; [exact Hnd|].
  cbn [add_new]. apply IH. destruct (mem x acc) eqn:E; [exact Hnd|].
  apply NoDup_app; [exact Hnd | repeat constructor; intros [] |].
  intros y Hy [<- | []]. apply In_mem in Hy. congruence.
Qed.

(** A list without repetition is its own list of distinct elements. *)
Lemma add_new_fresh acc paths :
  NoDup (acc ++ paths) -> add_new acc paths = acc ++ paths.
Proof.
  revert acc. induction paths as [|x paths IH]; intros acc Hnd; cbn [add_new].
  - now rewrite app_nil_r.
  - destruct (mem x acc) eqn:E.
    + apply mem_In in E. exfalso.
      apply (NoDup_app_disjoint _ _ Hnd x E). now left.
    + change (x :: paths) with ([x] ++ paths) in *. rewrite app_assoc in Hnd |- *.
      now apply IH.
Qed.

Section Allocation.

Variable rnd : nat -> N.

Lemma assign_ids_app a b fr bf k :
  assign_ids rnd (a ++ b) fr bf k
  = let '(fr1, bf1, k1) := assign_ids rnd a fr bf k in assign_ids rnd b fr1 bf1 k1.
Proof.
  revert fr bf k. induction a as [|x a IH]; intros fr bf k; [reflexivity|].
  cbn [app assign_ids]. apply IH.
Qed.

(** The two loops of the module body are one loop over the sources
    followed by the resources. *)
Lemma module_init_dicts sources resources :
  let g := module_init rnd sources resources in
  assign_ids rnd (sources ++ resources) Dict.empty Dict.empty 16
  = (file_refs g, build_files g, ids_drawn sources resources).
Proof.
  unfold module_init. rewrite assign_ids_app.
  destruct (assign_ids rnd sources Dict.empty Dict.empty 16) as [[fr bf] k] eqn:E1.
  destruct (assign_ids rnd resources fr bf k) as [[fr' bf'] k'] eqn:E2.
  cbn -[ids_drawn].
  destruct (assign_ids_spec rnd _ _ _ _ _ _ _ _ E1 (allocated_empty rnd 16)) as (H1 & Hk1 & _).
  destruct (assign_ids_spec rnd _ _ _ _ _ _ _ _ E2 H1) as (_ & Hk2 & _).
  f_equal. unfold ids_drawn. lia.
Qed.

Lemma assign_ids_keys paths : forall fr bf k fr' bf' k',
  assign_ids rnd paths fr bf k = (fr', bf', k') ->
  Dict.keys fr' = add_new (Dict.keys fr) paths
  /\ Dict.keys bf' = add_new (Dict.keys bf) paths.
Proof.
  induction paths as [|p paths IH]; intros fr bf k fr' bf' k' E; cbn [assign_ids add_new] in *.
  - injection E as <- <- _. now split.
  - apply IH in E. now rewrite !DictFacts.keys_set, !contains_mem in E.
Qed.

(** What the loop leaves under each path: nothing new under a path it did
    not meet, and under a path it met the pair of draws of the last
    meeting. *)
Lemma assign_ids_get paths : forall fr bf k fr' bf' k',
  assign_ids rnd paths fr bf k = (fr', bf', k') ->
  (forall p, ~ In p paths ->
             Dict.get fr' p = Dict.get fr p /\ Dict.get bf' p = Dict.get bf p)
  /\ (forall i p, nth_error paths i = Some p -> ~ In p (skipn (S i) paths) ->
                  Dict.get fr' p = Some (uuid_at rnd (k + 2 * i))
                  /\ Dict.get bf' p = Some (uuid_at rnd (k + 2 * i + 1))).
Proof.
  induction paths as [|x paths IH]; intros fr bf k fr' bf' k' E; cbn [assign_ids] in E.
  - injection E as <- <- _. split; [now split|]. intros [|i] p H; discriminate.
  - destruct (IH _ _ _ _ _ _ E) as [Hout Hin]. split.
    + intros p Hp. cbn [In] in Hp.
      destruct (Hout p) as [H1 H2]; [tauto|].
      rewrite H1, H2, !DictFacts.get_set_other by tauto. now split.
    + intros [|i] p Hnth Hlast.
      * cbn in Hnth. injection Hnth as ->. cbn [skipn] in Hlast.
        destruct (Hout p Hlast) as [H1 H2].
        rewrite H1, H2, !DictFacts.get_set_same.
        replace (k + 2 * 0) with k by lia. replace (k + 1) with (S k) by lia. now split.
      * cbn [nth_error] in Hnth. cbn [skipn] in Hlast.
        destruct (Hin i p Hnth Hlast) as [H1 H2]. rewrite H1, H2.
        split; do 2 f_equal; lia.
Qed.

End Allocation.

(** X2. After the module body has run, [file_refs] and [build_files] have
    the same keys: the distinct paths of the manifest, sources before
    resources, each where it first occurs, so that a repeated path has one
    entry; for a manifest without repetition the keys are the manifest. *)
Theorem dictionary_keys (rnd : nat -> N) (sources resources : list string) :
  let g := module_init rnd sources resources in
  let keys := distinct_paths (sources ++ resources) in
  Dict.keys (file_refs g) = keys
  /\ Dict.keys (build_files g) = keys
  /\ NoDup keys
  /\ (forall p, In p keys <-> In p sources \/ In p resources)
  /\ List.length keys <= List.length sources + List.length resources
  /\ (NoDup (sources ++ resources) -> keys = sources ++ resources).
Proof.
  intros g keys. subst keys. unfold distinct_paths.
  destruct (assign_ids_keys rnd _ _ _ _ _ _ _ (module_init_dicts rnd sources resources))
    as [Hfr Hbf].
  fold g in Hfr, Hbf. cbn [Dict.keys Dict.empty map] in Hfr, Hbf.
  assert (Hnd : NoDup (add_new [] (sources ++ resources))).
  { apply add_new_NoDup. constructor. }
  assert (Hin : forall p, In p (add_new [] (sources ++ resources))
                          <-> In p sources \/ In p resources).
  { intros p. rewrite add_new_In, in_app_iff. cbn [In]. tauto. }
  split; [exact Hfr|]. split; [exact Hbf|]. split; [exact Hnd|]. split; [exact Hin|].
  split.
  - rewrite <- length_app. apply NoDup_incl_length; [exact Hnd|].
    intros p Hp. apply Hin in Hp. now apply in_or_app.
  - intros H. now apply (add_new_fresh []).
Qed.

Lemma dictionary_keys_witness :
  NoDup (Manifest.SOURCE_FILES ++ Manifest.RESOURCE_FILES)
  /\ distinct_paths (Manifest.SOURCE_FILES ++ Manifest.RESOURCE_FILES)
     = Manifest.SOURCE_FILES ++ Manifest.RESOURCE_FILES.
Proof.
  assert (H : NoDup (Manifest.SOURCE_FILES ++ Manifest.RESOURCE_FILES)).
  { apply no_duplicate_NoDup. vm_compute. reflexivity. }
  split; [exact H|].
  exact (proj2 (proj2 (proj2 (proj2 (proj2
           (dictionary_keys counter_rnd Manifest.SOURCE_FILES Manifest.RESOURCE_FILES)))))
         H).
Defined.

(** X3. The identifiers of a path are the two consecutive draws made at its
    last occurrence in the manifest (sources, then resources): the file
    reference is draw [16 + 2i] and the build file draw [16 + 2i + 1] for
    the last position [i] of the path; draws made at earlier occurrences are
    overwritten. *)
Theorem identifiers_of_path (rnd : nat -> N) (sources resources : list string)
    (i : nat) (p : string) :
  let g := module_init rnd sources resources in
  nth_error (sources ++ resources) i = Some p ->
  ~ In p (skipn (S i) (sources ++ resources)) ->
  Dict.get (file_refs g) p = Some (uuid_at rnd (16 + 2 * i))
  /\ Dict.get (build_files g) p = Some (uuid_at rnd (16 + 2 * i + 1)).
Proof.
  intros g Hnth Hlast.
  exact (proj2 (assign_ids_get rnd _ _ _ _ _ _ _ (module_init_dicts rnd sources resources))
               i p Hnth Hlast).
Qed.

Lemma identifiers_of_path_witness :
  let sources := ["A.swift"; "B.swift"; "A.swift"]%string in
  let g := module_init counter_rnd sources [] in
  nth_error (sources ++ []) 2 = Some "A.swift"%string
  /\ ~ In "A.swift"%string (skipn 3 (sources ++ []))
  /\ Dict.get (file_refs g) "A.swift" = Some (uuid_at counter_rnd 20).
Proof.
  intros sources g.
  assert (H1 : nth_error (sources ++ []) 2 = Some "A.swift"%string) by reflexivity.
  assert (H2 : ~ In "A.swift"%string (skipn 3 (sources ++ []))) by (intros []).
  split; [exact H1|]. split; [exact H2|].
  exact (proj1 (identifiers_of_path counter_rnd sources [] 2 "A.swift" H1 H2)).
Defined.

(** X4. When the draws of a run are pairwise distinct, so are the
    identifiers it hands out: the sixteen structural ones, the file
    references and the build files, whatever the manifest. *)
Theorem identifiers_distinct (rnd : nat -> N) (sources resources : list string) :
  let g := module_init rnd sources resources in
  NoDup (map (uuid_at rnd) (seq 0 (ids_drawn sources resources))) ->
  NoDup (structural_ids g ++ Dict.values (file_refs g) ++ Dict.values (build_files g)).
Proof.
  intros g Hdistinct.
  destruct (module_init_allocated rnd sources resources)
    as ([_ _ (ifr & ibf & Hfr & Hbf & Hnd & Hrg)] & _ & _ & _ & Hstruct).
  fold g in Hfr, Hbf, Hstruct.
  rewrite Hstruct, Hfr, Hbf, <- !map_app.
  apply NoDup_map_on.
  - intros x y Hx Hy.
    apply (NoDup_map_injective _ _ Hdistinct); apply in_seq.
    + apply in_app_or in Hx as [Hx | Hx];
        [apply in_seq in Hx; unfold ids_drawn; lia | apply Hrg in Hx; lia].
    + apply in_app_or in Hy as [Hy | Hy];
        [apply in_seq in Hy; unfold ids_drawn; lia | apply Hrg in Hy; lia].
  - apply NoDup_app; [apply seq_NoDup | exact Hnd |].
    intros x Hx Hx'. apply in_seq in Hx. apply Hrg in Hx'. lia.
Qed.

Lemma identifiers_distinct_witness :
  let g := module_init counter_rnd Manifest.SOURCE_FILES Manifest.RESOURCE_FILES in
  NoDup (map (uuid_at counter_rnd)
           (seq 0 (ids_drawn Manifest.SOURCE_FILES Manifest.RESOURCE_FILES)))
  /\ NoDup (structural_ids g ++ Dict.values (file_refs g) ++ Dict.values (build_files g)).
Proof.
  intros g.
  assert (H : NoDup (map (uuid_at counter_rnd)
                       (seq 0 (ids_drawn Manifest.SOURCE_FILES Manifest.RESOURCE_FILES)))).
  { apply no_duplicate_NoDup. vm_compute. reflexivity. }
  split; [exact H|].
  exact (identifiers_distinct counter_rnd Manifest.SOURCE_FILES Manifest.RESOURCE_FILES H).
Defined.


(** The resources section never raises: its subscript is guarded. *)
Lemma resource_branch_chunk g :
  pbx_PBXResourcesBuildPhase g = Ok (unwrap (pbx_PBXResourcesBuildPhase g)).
Proof.
  unfold pbx_PBXResourcesBuildPhase. now rewrite (resource_branch g).
Qed.

(* ------------------------------------------------------------------ *)
(** ** When [pbxproj] raises *)
(* ------------------------------------------------------------------ *)

Lemma for_each_ext {A B : Type} (xs : list A) (body body' : A -> result (list B)) :
  (forall x, body x = body' x) -> for_each xs body = for_each xs body'.
Proof.
  intros H. induction xs as [|x xs IH]; [reflexivity|].
  cbn [for_each]. now rewrite H, IH.
Qed.

(** A loop whose body subscripts a dictionary runs through when every key
    it asks for is there, and otherwise raises [KeyError] for a key that is
    not. *)
Lemma for_each_lookup_cases {A B : Type} (xs : list A) (key : A -> string)
    (d : Dict.t) (mk : A -> string -> list B) :
  let body := fun x => try v := Dict.lookup d (key x) in Ok (mk x v) in
  (exists r, for_each xs body = Ok r
             /\ forall x, In x xs -> In (key x) (Dict.keys d))
  \/ (exists x, In x xs /\ ~ In (key x) (Dict.keys d)
                /\ for_each xs body = Raise (KeyError (key x))).
Proof.
  intros body. induction xs as [|x xs IH].
  - left. exists []. split; [reflexivity | intros x []].
  - cbn [for_each]. unfold body at 1 3. unfold Dict.lookup.
    destruct (Dict.get d (key x)) as [v|] eqn:E; cbn [rbind].
    + assert (Hx : In (key x) (Dict.keys d)) by (apply DictFacts.in_keys_get; eauto).
      destruct IH as [(r & Hr & Hall) | (y & Hy & Hmiss & Hr)]; rewrite Hr; cbn [rbind].
      * left. eexists. split; [reflexivity|]. intros z [<- | Hz]; auto.
      * right. exists y. split; [now right | now split].
    + right. exists x. split; [now left|]. split; [|reflexivity].
      intros Hin. apply DictFacts.in_keys_get in Hin as [v Hv]. congruence.
Qed.

Lemma build_file_loop_cases g :
  (exists r, pbx_PBXBuildFile g = Ok r
             /\ incl (Dict.keys (build_files g)) (Dict.keys (file_refs g)))
  \/ (exists p, In p (Dict.keys (build_files g)) /\ ~ In p (Dict.keys (file_refs g))
                /\ pbx_PBXBuildFile g = Raise (KeyError p)).
Proof.
  unfold pbx_PBXBuildFile.
  rewrite (for_each_ext _ _
             (fun x => try v := Dict.lookup (file_refs g) (fst x)
                       in Ok [pbx_build_file_line (basename (fst x)) (snd x) v]))
    by (now intros [path uid]).
  destruct (for_each_lookup_cases (Dict.items (build_files g)) fst (file_refs g)
              (fun x v => [pbx_build_file_line (basename (fst x)) (snd x) v]))
    as [(r & Hr & Hall) | (x & Hx & Hmiss & Hr)]; cbn zeta in Hr; rewrite Hr; cbn [rbind].
  - left. eexists. split; [reflexivity|].
    intros p Hp. apply in_map_iff in Hp as (x & <- & Hx). now apply Hall.
  - right. exists (fst x). split; [now apply in_map | now split].
Qed.

Lemma source_loop_cases g :
  (exists r, pbx_PBXSourcesBuildPhase g = Ok r
             /\ incl (SOURCE_FILES g) (Dict.keys (build_files g)))
  \/ (exists p, In p (SOURCE_FILES g) /\ ~ In p (Dict.keys (build_files g))
                /\ pbx_PBXSourcesBuildPhase g = Raise (KeyError p)).
Proof.
  unfold pbx_PBXSourcesBuildPhase.
  destruct (for_each_lookup_cases (SOURCE_FILES g) (fun p => p) (build_files g)
              (fun p v => [pbx_source_entry_line (basename p) v]))
    as [(r & Hr & Hall) | (x & Hx & Hmiss & Hr)]; cbn zeta in Hr; rewrite Hr; cbn [rbind].
  - left. eexists. split; [reflexivity | exact Hall].
  - right. exists x. now split.
Qed.

(** X5. On any module state, [pbxproj] returns a text exactly when every key
    of [build_files] is a key of [file_refs] and every source path is a key
    of [build_files]; otherwise it raises [KeyError] for a path that breaks
    one of the two, and it raises nothing else. *)
Theorem pbxproj_key_errors (g : Globals) :
  ((exists text, pbxproj g = Ok text)
   <-> incl (Dict.keys (build_files g)) (Dict.keys (file_refs g))
       /\ incl (SOURCE_FILES g) (Dict.keys (build_files g)))
  /\ (forall e, pbxproj g = Raise e ->
        exists p,
          e = KeyError p
          /\ ((In p (Dict.keys (build_files g)) /\ ~ In p (Dict.keys (file_refs g)))
              \/ (In p (SOURCE_FILES g) /\ ~ In p (Dict.keys (build_files g))))).
Proof.
  unfold pbxproj, pbxproj_lines.
  rewrite (resource_branch_chunk g).
  destruct (build_file_loop_cases g) as [(r1 & H1 & Hall1) | (p & Hp & Hmiss & H1)];
    rewrite H1; cbn [rbind].
  - destruct (source_loop_cases g) as [(r2 & H2 & Hall2) | (p & Hp & Hmiss & H2)];
      rewrite H2; cbn [rbind].
    + split; [split; [now intros _ | eauto] | discriminate].
    + split.
      * split; [intros [text H]; discriminate | intros [_ H]; now apply H in Hp].
      * intros e [= <-]. eauto.
  - split.
    + split; [intros [text H]; discriminate | intros [H _]; now apply H in Hp].
    + intros e [= <-]. eauto.
Qed.

Lemma pbxproj_key_errors_witness :
  let g :=
    {| SOURCE_FILES := ["A.swift"%string];
       RESOURCE_FILES := [];
       PROJECT_UUID := uuid_at counter_rnd 0;
       MAIN_GROUP_UUID := uuid_at counter_rnd 1;
       PRODUCTS_GROUP_UUID := uuid_at counter_rnd 2;
       TARGET_UUID := uuid_at counter_rnd 3;
       PRODUCT_REF_UUID := uuid_at counter_rnd 4;
       SOURCES_PHASE_UUID := uuid_at counter_rnd 5;
       RESOURCES_PHASE_UUID := uuid_at counter_rnd 6;
       FRAMEWORKS_PHASE_UUID := uuid_at counter_rnd 7;
       DEBUG_CONFIG_UUID := uuid_at counter_rnd 8;
       RELEASE_CONFIG_UUID := uuid_at counter_rnd 9;
       TARGET_DEBUG_CFG_UUID := uuid_at counter_rnd 10;
       TARGET_RELEASE_CFG_UUID := uuid_at counter_rnd 11;
       PROJECT_CFGLIST_UUID := uuid_at counter_rnd 12;
       TARGET_CFGLIST_UUID := uuid_at counter_rnd 13;
       SWIFTDATA_FW_REF_UUID := uuid_at counter_rnd 14;
       SWIFTDATA_BUILD_UUID := uuid_at counter_rnd 15;
       file_refs := Dict.empty;
       build_files := Dict.empty |} in
  pbxproj g = Raise (KeyError "A.swift")
  /\ exists p,
       KeyError "A.swift" = KeyError p
       /\ ((In p (Dict.keys (build_files g)) /\ ~ In p (Dict.keys (file_refs g)))
           \/ (In p (SOURCE_FILES g) /\ ~ In p (Dict.keys (build_files g)))).
Proof.
  intros g.
  assert (H : pbxproj g = Raise (KeyError "A.swift")) by reflexivity.
  split; [exact H|].
  exact (proj2 (pbxproj_key_errors g) _ H).
Defined.

(* ------------------------------------------------------------------ *)
(** ** Build files and their file references *)
(* ------------------------------------------------------------------ *)




(* ------------------------------------------------------------------ *)
(** ** The project navigator *)
(* ------------------------------------------------------------------ *)



(* ------------------------------------------------------------------ *)
(** ** Runs that are cut short *)
(* ------------------------------------------------------------------ *)

Lemma Forall_allowed_setup sources content :
  Forall (allowed_event sources) (setup_events content).
Proof.
  unfold setup_events.
  repeat (apply Forall_cons; [cbn [allowed_event output_dirs output_files In]; auto 10|]).
  apply Forall_nil.
Qed.

Lemma Forall_allowed_check sources (present : string -> bool) paths :
  incl paths sources -> Forall (allowed_event sources) (check_events present paths).
Proof.
  intros Hincl. apply Forall_forall. intros e He.
  unfold check_events in He. apply in_flat_map in He as (p & Hp & He).
  cbn [In] in He. destruct He as [<- | [<- | []]]; cbn [allowed_event]; auto.
Qed.

Lemma Forall_allowed_summary sources missing :
  Forall (allowed_event sources) (summary_events missing).
Proof.
  apply Forall_forall. intros e He. unfold summary_events in He.
  destruct missing.
  - apply in_map_iff in He as (l & <- & _). exact I.
  - destruct He as [<- | []]. exact I.
Qed.

Lemma filter_quiet (l : list event) :
  forallb (fun e => negb (is_fs_write e)) l = true -> filter is_fs_write l = [].
Proof.
  induction l as [|e l IH]; [reflexivity|].
  cbn [forallb filter]. intros H. apply andb_true_iff in H as [He H].
  destruct (is_fs_write e); [discriminate | now apply IH].
Qed.

(** X8. A run that raises has stopped at one of its own calls on the
    outside, a [print] or a filesystem call: the calls of the plan before
    it have been made, in order, and what they did stays in place; the next
    call of the plan, made on the disk they left, raised the exception the
    run ends on; and the disk is as that call left it. *)
Theorem failed_run_stops_at_failure {os : FileSystem} (rnd : nat -> N)
    (sources resources : list string) (w : World os) (e : exn) (w' : World os) :
  generator rnd sources resources w = (Raise e, w') ->
  exists content done next rest s,
    pbxproj (module_init rnd sources resources) = Ok content
    /\ planned (fs w) content sources = done ++ next :: rest
    /\ trace w' = trace w ++ done
    /\ run_calls done (fs w) = (done, None, s)
    /\ call next s = (Some e, fs w').
Proof.
  intros Hrun.
  pose proof (generator_content rnd sources resources) as Hcontent.
  assert (He : fst (generator rnd sources resources w) = Raise e) by now rewrite Hrun.
  destruct (generator_raised rnd sources resources _ w e Hcontent He)
    as (done & next & rest & s & Hplan & Htrace & Hdone & Hnext).
  rewrite Hrun in Htrace, Hnext. cbn [snd] in Htrace, Hnext.
  eexists _, done, next, rest, s.
  split; [exact Hcontent|]. split; [exact Hplan|]. split; [exact Htrace|].
  split; [exact Hdone | exact Hnext].
Qed.

(** Two runs that raise.  On a console that encodes ASCII only the first
    [print] raises and nothing has been done.  On a disk that refuses the
    catalog's [Contents.json] the run stops there: the descriptor and the
    three directories are in place, and so is the file, empty. *)
Lemma failed_run_stops_at_failure_witness :
  let banner := ("🔨 Generating EM Copilot Xcode project…" ++ nl)%string in
  let w1 := Build_World ascii_console_os MemFS.empty [] in
  let run1 := generator counter_rnd ["A.swift"%string] [] w1 in
  let bad := (assets_base ++ "/Contents.json")%string in
  let w2 := Build_World (refusing_os bad) MemFS.empty [] in
  let run2 := generator counter_rnd ["A.swift"%string] [] w2 in
  (run1 = (Raise (UnicodeEncodeError banner), w1)
   /\ exists content done next rest s,
        pbxproj (module_init counter_rnd ["A.swift"%string] []) = Ok content
        /\ planned (fs w1) content ["A.swift"%string] = done ++ next :: rest
        /\ trace w1 = trace w1 ++ done
        /\ run_calls done (fs w1) = (done, None, s)
        /\ call next s = (Some (UnicodeEncodeError banner), fs w1))
  /\ (run2 = (Raise (OSError "write" bad), snd run2)
      /\ MemFS.path_exists bad (fs (snd run2)) = true
      /\ exists content done next rest s,
           pbxproj (module_init counter_rnd ["A.swift"%string] []) = Ok content
           /\ planned (fs w2) content ["A.swift"%string] = done ++ next :: rest
           /\ trace (snd run2) = trace w2 ++ done
           /\ run_calls done (fs w2) = (done, None, s)
           /\ call next s = (Some (OSError "write" bad), fs (snd run2))).
Proof.
  intros banner w1 run1 bad w2 run2.
  assert (H1 : run1 = (Raise (UnicodeEncodeError banner), w1)) by (vm_compute; reflexivity).
  assert (H2 : run2 = (Raise (OSError "write" bad), snd run2)) by (vm_compute; reflexivity).
  split; [split; [exact H1|] | split; [exact H2 | split; [vm_compute; reflexivity|]]].
  - exact (@failed_run_stops_at_failure ascii_console_os counter_rnd ["A.swift"%string] []
             w1 (UnicodeEncodeError banner) w1 H1).
  - exact (@failed_run_stops_at_failure (refusing_os bad) counter_rnd ["A.swift"%string] []
             w2 (OSError "write" bad) (snd run2) H2).
Defined.

(** X9. Whatever the manifest and the disk, the filesystem calls of a run's
    plan are the same eight, in the same order: [os.makedirs] on the project
    directory, the descriptor written, [os.makedirs] on the three catalog
    directories, the three [Contents.json] written; [os.path.exists] is
    called on paths of the source manifest only.  The manifest decides what
    is written to the descriptor, never which paths these calls are given.
    A run makes the calls of its plan in order, all of them when it ends
    normally and the first ones when it raises. *)
Theorem filesystem_calls_fixed {os : FileSystem} (rnd : nat -> N)
    (sources resources : list string) (w : World os) :
  let run := generator rnd sources resources w in
  exists content done rest,
    pbxproj (module_init rnd sources resources) = Ok content
    /\ planned (fs w) content sources = done ++ rest
    /\ trace (snd run) = trace w ++ done
    /\ (fst run = Ok tt -> rest = [])
    /\ Forall (allowed_event sources) (planned (fs w) content sources)
    /\ filter is_fs_write (planned (fs w) content sources)
       = [ EvMakedirs "EMCopilot.xcodeproj";
           EvWrite proj_path content;
           EvMakedirs assets_base;
           EvMakedirs (assets_base ++ "/AppIcon.appiconset");
           EvMakedirs (assets_base ++ "/AccentColor.colorset");
           EvWrite (assets_base ++ "/Contents.json") (json_dump catalog_contents);
           EvWrite (assets_base ++ "/AppIcon.appiconset/Contents.json")
                   (json_dump appicon_contents);
           EvWrite (assets_base ++ "/AccentColor.colorset/Contents.json")
                   (json_dump accent_contents) ].
Proof.
  intros run. subst run.
  pose proof (generator_content rnd sources resources) as Hcontent.
  set (content := join nl (map render_line (descriptor (module_init rnd sources resources))))
    in *.
  assert (Hallowed : Forall (allowed_event sources) (planned (fs w) content sources)).
  { unfold planned, full_trace.
    apply Forall_app. split; [apply Forall_allowed_setup|].
    apply Forall_app. split; [apply Forall_allowed_check, incl_refl|].
    apply Forall_cons; [exact I | apply Forall_allowed_summary]. }
  assert (Hwrites : filter is_fs_write (planned (fs w) content sources)
                    = filter is_fs_write (setup_events content)).
  { unfold planned, full_trace. rewrite !filter_app.
    rewrite (filter_quiet (check_events _ sources)) by apply check_events_quiet.
    cbn [filter is_fs_write].
    rewrite (filter_quiet (summary_events _)) by apply summary_events_quiet.
    now rewrite !app_nil_r. }
  rewrite (generator_as_calls rnd sources resources content w Hcontent).
  destruct (run_calls _ (fs w)) as [[done raised] s'] eqn:E.
  pose proof (run_calls_stops _ _ _ _ _ E) as Hstop.
  cbn [ended fst snd trace].
  destruct raised as [x|].
  - destruct Hstop as (next & rest & s0 & Hplan & _ & _).
    exists content, done, (next :: rest).
    split; [exact Hcontent|]. split; [exact Hplan|]. split; [reflexivity|].
    split; [discriminate|]. split; [exact Hallowed|].
    rewrite Hwrites. reflexivity.
  - exists content, done, [].
    split; [exact Hcontent|]. split; [now rewrite app_nil_r|]. split; [reflexivity|].
    split; [reflexivity|]. split; [exact Hallowed|].
    rewrite Hwrites. reflexivity.
Qed.

(* ------------------------------------------------------------------ *)
(** ** The report, counted *)
(* ------------------------------------------------------------------ *)

Lemma printed_app a b : printed (a ++ b) = printed a ++ printed b.
Proof. unfold printed. apply flat_map_app. Qed.

Lemma flags_missing_line p : flags_missing (missing_line p) = true.
Proof.
  unfold flags_missing, startswith, missing_line.
  now apply prefix_weaken.
Qed.

Lemma flags_pass_line p : flags_missing (pass_line p) = false.
Proof. reflexivity. Qed.

Lemma flagged_check_events (present : string -> bool) paths :
  filter flags_missing (printed (check_events present paths))
  = map missing_line (missing_paths present paths).
Proof.
  induction paths as [|p paths IH]; [reflexivity|].
  cbn [check_events flat_map printed app missing_paths filter].
  fold (check_events present paths). fold (printed (check_events present paths)).
  fold (missing_paths present paths).
  destruct (present p); cbn [negb filter].
  - rewrite flags_pass_line. exact IH.
  - rewrite flags_missing_line. cbn [map]. now rewrite IH.
Qed.

Lemma flagged_summary missing :
  filter flags_missing (printed (summary_events missing)) = [].
Proof. destruct missing; reflexivity. Qed.

Lemma flagged_full_trace content (present : string -> bool) paths :
  filter flags_missing (printed (full_trace content present paths))
  = map missing_line (missing_paths present paths).
Proof.
  unfold full_trace. rewrite !printed_app, !filter_app, flagged_check_events.
  change (EvPrint EmptyString :: summary_events (missing_paths present paths))
    with ([EvPrint EmptyString] ++ summary_events (missing_paths present paths)).
  rewrite printed_app, filter_app, flagged_summary.
  cbn [setup_events printed flat_map app filter].
  change (flags_missing ("🔨 Generating EM Copilot Xcode project…" ++ nl)) with false.
  change (flags_missing ("  ✓ Created " ++ proj_path)) with false.
  change (flags_missing ("  ✓ Created " ++ assets_base)) with false.
  change (flags_missing (nl ++ "📋 Checking source files…")) with false.
  change (flags_missing EmptyString) with false.
  cbn iota. cbn [app]. now rewrite app_nil_r.
Qed.

Lemma last_printed_full_trace content (present : string -> bool) paths :
  missing_paths present paths <> [] ->
  last (printed (full_trace content present paths)) EmptyString
  = warning_line (List.length (missing_paths present paths)).
Proof.
  intros Hne. unfold full_trace. rewrite (summary_of_missing _ Hne).
  change (EvPrint EmptyString :: [EvPrint (warning_line (List.length (missing_paths present paths)))])
    with ([EvPrint EmptyString] ++ [EvPrint (warning_line (List.length (missing_paths present paths)))]).
  rewrite !app_assoc, printed_app. cbn [printed flat_map app].
  apply last_last.
Qed.

(** X10. In the report of a completed run the lines flagged [MISSING] are
    exactly the lines of the source paths that do not exist, one each and in
    manifest order; when there is one, the run ends on the warning, and the
    number it gives is the number of flagged lines. *)
Theorem missing_count_matches_report {os : FileSystem} (rnd : nat -> N)
    (sources resources : list string) (w : World os) :
  let run := generator rnd sources resources w in
  fst run = Ok tt ->
  exists new,
    trace (snd run) = trace w ++ new
    /\ filter flags_missing (printed new)
       = map missing_line
             (filter (fun p => negb (os_path_exists os p (fs (snd run)))) sources)
    /\ (filter flags_missing (printed new) <> [] ->
        last (printed new) EmptyString
        = warning_line (List.length (filter flags_missing (printed new)))).
Proof.
  intros run Hok. subst run.
  destruct (generator_completed rnd sources resources w Hok) as (fs' & Hrun).
  rewrite Hrun. cbn [snd trace fs]. eexists. split; [reflexivity|].
  rewrite flagged_full_trace. split; [reflexivity|].
  intros Hne. rewrite length_map.
  apply last_printed_full_trace.
  intros Hnil. unfold missing_paths in Hne. unfold missing_paths in Hnil.
  rewrite Hnil in Hne. now apply Hne.
Qed.

(** Two of three source files are missing: two flagged lines, and a
    warning that counts two. *)
Lemma missing_count_matches_report_witness :
  let sources := ["A.swift"; "B.swift"; "C.swift"]%string in
  let run := generator counter_rnd sources [] (MemFS.world ["B.swift"%string]) in
  fst run = Ok tt
  /\ exists new,
       trace (snd run) = trace (MemFS.world ["B.swift"%string]) ++ new
       /\ filter flags_missing (printed new)
          = map missing_line
                (filter (fun p => negb (os_path_exists MemFS.os p (fs (snd run)))) sources)
       /\ (filter flags_missing (printed new) <> [] ->
           last (printed new) EmptyString
           = warning_line (List.length (filter flags_missing (printed new)))).
Proof.
  intros sources run.
  assert (H : fst run = Ok tt) by (vm_compute; reflexivity).
  split; [exact H|].
  exact (@missing_count_matches_report MemFS.os counter_rnd sources []
           (MemFS.world ["B.swift"%string]) H).
Defined.

(* ------------------------------------------------------------------ *)
(** ** Braces and parentheses *)
(* ------------------------------------------------------------------ *)

Lemma list_sum_cons x l : list_sum (x :: l) = x + list_sum l.
Proof. reflexivity. Qed.

Lemma count_char_append c (a b : string) :
  count_char c (a ++ b) = count_char c a + count_char c b.
Proof. induction a as [|d a IH]; cbn [append count_char]; [reflexivity | lia]. Qed.

Lemma count_char_join c sep parts :
  count_char c sep = 0 ->
  count_char c (join sep parts) = list_sum (map (count_char c) parts).
Proof.
  intros Hsep. induction parts as [|p parts IH]; [reflexivity|].
  destruct parts as [|p' parts].
  - cbn [join map list_sum fold_right]. lia.
  - change (join sep (p :: p' :: parts)) with (p ++ sep ++ join sep (p' :: parts))%string.
    rewrite !count_char_append, Hsep, IH. cbn [map list_sum fold_right]. lia.
Qed.

Lemma count_char_render_line c (l : line) :
  (forall id, In id (line_defs l ++ line_refs l) -> count_char c id = 0) ->
  count_char c (render_line l) = line_lit_count c l.
Proof.
  unfold line_lit_count, render_line, line_defs, line_refs.
  induction l as [|p l IH]; intros Hids; [reflexivity|].
  cbn [fold_right map]. rewrite list_sum_cons, count_char_append, IH.
  - destruct p as [s | u | u]; cbn [render_piece piece_lit_count]; [reflexivity | |];
      rewrite (Hids u); try reflexivity; cbn [flat_map app In]; auto.
    apply in_or_app. right. now left.
  - intros id Hid. apply Hids. apply in_app_or in Hid as [Hid | Hid];
      destruct p; cbn [flat_map app In]; rewrite ?in_app_iff; auto.
    right. right. exact Hid.
Qed.

Lemma text_count_literal c (ls : list line) :
  (forall id, In id (defined_ids ls) \/ In id (referenced_ids ls) -> count_char c id = 0) ->
  text_count c ls = lit_count c ls.
Proof.
  unfold text_count, lit_count, defined_ids, referenced_ids.
  induction ls as [|l ls IH]; intros Hids; [reflexivity|].
  cbn [map flat_map] in *. rewrite !list_sum_cons.
  rewrite IH.
  - rewrite count_char_render_line; [reflexivity|].
    intros id Hid. apply Hids. rewrite !in_app_iff.
    apply in_app_or in Hid as [Hid | Hid]; auto.
  - intros id [Hid | Hid]; apply Hids; rewrite !in_app_iff; auto.
Qed.

Lemma lit_count_app c (a b : list line) :
  lit_count c (a ++ b) = lit_count c a + lit_count c b.
Proof. unfold lit_count. now rewrite map_app, list_sum_app. Qed.

Lemma count_char_upper_hex c s :
  is_upper_hex c = false -> all_chars is_upper_hex s = true -> count_char c s = 0.
Proof.
  intros Hc. induction s as [|d s IH]; [reflexivity|].
  cbn [all_chars count_char]. intros H. apply andb_true_iff in H as [Hd Hs].
  rewrite (IH Hs). destruct (Ascii.eqb_spec d c) as [-> | _]; [congruence | reflexivity].
Qed.

Lemma count_char_uuid rnd k c :
  is_upper_hex c = false -> count_char c (uuid_at rnd k) = 0.
Proof.
  intros Hc. apply count_char_upper_hex; [exact Hc|].
  unfold uuid_at, make_uuid, uuid_hex.
  apply all_chars_upper, all_chars_take, hex_padded_lower.
Qed.

Lemma count_char_basename_from c s : forall cur,
  count_char c (basename_from cur s) <= Nat.max (count_char c cur) (count_char c s).
Proof.
  induction s as [|d s IH]; intros cur; cbn [basename_from count_char]; [lia|].
  destruct (Ascii.eqb d "/").
  - specialize (IH s). lia.
  - specialize (IH cur). lia.
Qed.

Lemma count_char_basename c p : count_char c p = 0 -> count_char c (basename p) = 0.
Proof.
  intros H. unfold basename. pose proof (count_char_basename_from c p p). lia.
Qed.

Lemma delimiter_free_counts p :
  delimiter_free p = true ->
  count_char "{" p = 0 /\ count_char "}" p = 0
  /\ count_char "(" p = 0 /\ count_char ")" p = 0.
Proof.
  unfold delimiter_free. cbn [forallb]. rewrite !andb_true_iff, !Nat.eqb_eq. tauto.
Qed.

Lemma lit_count_map {A : Type} c (f : A -> line) (xs : list A) :
  lit_count c (map f xs) = list_sum (map (fun x => line_lit_count c (f x)) xs).
Proof. unfold lit_count. now rewrite map_map. Qed.

Lemma lit_count_flat_map {A : Type} c (f : A -> list line) (xs : list A) :
  lit_count c (flat_map f xs) = list_sum (map (fun x => lit_count c (f x)) xs).
Proof.
  induction xs as [|x xs IH]; [reflexivity|].
  cbn [flat_map map]. now rewrite lit_count_app, list_sum_cons, IH.
Qed.

Lemma list_sum_map_ext {A : Type} (f h : A -> nat) (xs : list A) :
  (forall x, In x xs -> f x = h x) -> list_sum (map f xs) = list_sum (map h xs).
Proof. intros H. f_equal. now apply map_ext_in. Qed.

Section Balance.

Variable g : Globals.
Hypothesis keyed : well_keyed g.
Hypothesis plain_keys :
  forall p, In p (Dict.keys (file_refs g)) -> delimiter_free p = true.

Ltac balance_with p :=
  let H := fresh "H" in
  destruct (delimiter_free_counts p) as (?H1 & ?H2 & ?H3 & ?H4); [auto|];
  pose proof (count_char_basename "{" p ltac:(assumption));
  pose proof (count_char_basename "}" p ltac:(assumption));
  pose proof (count_char_basename "(" p ltac:(assumption));
  pose proof (count_char_basename ")" p ltac:(assumption)).

Ltac count_literals :=
  unfold line_lit_count; cbn [map piece_lit_count];
  rewrite !count_char_append;
  repeat match goal with H : count_char _ _ = 0 |- _ => rewrite !H; clear H end;
  reflexivity.

Lemma balance_build_file_line p uid fref :
  delimiter_free p = true ->
  line_lit_count "{" (pbx_build_file_line (basename p) uid fref)
  = line_lit_count "}" (pbx_build_file_line (basename p) uid fref)
  /\ line_lit_count "(" (pbx_build_file_line (basename p) uid fref)
     = line_lit_count ")" (pbx_build_file_line (basename p) uid fref).
Proof.
  intros Hp. balance_with p. unfold pbx_build_file_line. split; count_literals.
Qed.

Lemma balance_file_reference p uid :
  delimiter_free p = true ->
  lit_count "{" (pbx_file_reference p uid) = lit_count "}" (pbx_file_reference p uid)
  /\ lit_count "(" (pbx_file_reference p uid) = lit_count ")" (pbx_file_reference p uid).
Proof.
  intros Hp. balance_with p. unfold pbx_file_reference.
  destruct (endswith p ".swift"); [|destruct (endswith p ".xcassets")].
  - unfold lit_count. cbn [map]. rewrite !list_sum_cons. split; f_equal; count_literals.
  - unfold lit_count. cbn [map]. rewrite !list_sum_cons. split; f_equal; count_literals.
  - split; reflexivity.
Qed.

Lemma balance_group_child_line p uid :
  delimiter_free p = true ->
  line_lit_count "{" (pbx_group_child_line (basename p) uid)
  = line_lit_count "}" (pbx_group_child_line (basename p) uid)
  /\ line_lit_count "(" (pbx_group_child_line (basename p) uid)
     = line_lit_count ")" (pbx_group_child_line (basename p) uid).
Proof.
  intros Hp. balance_with p. unfold pbx_group_child_line. split; count_literals.
Qed.

Lemma balance_source_entry_line p uid :
  delimiter_free p = true ->
  line_lit_count "{" (pbx_source_entry_line (basename p) uid)
  = line_lit_count "}" (pbx_source_entry_line (basename p) uid)
  /\ line_lit_count "(" (pbx_source_entry_line (basename p) uid)
     = line_lit_count ")" (pbx_source_entry_line (basename p) uid).
Proof.
  intros Hp. balance_with p. unfold pbx_source_entry_line. split; count_literals.
Qed.

Lemma plain_items (d : Dict.t) path uid :
  In (path, uid) (Dict.items d) -> In path (Dict.keys d).
Proof. intros H. unfold Dict.keys. now apply (in_map fst) in H. Qed.

Lemma balance_build_file_entries :
  lit_count "{" (build_file_entries g) = lit_count "}" (build_file_entries g)
  /\ lit_count "(" (build_file_entries g) = lit_count ")" (build_file_entries g).
Proof.
  unfold build_file_entries. rewrite !lit_count_map.
  assert (Hplain : forall path uid,
             In (path, uid) (Dict.items (build_files g)) -> delimiter_free path = true).
  { intros path uid Hin. apply plain_keys. destruct keyed as [-> _].
    now apply plain_items in Hin. }
  split; apply list_sum_map_ext; intros [path uid] Hin.
  - exact (proj1 (balance_build_file_line path uid _ (Hplain _ _ Hin))).
  - exact (proj2 (balance_build_file_line path uid _ (Hplain _ _ Hin))).
Qed.

Lemma balance_file_references :
  lit_count "{" (flat_map (fun '(path, uid) => pbx_file_reference path uid)
                          (Dict.items (file_refs g)))
  = lit_count "}" (flat_map (fun '(path, uid) => pbx_file_reference path uid)
                            (Dict.items (file_refs g)))
  /\ lit_count "(" (flat_map (fun '(path, uid) => pbx_file_reference path uid)
                             (Dict.items (file_refs g)))
     = lit_count ")" (flat_map (fun '(path, uid) => pbx_file_reference path uid)
                               (Dict.items (file_refs g))).
Proof.
  rewrite !lit_count_flat_map.
  assert (Hplain : forall path uid,
             In (path, uid) (Dict.items (file_refs g)) -> delimiter_free path = true).
  { intros path uid Hin. apply plain_keys. now apply plain_items in Hin. }
  split; apply list_sum_map_ext; intros [path uid] Hin.
  - exact (proj1 (balance_file_reference path uid (Hplain _ _ Hin))).
  - exact (proj2 (balance_file_reference path uid (Hplain _ _ Hin))).
Qed.

Lemma balance_group_children :
  lit_count "{" (group_children g) = lit_count "}" (group_children g)
  /\ lit_count "(" (group_children g) = lit_count ")" (group_children g).
Proof.
  unfold group_children. rewrite !lit_count_map.
  assert (Hplain : forall path uid,
             In (path, uid) (Dict.items (file_refs g)) -> delimiter_free path = true).
  { intros path uid Hin. apply plain_keys. now apply plain_items in Hin. }
  split; apply list_sum_map_ext; intros [path uid] Hin.
  - exact (proj1 (balance_group_child_line path uid (Hplain _ _ Hin))).
  - exact (proj2 (balance_group_child_line path uid (Hplain _ _ Hin))).
Qed.

Lemma balance_source_entries :
  lit_count "{" (source_entries g) = lit_count "}" (source_entries g)
  /\ lit_count "(" (source_entries g) = lit_count ")" (source_entries g).
Proof.
  unfold source_entries. rewrite !lit_count_map.
  assert (Hplain : forall path, In path (SOURCE_FILES g) -> delimiter_free path = true).
  { intros path Hin. apply plain_keys. destruct keyed as [-> Hsrc]. now apply Hsrc. }
  split; apply list_sum_map_ext; intros path Hin.
  - exact (proj1 (balance_source_entry_line path _ (Hplain _ Hin))).
  - exact (proj2 (balance_source_entry_line path _ (Hplain _ Hin))).
Qed.

Lemma balance_resource_entries :
  lit_count "{" (resource_entries g) = lit_count "}" (resource_entries g)
  /\ lit_count "(" (resource_entries g) = lit_count ")" (resource_entries g).
Proof.
  unfold resource_entries. destruct (Dict.get _ _); split; vm_compute; reflexivity.
Qed.

(** The literal text of the descriptor opens as many braces and
    parentheses as it closes. *)
Lemma balance_descriptor :
  lit_count "{" (descriptor g) = lit_count "}" (descriptor g)
  /\ lit_count "(" (descriptor g) = lit_count ")" (descriptor g).
Proof.
  unfold descriptor, pbx_PBXBuildFile, pbx_PBXResourcesBuildPhase,
    pbx_PBXSourcesBuildPhase, pbx_PBXFileReference, pbx_PBXGroup.
  rewrite (build_file_loop g keyed), (resource_branch g), (source_loop g keyed).
  cbn [rbind unwrap]. fold (group_children g).
  rewrite !lit_count_app.
  destruct balance_build_file_entries as [-> ->].
  destruct balance_file_references as [-> ->].
  destruct balance_group_children as [-> ->].
  destruct balance_source_entries as [-> ->].
  destruct balance_resource_entries as [-> ->].
  generalize (lit_count "}" (build_file_entries g)), (lit_count ")" (build_file_entries g)).
  generalize (lit_count "}" (flat_map (fun '(path, uid) => pbx_file_reference path uid)
                                      (Dict.items (file_refs g)))),
             (lit_count ")" (flat_map (fun '(path, uid) => pbx_file_reference path uid)
                                      (Dict.items (file_refs g)))).
  generalize (lit_count "}" (group_children g)), (lit_count ")" (group_children g)).
  generalize (lit_count "}" (source_entries g)), (lit_count ")" (source_entries g)).
  generalize (lit_count "}" (resource_entries g)), (lit_count ")" (resource_entries g)).
  intros.
  repeat match goal with
         | |- context [lit_count ?c ?l] =>
             let v := eval vm_compute in (lit_count c l) in
             let H := fresh "H" in
             assert (H : lit_count c l = v) by (vm_compute; reflexivity);
             rewrite !H; clear H
         end.
  split; lia.
Qed.

End Balance.

(** No identifier of a generated descriptor holds a character that is not
    an upper-case hexadecimal digit. *)
Lemma descriptor_ids_plain (rnd : nat -> N) (sources resources : list string) c id :
  is_upper_hex c = false ->
  In id (defined_ids (descriptor (module_init rnd sources resources)))
  \/ In id (referenced_ids (descriptor (module_init rnd sources resources))) ->
  count_char c id = 0.
Proof.
  intros Hc.
  set (g := module_init rnd sources resources).
  pose proof (module_init_keyed rnd sources resources) as Hkeyed. fold g in Hkeyed.
  destruct (module_init_allocated rnd sources resources)
    as ([Hk Hlo (ifr & ibf & Hfr & Hbf & Hnd & Hrg)] & Hkeys & Hsrc & _ & Hstruct).
  fold g in Hk, Hfr, Hbf, Hkeys, Hsrc, Hstruct.
  assert (Hvfr : forall u, In u (Dict.values (file_refs g)) -> count_char c u = 0).
  { intros u Hu. rewrite Hfr in Hu. apply in_map_iff in Hu as (i & <- & _).
    now apply count_char_uuid. }
  assert (Hvbf : forall u, In u (Dict.values (build_files g)) -> count_char c u = 0).
  { intros u Hu. rewrite Hbf in Hu. apply in_map_iff in Hu as (i & <- & _).
    now apply count_char_uuid. }
  assert (Hfixed : forall u, In u (structural_ids g) -> count_char c u = 0).
  { intros u Hu. rewrite Hstruct in Hu. apply in_map_iff in Hu as (i & <- & _).
    now apply count_char_uuid. }
  assert (Hs : forall u,
             In u [ PROJECT_UUID g; MAIN_GROUP_UUID g; PRODUCTS_GROUP_UUID g; TARGET_UUID g;
                    PRODUCT_REF_UUID g; SOURCES_PHASE_UUID g; RESOURCES_PHASE_UUID g;
                    FRAMEWORKS_PHASE_UUID g; DEBUG_CONFIG_UUID g; RELEASE_CONFIG_UUID g;
                    TARGET_DEBUG_CFG_UUID g; TARGET_RELEASE_CFG_UUID g;
                    PROJECT_CFGLIST_UUID g; TARGET_CFGLIST_UUID g;
                    SWIFTDATA_FW_REF_UUID g; SWIFTDATA_BUILD_UUID g ] ->
             count_char c u = 0).
  { exact Hfixed. }
  clear Hstruct Hfixed.
  intros [Hid | Hid].
  - rewrite (defined_ids_descriptor g Hkeyed) in Hid. rewrite !in_app_iff in Hid.
    destruct Hid as [Hid | [Hid | [Hid | Hid]]].
    + now apply Hvbf.
    + apply Hs. cbn [In] in *. intuition.
    + now apply Hvfr, file_reference_ids_in_values.
    + apply Hs. cbn [In] in *. intuition.
  - rewrite (referenced_ids_descriptor g Hkeyed) in Hid. rewrite !in_app_iff in Hid.
    destruct Hid as [Hid | [Hid | [Hid | [Hid | [Hid | [Hid | Hid]]]]]].
    + apply in_map_iff in Hid as (p & <- & Hp).
      apply Hvfr, fref_in_values. now rewrite Hk.
    + apply Hs. cbn [In] in *. intuition.
    + now apply Hvfr.
    + apply Hs. cbn [In] in *. intuition.
    + now apply Hvbf, resource_phase_ids_in_values.
    + apply in_map_iff in Hid as (p & <- & Hp).
      apply Hvbf, build_id_in_values, Hkeys. rewrite Hsrc in Hp.
      apply in_or_app. now left.
    + apply Hs. cbn [In] in *. intuition.
Qed.

Lemma count_char_descriptor (rnd : nat -> N) (sources resources : list string) c :
  is_upper_hex c = false ->
  count_char c nl = 0 ->
  count_char c (join nl (map render_line (descriptor (module_init rnd sources resources))))
  = lit_count c (descriptor (module_init rnd sources resources)).
Proof.
  intros Hc Hnl. rewrite (count_char_join c nl _ Hnl), map_map.
  apply text_count_literal. intros id. now apply descriptor_ids_plain.
Qed.

(** X11. When no manifest path holds a brace or a parenthesis, the
    descriptor of a generated project has as many opening as closing
    braces, and as many opening as closing parentheses. *)
Theorem descriptor_delimiters_balanced (rnd : nat -> N)
    (sources resources : list string) :
  (forall p, In p (sources ++ resources) -> delimiter_free p = true) ->
  exists text,
    pbxproj (module_init rnd sources resources) = Ok text
    /\ count_char "{" text = count_char "}" text
    /\ count_char "(" text = count_char ")" text.
Proof.
  intros Hplain.
  pose proof (module_init_keyed rnd sources resources) as Hkeyed.
  destruct (module_init_allocated rnd sources resources) as (_ & Hkeys & _).
  eexists. split; [now apply pbxproj_ok|].
  rewrite !count_char_descriptor by reflexivity.
  apply balance_descriptor; [exact Hkeyed|].
  intros p Hp. apply Hplain, Hkeys. destruct Hkeyed as [Hk _]. now rewrite <- Hk.
Qed.

(** The manifest of the repository holds no brace and no parenthesis. *)
Lemma descriptor_delimiters_balanced_witness :
  forallb delimiter_free (Manifest.SOURCE_FILES ++ Manifest.RESOURCE_FILES) = true
  /\ exists text,
       pbxproj (module_init counter_rnd Manifest.SOURCE_FILES Manifest.RESOURCE_FILES)
       = Ok text
       /\ count_char "{" text = count_char "}" text
       /\ count_char "(" text = count_char ")" text.
Proof.
  assert (H : forallb delimiter_free (Manifest.SOURCE_FILES ++ Manifest.RESOURCE_FILES) = true)
    by (vm_compute; reflexivity).
  split; [exact H|].
  apply (descriptor_delimiters_balanced counter_rnd Manifest.SOURCE_FILES
           Manifest.RESOURCE_FILES).
  intros p Hp. rewrite forallb_forall in H. now apply H.
Defined.
